(** * Panel's Plotly pane: array extraction, render diffing, event routing
      and the tab-visibility hook

    A shallow embedding of [panel/pane/plotly.py].  Python dictionaries are
    insertion ordered, so a dictionary is an association list whose keys are
    pairwise distinct; methods that mutate their arguments in place return
    the mutated objects; a raised exception is [None]. *)

From Stdlib Require Import String Ascii List ZArith Lia Bool Arith.
From Stdlib Require Import Permutation.
From Stdlib Require Import DecimalString DecimalNat.
Import ListNotations.
Local Open Scope string_scope.
Local Open Scope list_scope.

(** ** Values carried by a serialized figure *)

(** The kind of a numpy dtype, as far as the pane looks at it. *)
Inductive dtype_kind := KNumeric | KDatetime | KStr | KObject.

(** One element of a numpy array.  Numbers are whole numbers, of an
    integer or of a float dtype; [INaN] is the one number that differs from
    itself, and a date/time element is kept as the text that [str] prints
    for it. *)
Inductive item :=
| INum (z : Z)
| INaN
| IStr (s : string)
| IDatetime (repr : string).

(** [np.ndarray]: the items are stored flat, next to the shape. *)
Record ndarray := mk_ndarray {
  dtype : dtype_kind;
  shape : list nat;
  items : list item
}.

(** Python scalars found in a figure's JSON. *)
Inductive scalar :=
| SNone
| SBool (b : bool)
| SInt (z : Z)
| SStr (s : string)
| SDatetime (repr : string).

#[local] Unset Elimination Schemes.

Inductive value :=
| VScalar (s : scalar)
| VArray (a : ndarray)
| VList (l : list value)
| VDict (d : list (string * value)).

#[local] Set Elimination Schemes.

Abbreviation dict := (list (string * value)).

(** Induction over values that reaches inside lists and dictionaries. *)
Section value_induction.
Variable P : value -> Prop.
Hypothesis Hscalar : forall s, P (VScalar s).
Hypothesis Harray : forall a, P (VArray a).
Hypothesis Hlist : forall l, Forall P l -> P (VList l).
Hypothesis Hdict : forall d, Forall (fun kv => P (snd kv)) d -> P (VDict d).

Fixpoint value_nested_ind (v : value) : P v :=
  match v with
  | VScalar s => Hscalar s
  | VArray a => Harray a
  | VList l =>
      Hlist l ((fix go (l : list value) : Forall P l :=
                  match l with
                  | [] => Forall_nil P
                  | x :: r => Forall_cons x (value_nested_ind x) (go r)
                  end) l)
  | VDict d =>
      Hdict d ((fix go (d : dict) : Forall (fun kv => P (snd kv)) d :=
                  match d with
                  | [] => Forall_nil _
                  | kv :: r =>
                      Forall_cons (P := fun kv => P (snd kv)) kv
                        (value_nested_ind (snd kv)) (go r)
                  end) d)
  end.
End value_induction.

(** ** Dictionary operations *)

Section Dict.
Context {V : Type}.

(** [d.get(key)] *)
Fixpoint dict_get (key : string) (d : list (string * V)) : option V :=
  match d with
  | [] => None
  | (k, v) :: r => if String.eqb k key then Some v else dict_get key r
  end.

(** [key in d] *)
Definition dict_mem (key : string) (d : list (string * V)) : bool :=
  match dict_get key d with Some _ => true | None => false end.

(** [d[key] = v]: an existing key keeps its position, a new key goes last. *)
Fixpoint dict_set (key : string) (v : V) (d : list (string * V))
  : list (string * V) :=
  match d with
  | [] => [(key, v)]
  | (k, w) :: r =>
      if String.eqb k key then (k, v) :: r else (k, w) :: dict_set key v r
  end.

(** Keys in iteration order. *)
Definition keys (d : list (string * V)) : list string := map fst d.
End Dict.

(** ** Array extractor *)

(** [str(i)] for a list index. *)
Definition str_of_nat (i : nat) : string :=
  NilEmpty.string_of_uint (Nat.to_uint i).

(** [key if not parent_path else "{}.{}".format(parent_path, key)] *)
Definition join_path (parent_path key : string) : string :=
  if String.eqb parent_path "" then key else parent_path ++ "." ++ key.

(** [full_path + '.' + str(i)] *)
Definition element_path (full_path : string) (i : nat) : string :=
  full_path ++ "." ++ str_of_nat i.

(** A [ColumnDataSource] column is the one-element list wrapping an array. *)
Abbreviation buffer := (list (string * list value)).

(** The body of the loop of [_get_sources_for_trace] for the value found at
    [full_path].  The first component is what stays in the enclosing
    dictionary: [None] when the key was popped.  An element of a list of
    dictionaries that is not a dictionary has no [items] and raises. *)
Fixpoint sources_for_value (v : value) (data : buffer) (full_path : string)
  {struct v} : option (option value * buffer) :=
  match v with
  | VArray a => Some (None, dict_set full_path [VArray a] data)
  | VDict d =>
      match
        (fix items_loop (d : dict) (data : buffer) {struct d}
           : option (dict * buffer) :=
           match d with
           | [] => Some ([], data)
           | (key, w) :: rest =>
               match sources_for_value w data (join_path full_path key) with
               | None => None
               | Some (kept, data1) =>
                   match items_loop rest data1 with
                   | None => None
                   | Some (rest', data2) =>
                       Some (match kept with
                             | Some w' => (key, w') :: rest'
                             | None => rest'
                             end, data2)
                   end
               end
           end) d data
      with
      | None => None
      | Some (d', data') => Some (Some (VDict d'), data')
      end
  | VList l =>
      match l with
      | VDict _ :: _ =>
          match
            (fix elements_loop (l : list value) (i : nat) (data : buffer)
               {struct l} : option (list value * buffer) :=
               match l with
               | [] => Some ([], data)
               | element :: rest =>
                   match element with
                   | VDict _ =>
                       match sources_for_value element data
                               (element_path full_path i) with
                       | Some (Some element', data1) =>
                           match elements_loop rest (S i) data1 with
                           | None => None
                           | Some (rest', data2) =>
                               Some (element' :: rest', data2)
                           end
                       | _ => None
                       end
                   | _ => None
                   end
               end) l 0%nat data
          with
          | None => None
          | Some (l', data') => Some (Some (VList l'), data')
          end
      | _ => Some (Some (VList l), data)
      end
  | VScalar s => Some (Some (VScalar s), data)
  end.

(** [Plotly._get_sources_for_trace(json, data, parent_path)]: returns the
    trace and the buffer as the call leaves them. *)
Fixpoint _get_sources_for_trace (json : dict) (data : buffer)
  (parent_path : string) : option (dict * buffer) :=
  match json with
  | [] => Some ([], data)
  | (key, v) :: rest =>
      match sources_for_value v data (join_path parent_path key) with
      | None => None
      | Some (kept, data1) =>
          match _get_sources_for_trace rest data1 parent_path with
          | None => None
          | Some (rest', data2) =>
              Some (match kept with
                    | Some w => (key, w) :: rest'
                    | None => rest'
                    end, data2)
          end
      end
  end.

(** The loop over the elements of a list of dictionaries. *)
Fixpoint elements_loop (l : list value) (i : nat) (data : buffer)
  (full_path : string) : option (list value * buffer) :=
  match l with
  | [] => Some ([], data)
  | VDict d :: rest =>
      match _get_sources_for_trace d data (element_path full_path i) with
      | None => None
      | Some (d', data1) =>
          match elements_loop rest (S i) data1 full_path with
          | None => None
          | Some (rest', data2) => Some (VDict d' :: rest', data2)
          end
      end
  | _ :: _ => None
  end.

(** The serialized figure: [json['data']] and [json['layout']]. *)
Record figure_json := mk_json {
  json_data : list dict;
  json_layout : dict
}.

Record ColumnDataSource := mk_cds { cds_data : buffer }.

(** [Plotly._get_sources(json)]: one source per trace, each trace stripped
    of its arrays. *)
Fixpoint get_sources_loop (traces : list dict)
  : option (list dict * list ColumnDataSource) :=
  match traces with
  | [] => Some ([], [])
  | trace :: rest =>
      match _get_sources_for_trace trace [] "" with
      | None => None
      | Some (trace', data) =>
          match get_sources_loop rest with
          | None => None
          | Some (rest', sources) =>
              Some (trace' :: rest', mk_cds data :: sources)
          end
      end
  end.

Definition _get_sources (json : figure_json)
  : option (figure_json * list ColumnDataSource) :=
  match get_sources_loop (json_data json) with
  | None => None
  | Some (traces, sources) => Some (mk_json traces (json_layout json), sources)
  end.

(** ** Comparison and truth value of Python objects *)

Definition scalar_eqb (a b : scalar) : bool :=
  match a, b with
  | SNone, SNone => true
  | SBool x, SBool y => Bool.eqb x y
  | SInt x, SInt y => Z.eqb x y
  | SBool x, SInt y => Z.eqb (if x then 1 else 0) y
  | SInt x, SBool y => Z.eqb x (if y then 1 else 0)
  | SStr x, SStr y => String.eqb x y
  | SDatetime x, SDatetime y => String.eqb x y
  | _, _ => false
  end.

(** Elementwise [==] of numpy: [nan] equals nothing. *)
Definition item_eqb (a b : item) : bool :=
  match a, b with
  | INum x, INum y => Z.eqb x y
  | IStr x, IStr y => String.eqb x y
  | IDatetime x, IDatetime y => String.eqb x y
  | _, _ => false
  end.

Definition item_of_scalar (s : scalar) : item :=
  match s with
  | SNone => INaN
  | SBool b => INum (if b then 1 else 0)
  | SInt z => INum z
  | SStr s => IStr s
  | SDatetime r => IDatetime r
  end.

Definition item_truthy (x : item) : bool :=
  match x with
  | INum z => negb (Z.eqb z 0)
  | INaN => true
  | IStr s => negb (String.eqb s "")
  | IDatetime _ => true
  end.

(** [bool(arr)] for an array of elementwise results: only an array of one
    element has a truth value, the empty array is false, any longer array
    raises [ValueError]. *)
Definition truth_of_results (r : list bool) : option bool :=
  match r with
  | [] => Some false
  | [b] => Some b
  | _ => None
  end.

Definition shape_eqb (s t : list nat) : bool :=
  if list_eq_dec Nat.eq_dec s t then true else false.

(** The shape that two shapes broadcast to, both given last dimension
    first: dimensions are matched from the last one, and two dimensions
    match when they are equal or one of them is 1. *)
Fixpoint broadcast (s t : list nat) : option (list nat) :=
  match s, t with
  | [], _ => Some t
  | _, [] => Some s
  | d :: s', e :: t' =>
      match broadcast s' t' with
      | None => None
      | Some r =>
          if Nat.eqb d e then Some (d :: r)
          else if Nat.eqb d 1 then Some (e :: r)
          else if Nat.eqb e 1 then Some (d :: r)
          else None
      end
  end.

(** The truth value of [a == b] for two arrays.  Two arrays of one item
    each compare their items, whatever their shapes.  Arrays of one shape
    compare elementwise.  Arrays of different shapes are broadcast: the
    result has no truth value unless it is empty.  Shapes that do not
    broadcast are not compared elementwise and answer [False]; a numpy
    that raises there instead is read the same way by [differs]. *)
Definition ndarray_eq (a b : ndarray) : option bool :=
  match items a, items b with
  | [x], [y] => Some (item_eqb x y)
  | _, _ =>
      if shape_eqb (shape a) (shape b)
      then truth_of_results
             (map (fun xy => item_eqb (fst xy) (snd xy))
                (combine (items a) (items b)))
      else
        match broadcast (rev (shape a)) (rev (shape b)) with
        | Some r => match fold_right Nat.mul 1%nat r with
                    | O => Some false
                    | _ => None
                    end
        | None => Some false
        end
  end.

(** The item of a value that numpy reads as an array of one item: a
    scalar, an array of one item, a list of one such value.  A dictionary
    is one object, which equals no item. *)
Fixpoint single_item (v : value) : option item :=
  match v with
  | VScalar s => Some (item_of_scalar s)
  | VArray a => match items a with [x] => Some x | _ => None end
  | VList [x] => single_item x
  | VList _ => None
  | VDict _ => Some INaN
  end.

(** The truth value of [a == other] when [other] is no array: a scalar is
    broadcast over the items; a list is read as an array, and against a
    list or a dictionary only an array of at most one item has a truth
    value. *)
Definition ndarray_eq_other (a : ndarray) (other : value) : option bool :=
  match other with
  | VScalar s =>
      truth_of_results (map (fun x => item_eqb x (item_of_scalar s)) (items a))
  | _ =>
      match items a, single_item other with
      | [x], Some y => Some (item_eqb x y)
      | _, _ => truth_of_results (map (fun _ => false) (items a))
      end
  end.

(** [a == b] as [dict.__eq__] and [list.__eq__] evaluate it: lengths first,
    then the entries in order, stopping at the first that differs; an
    exception raised by an entry's comparison propagates. *)
Fixpoint py_eq (a b : value) {struct a} : option bool :=
  match a with
  | VScalar s =>
      match b with
      | VScalar t => Some (scalar_eqb s t)
      | VArray y => ndarray_eq_other y a
      | _ => Some false
      end
  | VArray x =>
      match b with
      | VArray y => ndarray_eq x y
      | _ => ndarray_eq_other x b
      end
  | VList l =>
      match b with
      | VList m =>
          if Nat.eqb (length l) (length m)
          then (fix list_eq (l m : list value) {struct l} : option bool :=
                  match l, m with
                  | x :: l', y :: m' =>
                      match py_eq x y with
                      | None => None
                      | Some false => Some false
                      | Some true => list_eq l' m'
                      end
                  | _, _ => Some true
                  end) l m
          else Some false
      | VArray y => ndarray_eq_other y a
      | _ => Some false
      end
  | VDict d =>
      match b with
      | VDict e =>
          if Nat.eqb (length d) (length e)
          then (fix dict_eq (d : dict) {struct d} : option bool :=
                  match d with
                  | [] => Some true
                  | (k, x) :: d' =>
                      match dict_get k e with
                      | None => Some false
                      | Some y =>
                          match py_eq x y with
                          | None => None
                          | Some false => Some false
                          | Some true => dict_eq d'
                          end
                      end
                  end) d
          else Some false
      | VArray y => ndarray_eq_other y a
      | _ => Some false
      end
  end.

(** [try: changed = (a != b) except Exception: changed = True] *)
Definition differs (a b : value) : bool :=
  match py_eq a b with
  | Some eq => negb eq
  | None => true
  end.

(** [bool(v)] *)
Definition truthy (v : value) : option bool :=
  match v with
  | VScalar SNone => Some false
  | VScalar (SBool b) => Some b
  | VScalar (SInt z) => Some (negb (Z.eqb z 0))
  | VScalar (SStr s) => Some (negb (String.eqb s ""))
  | VScalar (SDatetime _) => Some true
  | VArray a => truth_of_results (map item_truthy (items a))
  | VList l => Some (match l with [] => false | _ => true end)
  | VDict d => Some (match d with [] => false | _ => true end)
  end.

(** ** Figure normalizer *)

(** [go.Figure]: the trace list and the layout it serializes to. *)
Record Figure := mk_figure {
  fig_data : list dict;
  fig_layout : dict
}.

(** [data] as a caller may give it: one trace or a list of traces. *)
Inductive trace_data :=
| OneTrace (trace : dict)
| TraceList (traces : list dict).

(** The shapes of [object] that [_to_figure] tells apart. *)
Inductive plot_object :=
| OFigure (fig : Figure)
| ODict (data : trace_data) (layout : dict)
| OTuple (data : trace_data) (layout : dict)
| OData (data : trace_data).

(** [data if isinstance(data, list) else [data]] *)
Definition as_trace_list (data : trace_data) : list dict :=
  match data with
  | OneTrace trace => [trace]
  | TraceList traces => traces
  end.

Definition _to_figure (obj : plot_object) : Figure :=
  match obj with
  | OFigure fig => fig
  | ODict data layout => mk_figure (as_trace_list data) layout
  | OTuple data layout => mk_figure (as_trace_list data) layout
  | OData data => mk_figure (as_trace_list data) []
  end.

(** [fig.to_plotly_json()]: a fresh copy of the traces and the layout. *)
Definition to_plotly_json (fig : Figure) : figure_json :=
  mk_json (fig_data fig) (fig_layout fig).

(** Modelled from the spec: [isdatetime] of [panel.util], which this file
    imports; an array or a list is date/time valued when its element type
    is a date/time type. *)
Definition isdatetime (v : value) : bool :=
  match v with
  | VArray a => match dtype a with KDatetime => true | _ => false end
  | VList l =>
      forallb (fun x => match x with
                        | VScalar (SDatetime _) => true
                        | _ => false
                        end) l
  | _ => false
  end.

Definition str_of_Z (z : Z) : string := NilEmpty.string_of_int (Z.to_int z).

(** [str(v)] of a scalar. *)
Definition scalar_str (s : scalar) : string :=
  match s with
  | SNone => "None"
  | SBool true => "True"
  | SBool false => "False"
  | SInt z => str_of_Z z
  | SStr s => s
  | SDatetime repr => repr
  end.

Definition item_str (x : item) : item :=
  match x with
  | INum z => IStr (str_of_Z z)
  | INaN => IStr "nan"
  | IStr s => IStr s
  | IDatetime repr => IStr repr
  end.

(** [arr.astype(str)] *)
Definition astype_str (a : ndarray) : ndarray :=
  mk_ndarray KStr (shape a) (map item_str (items a)).

(** [arr.astype(str)] for an array, [[str(v) for v in arr]] for a list. *)
Definition datetime_to_str (arr : value) : value :=
  match arr with
  | VArray a => VArray (astype_str a)
  | VList l =>
      VList (map (fun x => match x with
                           | VScalar s => VScalar (SStr (scalar_str s))
                           | other => other
                           end) l)
  | other => other
  end.

(** The loop over the keys of one trace in [_plotly_json_wrapper]. *)
Definition normalize_trace (trace : dict) : dict :=
  map (fun kv => if isdatetime (snd kv)
                 then (fst kv, datetime_to_str (snd kv))
                 else kv) trace.

Definition _plotly_json_wrapper (fig : Figure) : figure_json :=
  let json := to_plotly_json fig in
  mk_json (map normalize_trace (json_data json)) (json_layout json).

(** ** Widget model and pane *)

(** The [PlotlyPlot] bokeh model, as far as the pane reads and writes it. *)
Record PlotlyPlot := mk_model {
  data : list dict;
  layout : dict;
  data_sources : list ColumnDataSource;
  config : dict;
  model_sizing_mode : option string;
  model_render_count : Z
}.

(** The [Plotly] pane.  [_models] maps the id of a view's root to the
    model rendered for that view. *)
Record Plotly := mk_pane {
  object : option plot_object;
  sizing_mode : option string;
  pane_config : option dict;
  _render_count : Z;
  _figure : option Figure;
  _event : option string;
  restyle_data : option (list value);
  relayout_data : option dict;
  _models : list (string * PlotlyPlot)
}.

(** Modelled from the spec: the framework default of [sizing_mode], declared
    by [Layoutable] outside this file, is the unset value. *)
Definition sizing_mode_default : option string := None.

(** [self.sizing_mode is self.param.sizing_mode.default] *)
Definition sizing_mode_is_default (self : Plotly) : bool :=
  match sizing_mode self, sizing_mode_default with
  | None, None => true
  | Some s, Some t => String.eqb s t
  | _, _ => false
  end.

(** ** Diff engine *)

(** [(new != old).any()] on arrays of one shape.  Numbers are compared as
    the exact numbers they are.  That is numpy's answer between arrays of
    one number type; between an integer array and a float array numpy
    compares in float64, which is the same answer as long as float64 holds
    the numbers exactly. *)
Definition any_ne (new old : list item) : bool :=
  existsb (fun xy => negb (item_eqb (fst xy) (snd xy))) (combine new old).

(** The [try] block of [_update_data_sources]: [old_col] is
    [cds.data.get(key)]; a missing or empty column, or an [old] without a
    shape, raises inside the block and counts as changed. *)
Definition update_array (old_col : option (list value)) (new : value) : bool :=
  match old_col with
  | Some (old :: _) =>
      match old, new with
      | VArray o, VArray n =>
          negb (shape_eqb (shape n) (shape o)) || any_ne (items n) (items o)
      | _, _ => true
      end
  | _ => true
  end.

(** The loop of [_update_data_sources] over [trace_arrays.items()]. *)
Fixpoint update_columns (trace_arrays : buffer) (cds : buffer)
  : option (buffer * bool) :=
  match trace_arrays with
  | [] => Some (cds, false)
  | (key, new_col) :: rest =>
      match new_col with
      | [] => None
      | new :: _ =>
          let changed := update_array (dict_get key cds) new in
          let cds1 := if changed then dict_set key [new] cds else cds in
          match update_columns rest cds1 with
          | None => None
          | Some (cds2, update_sources) =>
              Some (cds2, changed || update_sources)
          end
      end
  end.

(** [_update_data_sources(cds, trace)]: the trace without its arrays, the
    source as mutated in place, and the returned flag. *)
Definition _update_data_sources (cds : ColumnDataSource) (trace : dict)
  : option (dict * ColumnDataSource * bool) :=
  match _get_sources_for_trace trace [] "" with
  | None => None
  | Some (trace', trace_arrays) =>
      match update_columns trace_arrays (cds_data cds) with
      | None => None
      | Some (cds', update_sources) => Some (trace', mk_cds cds', update_sources)
      end
  end.

(** The loop of [_update] over [enumerate(traces)].  Iteration [i] reads
    [model.data_sources[i]], which no earlier iteration has touched, or
    allocates an empty source.  The result lists the stripped traces, the
    source each iteration worked on, and the accumulated flag. *)
Fixpoint trace_loop (traces : list dict) (i : nat)
  (sources : list ColumnDataSource)
  : option (list dict * list ColumnDataSource * bool) :=
  match traces with
  | [] => Some ([], [], false)
  | trace :: rest =>
      let cds := match nth_error sources i with
                 | Some cds => cds
                 | None => mk_cds []
                 end in
      match _update_data_sources cds trace with
      | None => None
      | Some (trace', cds', updated) =>
          match trace_loop rest (S i) sources with
          | None => None
          | Some (traces', touched, update_sources) =>
              Some (trace' :: traces', cds' :: touched,
                    updated || update_sources)
          end
      end
  end.

(** [{k: v for k, v in trace.items() if k != 'uid'}] *)
Definition without_uid (trace : dict) : dict :=
  filter (fun kv => negb (String.eqb (fst kv) "uid")) trace.

(** The loop over [zip(traces, model.data)] that sets [update_data]. *)
Fixpoint traces_differ (traces old : list dict) : bool :=
  match traces, old with
  | new :: traces', old0 :: old' =>
      if differs (VDict (without_uid new)) (VDict (without_uid old0))
      then true
      else traces_differ traces' old'
  | _, _ => false
  end.

(** The [updates] dictionary of [_update]: an absent key is [None]. *)
Record updates := mk_updates {
  u_sizing_mode : option string;
  u_data_sources : option (list ColumnDataSource);
  u_data : option (list dict);
  u_layout : option dict
}.

(** [if updates:] *)
Definition updates_nonempty (u : updates) : bool :=
  match u_sizing_mode u, u_data_sources u, u_data u, u_layout u with
  | None, None, None, None => false
  | _, _, _, _ => true
  end.

(** [model.update] called with the entries of [updates]: what the model
    holds once it has taken every entry over.  Bokeh leaves a value of the
    model in place when it finds that the new value matches it, as a list
    matches an array of the same numbers; where that matters, what the
    model holds is stated, not derived from this definition. *)
Definition model_update (u : updates) (model : PlotlyPlot) : PlotlyPlot :=
  mk_model
    (match u_data u with Some d => d | None => data model end)
    (match u_layout u with Some l => l | None => layout model end)
    (match u_data_sources u with Some s => s | None => data_sources model end)
    (config model)
    (match u_sizing_mode u with
     | Some s => Some s
     | None => model_sizing_mode model
     end)
    (model_render_count model).

(** [model._render_count += 1] *)
Definition bump_render_count (model : PlotlyPlot) : PlotlyPlot :=
  mk_model (data model) (layout model) (data_sources model) (config model)
    (model_sizing_mode model) (model_render_count model + 1).

(** [model.sizing_mode != s] *)
Definition sizing_mode_ne (model : PlotlyPlot) (s : string) : bool :=
  match model_sizing_mode model with
  | Some t => negb (String.eqb t s)
  | None => true
  end.

(** The sizing-mode entry of [updates]. *)
Definition sizing_update (self : Plotly) (model : PlotlyPlot) (layout : dict)
  : option (option string) :=
  if sizing_mode_is_default self && dict_mem "autosize" layout
  then
    match
      match dict_get "autosize" layout with
      | None => Some false
      | Some autosize => truthy autosize
      end
    with
    | None => None
    | Some autosize =>
        Some (if autosize && sizing_mode_ne model "stretch_both"
              then Some "stretch_both"
              else if negb autosize && sizing_mode_ne model "fixed"
                   then Some "fixed"
                   else None)
    end
  else Some None.

(** The part of [_update] that runs when [object] is not [None], up to the
    [updates] dictionary: the model with its existing sources mutated in
    place, [updates], and [update_sources]. *)
Definition update_changes (self : Plotly) (obj : plot_object)
  (model : PlotlyPlot) : option (PlotlyPlot * updates * bool) :=
  let fig := _to_figure obj in
  let json := _plotly_json_wrapper fig in
  let layout0 := json_layout json in
  match trace_loop (json_data json) 0 (data_sources model) with
  | None => None
  | Some (traces, touched, update_sources) =>
      let n := length (data_sources model) in
      let in_place := firstn n touched ++ skipn (length touched) (data_sources model) in
      let new_sources := skipn n touched in
      let model1 :=
        mk_model (data model) (layout model) in_place (config model)
          (model_sizing_mode model) (model_render_count model) in
      let update_layout := differs (VDict (layout model1)) (VDict layout0) in
      let update_data :=
        if Nat.eqb (length (data model1)) (length traces)
        then traces_differ traces (data model1)
        else true in
      match sizing_update self model1 layout0 with
      | None => None
      | Some sizing =>
          Some (model1,
                mk_updates sizing
                  (match new_sources with
                   | [] => None
                   | _ => Some (data_sources model1 ++ new_sources)
                   end)
                  (if update_data then Some traces else None)
                  (if update_layout then Some layout0 else None),
                update_sources)
      end
  end.

(** [Plotly._update(ref, model)]: the model when the call returns, [None]
    when it raises. *)
Definition _update (self : Plotly) (model : PlotlyPlot) : option PlotlyPlot :=
  match object self with
  | None =>
      Some (bump_render_count
              (model_update (mk_updates None None (Some []) (Some [])) model))
  | Some obj =>
      match update_changes self obj model with
      | None => None
      | Some (model1, u, update_sources) =>
          let model2 := if updates_nonempty u then model_update u model1 else model1 in
          Some (if updates_nonempty u || update_sources
                then bump_render_count model2
                else model2)
      end
  end.

(** ** Initial render *)

(** The entries of [params] that [_init_params] computes itself.  A
    parameter of the pane whose value is [None] is not passed on. *)
Record init_params := mk_params {
  p_render_count : Z;
  p_config : dict;
  p_data : list dict;
  p_data_sources : list ColumnDataSource;
  p_layout : dict;
  p_sizing_mode : option string
}.

Definition _init_params (self : Plotly) : option init_params :=
  match
    match object self with
    | None => Some (mk_json [] [], [])
    | Some obj => _get_sources (_plotly_json_wrapper (_to_figure obj))
    end
  with
  | None => None
  | Some (json, sources) =>
      let layout0 := json_layout json in
      match
        match dict_get "autosize" layout0 with
        | None => Some false
        | Some autosize => truthy autosize
        end
      with
      | None => None
      | Some autosize =>
          Some (mk_params (_render_count self)
                  (match pane_config self with Some c => c | None => [] end)
                  (json_data json) sources layout0
                  (if autosize && sizing_mode_is_default self
                   then Some "stretch_both"
                   else sizing_mode self))
      end
  end.

(** The [PlotlyPlot] built from the entries of [_init_params]. *)
Definition model_of_params (p : init_params) : PlotlyPlot :=
  mk_model (p_data p) (p_layout p) (p_data_sources p) (p_config p)
    (p_sizing_mode p) (p_render_count p).

(** [_get_model]: the new model, registered under the root's id. *)
Definition _get_model (self : Plotly) (ref : string)
  : option (PlotlyPlot * Plotly) :=
  match _init_params self with
  | None => None
  | Some p =>
      let model := model_of_params p in
      Some (model,
            mk_pane (object self) (sizing_mode self) (pane_config self)
              (_render_count self) (_figure self) (_event self)
              (restyle_data self) (relayout_data self)
              (dict_set ref model (_models self)))
  end.

(** ** Event router *)

(** The message of [_send_update_msg]: an absent key is [None]. *)
Record update_msg := mk_msg {
  msg_relayout : option dict;
  msg_restyle : option (dict * list nat)
}.

(** Modelled from the spec: [_apply_update] of the pane's base class, which
    is not part of this file, pushes the update to one remote view.  A
    call [self._apply_update([], msg, m, ref)] is the pair of the view
    [ref] and the message it receives. *)
Definition push : Type := string * update_msg.

(** [if source_view_id:] *)
Definition source_view_given (source_view_id : option string) : bool :=
  match source_view_id with
  | None => false
  | Some s => negb (String.eqb s "")
  end.

(** [if d:] for a dictionary argument. *)
Definition nonempty (d : dict) : bool :=
  match d with [] => false | _ => true end.

Section EventRouter.

(** The figure's own methods, defined by the plotting library:
    [_normalize_trace_indexes], and the mutation entry points
    [plotly_restyle] and [plotly_relayout], which change the figure and may
    call back into the pane's send hooks. *)
Variable _normalize_trace_indexes : Figure -> option (list nat) -> list nat.
Variable plotly_restyle :
  Figure -> list value -> Plotly * list push -> option (Plotly * list push).
Variable plotly_relayout :
  Figure -> dict -> Plotly * list push -> option (Plotly * list push).

(** [_send_update_msg]: the pushes it makes, in the order of
    [self._models.items()]. *)
Definition _send_update_msg (self : Plotly) (restyle_data relayout_data : dict)
  (trace_indexes : option (list nat)) (source_view_id : option string)
  : option (list push) :=
  if source_view_given source_view_id then Some []
  else
    match _figure self with
    | None => None
    | Some fig =>
        let trace_indexes := _normalize_trace_indexes fig trace_indexes in
        let msg :=
          mk_msg
            (if nonempty relayout_data then Some relayout_data else None)
            (if nonempty restyle_data
             then Some (restyle_data, trace_indexes)
             else None) in
        Some (map (fun rm => (fst rm, msg)) (_models self))
    end.

Definition _send_relayout_msg (self : Plotly) (relayout_data : dict)
  (source_view_id : option string) : option (list push) :=
  _send_update_msg self [] relayout_data None source_view_id.

Definition _send_restyle_msg (self : Plotly) (restyle_data : dict)
  (trace_indexes : option (list nat)) (source_view_id : option string)
  : option (list push) :=
  _send_update_msg self restyle_data [] trace_indexes source_view_id.

(** [_update_figure_style], run when [restyle_data] changes.  The state is
    the pane and the messages pushed so far. *)
Definition _update_figure_style (st : Plotly * list push)
  : option (Plotly * list push) :=
  match _figure (fst st), restyle_data (fst st) with
  | Some fig, Some restyle => plotly_restyle fig restyle st
  | _, _ => Some st
  end.

(** [_update_figure_layout], run when [relayout_data] changes. *)
Definition _update_figure_layout (st : Plotly * list push)
  : option (Plotly * list push) :=
  match _figure (fst st), relayout_data (fst st) with
  | Some fig, Some relayout => plotly_relayout fig relayout st
  | _, _ => Some st
  end.

End EventRouter.

(** [_update_figure]: the pane takes over the send hooks of a [go.Figure]
    given as [object] and remembers it. *)
Definition _update_figure (self : Plotly) : Plotly :=
  match object self with
  | Some (OFigure fig) =>
      mk_pane (object self) (sizing_mode self) (pane_config self)
        (_render_count self) (Some fig) (_event self)
        (restyle_data self) (relayout_data self) (_models self)
  | _ => self
  end.

(** ** Tab-visibility hook *)

(** The composed bokeh document: tabbed containers, plot widgets and
    everything else.  A tab of [WTabs] is the subtree of its panel. *)
#[local] Unset Elimination Schemes.

Inductive widget :=
| WTabs (id : string) (active : nat) (tabs : list widget)
| WPlot (id : string) (margin : nat)
| WBox (id : string) (children : list widget).

#[local] Set Elimination Schemes.

Definition widget_id (w : widget) : string :=
  match w with
  | WTabs id _ _ => id
  | WPlot id _ => id
  | WBox id _ => id
  end.

Definition is_tabs (w : widget) : bool :=
  match w with WTabs _ _ _ => true | _ => false end.

Definition is_plot (w : widget) : bool :=
  match w with WPlot _ _ => true | _ => false end.

(** [w.references()]: the model and everything below it.  Bokeh hands
    them over as a set; the list names each of them once and its order
    means nothing: whoever iterates brings an order of iteration. *)
Fixpoint references (w : widget) : list widget :=
  w :: match w with
       | WTabs _ _ tabs => flat_map references tabs
       | WPlot _ _ => []
       | WBox _ children => flat_map references children
       end.

(** [root.select({'type': T})]: the references of that type, in the order
    in which the set of the references is iterated.  That order is not the
    order of the document and can change from one run to the next;
    [order] stands for it. *)
Definition select_type (order : list widget -> list widget)
  (is_type : widget -> bool) (root : widget) : list widget :=
  filter is_type (order (references root)).

(** The truth value of [w.select_one({'id': id})]. *)
Definition select_one_id (w : widget) (id : string) : bool :=
  existsb (fun r => String.eqb (widget_id r) id) (references w).

(** A [CustomJS] callback with its [code] and its [args]. *)
Record CustomJS := mk_callback {
  cb_code : string;
  cb_model : string;
  cb_i : nat;
  cb_margin : nat
}.

(** What the hook mutates: the [change:active] callbacks of each tabbed
    container and the [visible] flag of each plot widget, by id. *)
Record hook_state := mk_hook_state {
  js_property_callbacks : list (string * list CustomJS);
  visible : list (string * bool)
}.

Definition code : string := "model.visible = cb_obj.active == i;".

(** The loop that gathers [parent_tabs]: the containers below which the
    plot is found, in the order of [tabs_models]. *)
Definition enclosing (tabs_models : list widget) (model : widget)
  : list widget :=
  filter (fun tabs => select_one_id tabs (widget_id model)) tabs_models.

(** The test of the [parent_tab] search,
    [not any(tabs.select_one(pt) for pt in parent_tabs if pt is not tabs)].
    Models are told apart by their ids.  With no other container in
    [parent_tabs] there is nothing to ask and the test holds.  With another
    one, [tabs.select_one(pt)] hands a model to a search that expects a
    selector dictionary and asks it for its [items]: AttributeError. *)
Definition contains_no_other (parent_tabs : list widget) (tabs : widget)
  : option bool :=
  match
    filter (fun pt => negb (String.eqb (widget_id pt) (widget_id tabs)))
      parent_tabs
  with
  | [] => Some true
  | _ :: _ => None
  end.

(** The loop [for tabs in parent_tabs] that picks [parent_tab]: [Some None]
    when it ends with [parent_tab] still [None]. *)
Fixpoint find_parent_tab (parent_tabs candidates : list widget)
  : option (option widget) :=
  match candidates with
  | [] => Some None
  | tabs :: rest =>
      match contains_no_other parent_tabs tabs with
      | None => None
      | Some true => Some (Some tabs)
      | Some false => find_parent_tab parent_tabs rest
      end
  end.

(** The index [i] left by the loop over [enumerate(parent_tab.tabs)]: the
    first tab in which the model is found, the last index when there is
    none; [None] when the loop has nothing to bind [i] to. *)
Fixpoint tab_index (tabs : list widget) (id : string) (i : nat) : option nat :=
  match tabs with
  | [] => None
  | tab :: rest =>
      if select_one_id tab id then Some i
      else match rest with
           | [] => Some i
           | _ => tab_index rest id (S i)
           end
  end.

(** The loop over the installed callbacks: the callbacks after the loop
    and the [updated] flag. *)
Fixpoint update_callbacks (cbs : list CustomJS) (model_id : string) (i : nat)
  : list CustomJS * bool :=
  match cbs with
  | [] => ([], false)
  | cb :: rest =>
      let r := update_callbacks rest model_id i in
      if String.eqb (cb_code cb) code && String.eqb (cb_model cb) model_id
      then (mk_callback (cb_code cb) (cb_model cb) i (cb_margin cb) :: fst r,
            true)
      else (cb :: fst r, snd r)
  end.

(** The loop of [_patch_tabs_plotly] over [plotly_models], which come in
    the order in which they are visited. *)
Fixpoint patch_models (tabs_models plotly_models : list widget)
  (st : hook_state) : option hook_state :=
  match plotly_models with
  | [] => Some st
  | model :: rest =>
      let parent_tabs := enclosing tabs_models model in
      match find_parent_tab parent_tabs parent_tabs with
      | None => None
      | Some None => Some st
      | Some (Some (WTabs tid active tabs)) =>
          match tab_index tabs (widget_id model) 0 with
          | None => None
          | Some i =>
              let cbs := match dict_get tid (js_property_callbacks st) with
                         | Some cbs => cbs
                         | None => []
                         end in
              let r := update_callbacks cbs (widget_id model) i in
              if snd r
              then patch_models tabs_models rest
                     (mk_hook_state
                        (dict_set tid (fst r) (js_property_callbacks st))
                        (visible st))
              else
                let callback :=
                  mk_callback code (widget_id model) i
                    (match model with WPlot _ margin => margin | _ => 0 end) in
                patch_models tabs_models rest
                  (mk_hook_state
                     (dict_set tid (cbs ++ [callback]) (js_property_callbacks st))
                     (dict_set (widget_id model) (Nat.eqb active i) (visible st)))
          end
      | Some (Some _) => None
      end
  end.

(** [_patch_tabs_plotly(viewable, root)], for the order in which
    [root.select] iterates during this run. *)
Definition _patch_tabs_plotly (order : list widget -> list widget)
  (root : widget) (st : hook_state) : option hook_state :=
  let tabs_models := select_type order is_tabs root in
  let plotly_models := select_type order is_plot root in
  patch_models tabs_models plotly_models st.

(** * Vocabulary of the properties *)

(** ** Normalization and rendering *)

(** A value whose elements are all strings. *)
Definition string_typed (v : value) : bool :=
  match v with
  | VArray a =>
      match dtype a with
      | KStr => forallb (fun x => match x with IStr _ => true | _ => false end)
                  (items a)
      | _ => false
      end
  | VList l =>
      forallb (fun x => match x with
                        | VScalar (SStr _) => true
                        | _ => false
                        end) l
  | _ => false
  end.

(** A trace that the diff engine finds equal to itself: its stripped form
    compares equal to itself without raising, and so does each of its
    arrays, elementwise. *)
Definition self_equal_trace (trace : dict) : bool :=
  match _get_sources_for_trace trace [] "" with
  | None => false
  | Some (trace', trace_arrays) =>
      negb (differs (VDict (without_uid trace')) (VDict (without_uid trace')))
      && forallb (fun kc => match snd kc with
                            | new :: _ => negb (update_array (Some [new]) new)
                            | [] => false
                            end) trace_arrays
  end.

(** A serialized figure that the diff engine finds equal to itself. *)
Definition self_equal_figure (json : figure_json) : bool :=
  negb (differs (VDict (json_layout json)) (VDict (json_layout json)))
  && forallb self_equal_trace (json_data json).




(** A source holds the columns of another as they are. *)
Definition holds_columns (cds src : ColumnDataSource) : Prop :=
  forall key col,
    dict_get key (cds_data src) = Some col ->
    dict_get key (cds_data cds) = Some col.

(** The model holds what a render of the figure leaves on it: the stripped
    traces, the layout, and for each trace, at the index of the trace, a
    buffer that holds the arrays of that trace. *)
Definition recorded (json : figure_json) (model : PlotlyPlot) : Prop :=
  exists json' sources,
    _get_sources json = Some (json', sources) /\
    data model = json_data json' /\
    layout model = json_layout json /\
    forall i src,
      nth_error sources i = Some src ->
      exists cds,
        nth_error (data_sources model) i = Some cds /\ holds_columns cds src.

(** The sizing mode of the model is the one that the autosize flag of the
    layout forces, where it forces one. *)
Definition sizing_settled (self : Plotly) (model : PlotlyPlot)
  (layout0 : dict) : Prop :=
  sizing_mode_is_default self = true ->
  forall autosize,
    dict_get "autosize" layout0 = Some autosize ->
    exists b,
      truthy autosize = Some b /\
      model_sizing_mode model =
        Some (if b then "stretch_both" else "fixed").

(** ** Merging a buffer back into its trace *)

(** [s.split(".")] *)
Fixpoint split_dots (s : string) : list string :=
  match s with
  | EmptyString => [EmptyString]
  | String c r =>
      if Ascii.eqb c "."%char then EmptyString :: split_dots r
      else match split_dots r with
           | seg :: segs => String c seg :: segs
           | [] => [String c EmptyString]
           end
  end.

(** The list index that a property name denotes: the name has to be the
    decimal numeral of the index. *)
Definition index_of (k : string) : option nat :=
  match NilEmpty.uint_of_string k with
  | Some d =>
      if String.eqb (str_of_nat (Nat.of_uint d)) k
      then Some (Nat.of_uint d)
      else None
  | None => None
  end.

(** [l[i] = x] *)
Fixpoint list_set {A : Type} (i : nat) (x : A) (l : list A) : list A :=
  match l, i with
  | [], _ => []
  | _ :: r, O => x :: r
  | y :: r, S j => y :: list_set j x r
  end.

(** [parent[k]] *)
Definition get_prop (k : string) (parent : value) : option value :=
  match parent with
  | VDict d => dict_get k d
  | VList l =>
      match index_of k with
      | Some i => nth_error l i
      | None => None
      end
  | _ => None
  end.

(** [parent[k] = x] *)
Definition set_prop (k : string) (x : value) (parent : value) : option value :=
  match parent with
  | VDict d => Some (VDict (dict_set k x d))
  | VList l =>
      match index_of k with
      | Some i => if Nat.ltb i (length l) then Some (VList (list_set i x l))
                  else None
      | None => None
      end
  | _ => None
  end.

(** Walk down all but the last property of [prop_path], then assign. *)
Fixpoint set_at (prop_path : list string) (x : value) (parent : value)
  : option value :=
  match prop_path with
  | [] => None
  | prop :: rest =>
      match rest with
      | [] => set_prop prop x parent
      | _ =>
          match get_prop prop parent with
          | None => None
          | Some child =>
              match set_at rest x child with
              | None => None
              | Some child' => set_prop prop child' parent
              end
          end
      end
  end.

(** Modelled from the spec: the merge of a columnar buffer back into its
    trace, which the widget's client side performs and which is not part of
    this file.  Each column's key is split at the dots, the path is walked
    from the trace, and the wrapped array is assigned at its end. *)
Fixpoint merge_buffer (columns : buffer) (trace : value) : option value :=
  match columns with
  | [] => Some trace
  | (column, col) :: rest =>
      match col with
      | [] => None
      | array :: _ =>
          match set_at (split_dots column) array trace with
          | None => None
          | Some trace' => merge_buffer rest trace'
          end
      end
  end.

(** ** An update that raises *)

(** The sources of the model at the moment the loop of [_update] over the
    traces raises.  The iterations ahead of the failing one have rewritten
    their sources in place; a source that an iteration allocated for
    itself is not the model's; the failing iteration raises while it
    extracts the arrays, before it writes.  [None] when the loop runs to
    its end. *)
Fixpoint trace_loop_raised (traces : list dict) (i : nat)
  (sources : list ColumnDataSource) : option (list ColumnDataSource) :=
  match traces with
  | [] => None
  | trace :: rest =>
      let cds := match nth_error sources i with
                 | Some cds => cds
                 | None => mk_cds []
                 end in
      match _update_data_sources cds trace with
      | None => Some sources
      | Some (_, cds', _) =>
          trace_loop_raised rest (S i) (list_set i cds' sources)
      end
  end.

(** The model as [_update] leaves it when it raises: in the loop over the
    traces, or after it, where the truth value of the autosize flag is
    asked for.  By then only sources have been written.  [None] when
    [_update] returns. *)
Definition _update_raised (self : Plotly) (model : PlotlyPlot)
  : option PlotlyPlot :=
  match object self with
  | None => None
  | Some obj =>
      let json := _plotly_json_wrapper (_to_figure obj) in
      let with_sources sources :=
        mk_model (data model) (layout model) sources (config model)
          (model_sizing_mode model) (model_render_count model) in
      match trace_loop (json_data json) 0 (data_sources model) with
      | None =>
          match trace_loop_raised (json_data json) 0 (data_sources model) with
          | Some sources => Some (with_sources sources)
          | None => None
          end
      | Some (_, touched, _) =>
          let n := length (data_sources model) in
          let in_place :=
            firstn n touched ++ skipn (length touched) (data_sources model) in
          match sizing_update self (with_sources in_place) (json_layout json)
          with
          | None => Some (with_sources in_place)
          | Some _ => None
          end
      end
  end.

(** ** Extraction *)

Definition item_eq_dec (a b : item) : {a = b} + {a <> b}.
Proof. decide equality; (apply Z.eq_dec || apply string_dec). Defined.

Definition scalar_eq_dec (a b : scalar) : {a = b} + {a <> b}.
Proof.
  decide equality; (apply Z.eq_dec || apply string_dec || apply bool_dec).
Defined.

Definition ndarray_eq_dec (a b : ndarray) : {a = b} + {a <> b}.
Proof.
  decide equality.
  - apply list_eq_dec, item_eq_dec.
  - apply list_eq_dec, Nat.eq_dec.
  - decide equality.
Defined.

(** The same content: the same scalars and arrays under the same keys and
    indices, whatever the order of the keys of a dictionary. *)
Fixpoint same_content (a b : value) {struct a} : bool :=
  match a with
  | VScalar s =>
      match b with
      | VScalar t => if scalar_eq_dec s t then true else false
      | _ => false
      end
  | VArray x =>
      match b with
      | VArray y => if ndarray_eq_dec x y then true else false
      | _ => false
      end
  | VList l =>
      match b with
      | VList m =>
          (fix same_list (l m : list value) {struct l} : bool :=
             match l, m with
             | [], [] => true
             | x :: l', y :: m' => same_content x y && same_list l' m'
             | _, _ => false
             end) l m
      | _ => false
      end
  | VDict d =>
      match b with
      | VDict e =>
          Nat.eqb (length d) (length e) &&
          (fix same_entries (d : dict) {struct d} : bool :=
             match d with
             | [] => true
             | (k, x) :: d' =>
                 match dict_get k e with
                 | Some y => same_content x y
                 | None => false
                 end && same_entries d'
             end) d
      | _ => false
      end
  end.

(** [list(json.items())] and the recursion of [_get_sources_for_trace]
    visit a list only when its first element is a dictionary. *)
Definition list_of_mappings (l : list value) : bool :=
  match l with
  | VDict _ :: _ => true
  | _ => false
  end.

(** The value reached from [v] along a path of keys and list indices,
    through nested mappings and lists of mappings. *)
Fixpoint descend (path : list string) (v : value) : option value :=
  match path with
  | [] => Some v
  | k :: rest =>
      match v with
      | VDict d =>
          match dict_get k d with
          | Some child => descend rest child
          | None => None
          end
      | VList l =>
          if list_of_mappings l
          then match index_of k with
               | Some i =>
                   match nth_error l i with
                   | Some child => descend rest child
                   | None => None
                   end
               | None => None
               end
          else None
      | _ => None
      end
  end.

(** The dotted path of a path of keys and indices below [parent_path]. *)
Definition dotted_from (parent_path : string) (path : list string) : string :=
  fold_left join_path path parent_path.

Definition dotted (path : list string) : string := dotted_from "" path.

Fixpoint dot_free (s : string) : bool :=
  match s with
  | EmptyString => true
  | String c r => negb (Ascii.eqb c "."%char) && dot_free r
  end.

(** A property name: not empty and without a dot. *)
Definition key_ok (k : string) : bool :=
  negb (String.eqb k "") && dot_free k.

Fixpoint distinct (l : list string) : bool :=
  match l with
  | [] => true
  | k :: r => negb (existsb (String.eqb k) r) && distinct r
  end.

Definition is_dict (v : value) : bool :=
  match v with VDict _ => true | _ => false end.

(** A value all of whose dictionaries have pairwise distinct keys, as every
    Python dictionary has. *)
Fixpoint valid (v : value) : bool :=
  match v with
  | VDict d => distinct (keys d) && forallb (fun kv => valid (snd kv)) d
  | VList l => forallb valid l
  | _ => true
  end.

(** The serialized traces that the plotting library hands over: in every
    dictionary the extractor visits the keys are distinct property names,
    and a list that starts with a dictionary holds dictionaries only. *)
Fixpoint well_formed (v : value) : bool :=
  match v with
  | VDict d =>
      distinct (keys d) && forallb key_ok (keys d) &&
      forallb (fun kv => well_formed (snd kv)) d
  | VList l =>
      if list_of_mappings l
      then forallb (fun e => is_dict e && well_formed e) l
      else forallb valid l
  | _ => true
  end.

Section Entries.
Variable f : value -> value.

(** The entries that are no arrays, each value mapped by [f]. *)
Fixpoint kept_entries (d : dict) : dict :=
  match d with
  | [] => []
  | (k, x) :: r =>
      match x with
      | VArray _ => kept_entries r
      | _ => (k, f x) :: kept_entries r
      end
  end.
End Entries.

(** The entries that are arrays. *)
Fixpoint array_entries (d : dict) : dict :=
  match d with
  | [] => []
  | (k, x) :: r =>
      match x with
      | VArray _ => (k, x) :: array_entries r
      | _ => array_entries r
      end
  end.

(** A value without the arrays that the extractor pops. *)
Fixpoint strip (v : value) : value :=
  match v with
  | VDict d => VDict (kept_entries strip d)
  | VList l => if list_of_mappings l then VList (map strip l) else v
  | _ => v
  end.

(** A value with its arrays moved to the end of their dictionaries. *)
Fixpoint restore (v : value) : value :=
  match v with
  | VDict d => VDict (kept_entries restore d ++ array_entries d)
  | VList l => if list_of_mappings l then VList (map restore l) else v
  | _ => v
  end.

Definition prefix (k : string) (e : list string * ndarray)
  : list string * ndarray :=
  (k :: fst e, snd e).

Section Arrays.
Variable f : value -> list (list string * ndarray).

Fixpoint entry_arrays (d : dict) : list (list string * ndarray) :=
  match d with
  | [] => []
  | (k, x) :: r => map (prefix k) (f x) ++ entry_arrays r
  end.

Fixpoint element_arrays (l : list value) (i : nat)
  : list (list string * ndarray) :=
  match l with
  | [] => []
  | e :: r => map (prefix (str_of_nat i)) (f e) ++ element_arrays r (S i)
  end.
End Arrays.

(** The arrays that the extractor pops below [v], each with its path, in
    the order of the visit. *)
Fixpoint arrays_of (v : value) : list (list string * ndarray) :=
  match v with
  | VScalar _ => []
  | VArray a => [([], a)]
  | VList l =>
      if list_of_mappings l then element_arrays arrays_of l 0 else []
  | VDict d => entry_arrays arrays_of d
  end.

(** The writes [data[full_path] = [array]] for a list of arrays. *)
Definition write_all (parent_path : string)
  (arrays : list (list string * ndarray)) (data : buffer) : buffer :=
  fold_left (fun data e =>
               dict_set (dotted_from parent_path (fst e)) [VArray (snd e)] data)
    arrays data.

(** The assignments of a merge, by path instead of by dotted key. *)
Fixpoint merge_paths (arrays : list (list string * ndarray)) (trace : value)
  : option value :=
  match arrays with
  | [] => Some trace
  | e :: rest =>
      match set_at (fst e) (VArray (snd e)) trace with
      | None => None
      | Some trace' => merge_paths rest trace'
      end
  end.

(** The columns written for a list of arrays, when no key is written
    twice. *)
Definition columns_of (arrays : list (list string * ndarray)) : buffer :=
  map (fun e => (dotted (fst e), [VArray (snd e)])) arrays.

(** Columns that an update would leave alone. *)
Definition settled (cds : buffer) (kc : string * list value) : Prop :=
  exists new rest,
    snd kc = new :: rest /\ update_array (dict_get (fst kc) cds) new = false.

(** A column that wraps one array. *)
Definition column_ok (kc : string * list value) : Prop :=
  exists a, snd kc = [VArray a].

(** What is left in the enclosing dictionary for a value. *)
Definition kept_value (v : value) : option value :=
  match v with
  | VArray _ => None
  | _ => Some (strip v)
  end.

(** The extractor on [v]: [v] is left without its arrays and each array is
    written under its dotted path. *)
Definition extracts_as_specified (v : value) : Prop :=
  forall data p,
    well_formed v = true -> p <> "" ->
    sources_for_value v data p =
    Some (kept_value v, write_all p (arrays_of v) data).

(** The properties of a path after the first, each behind its dot. *)
Fixpoint dots (path : list string) : string :=
  match path with
  | [] => ""
  | k :: rest => ("." ++ k ++ dots rest)%string
  end.

(** Merging the arrays of [v] into [v] without them gives [v] with its
    arrays at the end of their dictionaries. *)
Definition merges_back (v : value) : Prop :=
  (forall a, v <> VArray a) ->
  well_formed v = true ->
  merge_paths (arrays_of v) (strip v) = Some (restore v).

(** ** Extraction on any trace *)

(** Every list that the extractor visits and that starts with a dictionary
    holds dictionaries only. *)
Fixpoint homogeneous (v : value) : bool :=
  match v with
  | VDict d => forallb (fun kv => homogeneous (snd kv)) d
  | VList l =>
      if list_of_mappings l
      then forallb (fun e => is_dict e && homogeneous e) l
      else true
  | _ => true
  end.

(** [r is not None] *)
Definition is_some {A : Type} (r : option A) : bool :=
  match r with Some _ => true | None => false end.

(** ** Extracted values *)

(** An extracted value holds no array that a second visit would find. *)
Definition extracted_again (v' : value) : Prop :=
  forall data p, sources_for_value v' data p = Some (Some v', data).

(** No path of keys and indices leads from [v'] to an array. *)
Definition no_array_below (v' : value) : Prop :=
  forall path a, descend path v' <> Some (VArray a).

(** ** The tab-visibility hook, one plot at a time *)

(** An order of iteration hands over the models it is given, each once. *)
Definition rearranges (order : list widget -> list widget) : Prop :=
  forall l, Permutation (order l) l.

(** [cb.code == code and cb.args.get('model') is model] *)
Definition cb_matches (model_id : string) (cb : CustomJS) : bool :=
  String.eqb (cb_code cb) code && String.eqb (cb_model cb) model_id.

(** [cb.args['i'] = i] *)
Definition cb_set_index (i : nat) (cb : CustomJS) : CustomJS :=
  mk_callback (cb_code cb) (cb_model cb) i (cb_margin cb).

(** How one iteration of the loop over [plotly_models] ends. *)
Inductive step_result :=
| Returned
| Raised
| Continued (st : hook_state).

(** One iteration of the loop of [patch_models]. *)
Definition patch_step (tabs_models : list widget) (model : widget)
  (st : hook_state) : step_result :=
  let parent_tabs := enclosing tabs_models model in
  match find_parent_tab parent_tabs parent_tabs with
  | None => Raised
  | Some None => Returned
  | Some (Some (WTabs tid active tabs)) =>
      match tab_index tabs (widget_id model) 0 with
      | None => Raised
      | Some i =>
          let cbs := match dict_get tid (js_property_callbacks st) with
                     | Some cbs => cbs
                     | None => []
                     end in
          let r := update_callbacks cbs (widget_id model) i in
          if snd r
          then Continued
                 (mk_hook_state
                    (dict_set tid (fst r) (js_property_callbacks st))
                    (visible st))
          else
            Continued
              (mk_hook_state
                 (dict_set tid
                    (cbs ++ [mk_callback code (widget_id model) i
                               (match model with
                                | WPlot _ margin => margin
                                | _ => 0
                                end)])
                    (js_property_callbacks st))
                 (dict_set (widget_id model) (Nat.eqb active i) (visible st)))
      end
  | Some (Some _) => Raised
  end.

(** The callbacks of a container hold the rule of a plot, with the index
    of the plot's tab. *)
Definition bound_in (tid : string) (model_id : string) (i : nat)
  (st : hook_state) : Prop :=
  exists cbs,
    dict_get tid (js_property_callbacks st) = Some cbs /\
    map (fun cb => if cb_matches model_id cb then cb_set_index i cb else cb)
      cbs = cbs /\
    existsb (cb_matches model_id) cbs = true.

(** The rule of a plot is in place on the one container that encloses it. *)
Definition plot_bound (tabs_models : list widget) (st : hook_state)
  (model : widget) : Prop :=
  exists tid active tabs i,
    enclosing tabs_models model = [WTabs tid active tabs] /\
    tab_index tabs (widget_id model) 0 = Some i /\
    bound_in tid (widget_id model) i st.

(** * Example inputs *)

(** A one-dimensional array of numbers. *)
Definition int_array (l : list Z) : ndarray :=
  mk_ndarray KNumeric [length l] (map INum l).

(** A pane with no object, never rendered. *)
Definition empty_pane : Plotly :=
  mk_pane None None None 0 None None None None [].

(** The trace [{x: [1,2,3], y: [4,5,6]}], both values bulk arrays. *)
Definition xy_trace : dict :=
  [("x", VArray (int_array [1; 2; 3]%Z)); ("y", VArray (int_array [4; 5; 6]%Z))].

(** A model that shows [xy_trace]. *)
Definition xy_model : PlotlyPlot :=
  mk_model [[]] []
    [mk_cds [("x", [VArray (int_array [1; 2; 3]%Z)]);
             ("y", [VArray (int_array [4; 5; 6]%Z)])]]
    [] None 7.

Definition empty_figure : Figure := mk_figure [] [].

Definition empty_model : PlotlyPlot := mk_model [] [] [] [] None 0.

(** A pane that owns a figure and is rendered in two views. *)
Definition two_view_pane : Plotly :=
  mk_pane (Some (OFigure empty_figure)) None None 0 (Some empty_figure) None
    None None [("view1", empty_model); ("view2", empty_model)].

(** [None] selects every trace of the figure. *)
Definition all_traces (fig : Figure) (trace_indexes : option (list nat))
  : list nat :=
  match trace_indexes with
  | Some l => l
  | None => seq 0 (length (fig_data fig))
  end.

Definition new_year : value := VScalar (SDatetime "2021-01-01 00:00:00").

(** A figure with a date/time list on a top-level key and another one
    nested under [marker]. *)
Definition dated_figure : Figure :=
  mk_figure
    [[("x", VList [new_year]);
      ("marker", VDict [("color", VList [new_year])])]]
    [].

(** A model that shows two traces, each with its own buffer. *)
Definition two_trace_model : PlotlyPlot :=
  mk_model [[("type", VScalar (SStr "bar"))]; [("type", VScalar (SStr "bar"))]]
    [] [mk_cds []; mk_cds []] [] None 0.

(** A pane whose figure has a single trace. *)
Definition one_trace_pane : Plotly :=
  mk_pane (Some (OData (OneTrace [("type", VScalar (SStr "bar"))])))
    None None 0 None None None None [].

(** A pane left at the default sizing mode whose layout turns autosize
    off. *)
Definition autosize_off_pane : Plotly :=
  mk_pane (Some (ODict (TraceList []) [("autosize", VScalar (SBool false))]))
    None None 0 None None None None [].

(** No callback installed, no visibility set. *)
Definition no_hooks : hook_state := mk_hook_state [] [].

(** A plot outside any tabs, next to tabs that hold a second plot. *)
Definition plot_then_tabs : widget :=
  WBox "root" [WPlot "p1" 0; WTabs "t" 0 [WPlot "p2" 0]].

(** A plot in the second tab of tabs nested in other tabs. *)
Definition nested_tabs : widget :=
  WTabs "outer" 0 [WTabs "inner" 1 [WBox "b" []; WPlot "p" 5]].

(** A tabbed container with a plot in its second tab, which is active. *)
Definition second_tab_plot : widget :=
  WTabs "inner" 1 [WBox "b" []; WPlot "p" 5].

(** Two plots in the two tabs of one container, the second tab active. *)
Definition two_tabbed_plots : widget :=
  WTabs "t" 1 [WPlot "p1" 0; WPlot "p2" 3].

(** A pane on a figure with one trace of two arrays and a title. *)
Definition xy_pane : Plotly :=
  mk_pane (Some (OTuple (OneTrace xy_trace) [("title", VScalar (SStr "xy"))]))
    None None 0 None None None None [].

(** A pane at the default sizing mode on a figure that asks for autosize,
    and a model on which that figure is rendered: the arrays are in the
    first buffer, next to a column of an earlier figure, and a second
    buffer is left from an earlier figure. *)
Definition stretched_pane : Plotly :=
  mk_pane (Some (OTuple (OneTrace xy_trace)
                   [("autosize", VScalar (SBool true))]))
    None None 3 None None None None [].

Definition stretched_model : PlotlyPlot :=
  mk_model [[]] [("autosize", VScalar (SBool true))]
    [mk_cds [("z", [VArray (int_array [0]%Z)]);
             ("x", [VArray (int_array [1; 2; 3]%Z)]);
             ("y", [VArray (int_array [4; 5; 6]%Z)])];
     mk_cds [("x", [VArray (int_array [9]%Z)])]]
    [] (Some "stretch_both") 3.

(** A pane on two traces, the second of which holds a list that starts
    with a mapping and goes on with a number; and a model whose first
    buffer holds other numbers than the first trace. *)
Definition broken_pane : Plotly :=
  mk_pane
    (Some (OData (TraceList
                    [[("x", VArray (int_array [7; 8; 9]%Z))];
                     [("dimensions", VList [VDict []; VScalar (SInt 1)])]])))
    None None 0 None None None None [].

Definition stale_model : PlotlyPlot :=
  mk_model [[]; []] []
    [mk_cds [("x", [VArray (int_array [1; 2; 3]%Z)])]; mk_cds []]
    [] None 4.

(** A pane whose layout holds an array of tick values. *)
Definition ticks_pane : Plotly :=
  mk_pane
    (Some (OTuple (TraceList [])
             [("xaxis", VDict [("tickvals", VArray (int_array [0; 5; 10]%Z))])]))
    None None 0 None None None None [].

(** A trace with arrays at its top level, under a nested mapping and in a
    list of mappings. *)
Definition nested_trace : dict :=
  [("x", VArray (int_array [1; 2; 3]%Z));
   ("type", VScalar (SStr "splom"));
   ("marker", VDict [("color", VArray (int_array [7; 8; 9]%Z));
                     ("size", VScalar (SInt 4))]);
   ("dimensions", VList [VDict [("label", VScalar (SStr "a"));
                                ("values", VArray (int_array [1; 2]%Z))];
                         VDict [("values", VArray (int_array [3; 4]%Z))]])].

(** The model after [one_trace_pane] is rendered into [two_trace_model]. *)
Definition one_trace_model : PlotlyPlot :=
  mk_model [[("type", VScalar (SStr "bar"))]] [] [mk_cds []; mk_cds []] []
    None 1.

(** A trace with a dotted key next to a nested mapping that leads to the
    same dotted path. *)
Definition colliding_trace : dict :=
  [("a.b", VArray (int_array [1]%Z));
   ("a", VDict [("b", VArray (int_array [2]%Z))])].

(** A pane whose single trace holds an array with a NaN. *)
Definition nan_pane : Plotly :=
  mk_pane
    (Some (OData (OneTrace [("y", VArray (mk_ndarray KNumeric [1] [INaN]))])))
    None None 0 None None None None [].

(** The model that the initial render makes for [xy_pane]. *)
Definition xy_model_initial : PlotlyPlot :=
  mk_model [[]] [("title", VScalar (SStr "xy"))]
    [mk_cds [("x", [VArray (int_array [1; 2; 3]%Z)]);
             ("y", [VArray (int_array [4; 5; 6]%Z)])]] [] None 0.

(** A pane whose trace carries a fresh uid. *)
Definition uid_pane : Plotly :=
  mk_pane
    (Some (OData (OneTrace [("uid", VScalar (SStr "new"));
                            ("type", VScalar (SStr "bar"))])))
    None None 0 None None None None [].

(** A model that shows the trace of [uid_pane] under an older uid. *)
Definition uid_model : PlotlyPlot :=
  mk_model [[("type", VScalar (SStr "bar")); ("uid", VScalar (SStr "old"))]]
    [] [mk_cds []] [] None 3.

(** A pane on a plain dictionary that owns no figure and has a restyle and
    a relayout event waiting. *)
Definition dict_pane : Plotly :=
  mk_pane (Some (ODict (TraceList [xy_trace]) [])) None None 0 None None
    (Some [VDict [("opacity", VScalar (SInt 1))]])
    (Some [("title", VScalar (SStr "t"))]) [].

(** * Properties *)

(** ** Unfolding the extractor *)

Lemma sources_for_value_dict d data p :
  sources_for_value (VDict d) data p =
  match _get_sources_for_trace d data p with
  | None => None
  | Some (d', data') => Some (Some (VDict d'), data')
  end.
Proof.
  cbn [sources_for_value].
  match goal with |- match ?f d data with _ => _ end = _ =>
    assert (E : forall d data, f d data = _get_sources_for_trace d data p) end.
  { clear. induction d as [|[k v] r IH]; intros data; [reflexivity|].
    cbn [_get_sources_for_trace].
    destruct (sources_for_value v data (join_path p k)) as [[kept d1]|];
      [|reflexivity].
    rewrite IH. reflexivity. }
  rewrite E. reflexivity.
Qed.

Lemma sources_for_value_list l data p :
  sources_for_value (VList l) data p =
  match l with
  | VDict _ :: _ =>
      match elements_loop l 0 data p with
      | None => None
      | Some (l', data') => Some (Some (VList l'), data')
      end
  | _ => Some (Some (VList l), data)
  end.
Proof.
  cbn [sources_for_value].
  match goal with |- context [match ?f l 0 data with _ => _ end] =>
    set (F := f) end.
  assert (E : forall l i data, F l i data = elements_loop l i data p).
  { clear. induction l as [|x r IH]; intros i data; [reflexivity|].
    destruct x as [s|a|l0|d]; try reflexivity.
    cbn [F]. rewrite sources_for_value_dict. cbn [elements_loop].
    destruct (_get_sources_for_trace d data (element_path p i))
      as [[d' data1]|]; [|reflexivity].
    fold F. rewrite IH. reflexivity. }
  destruct l as [|[s|a|l0|d0] r]; try reflexivity.
  rewrite E. reflexivity.
Qed.

(** ** The scenario of the specification *)

(** C3: the figure whose single trace is [{x: [1,2,3], y: [4,5,6]}] (both
    bulk arrays) with an empty layout is extracted to the empty trace and
    the buffer [{x: [[1,2,3]], y: [[4,5,6]]}]. *)
Theorem extract_xy_scenario :
  _get_sources
    (mk_json [[("x", VArray (int_array [1; 2; 3]%Z));
               ("y", VArray (int_array [4; 5; 6]%Z))]] []) =
  Some (mk_json [[]] [],
        [mk_cds [("x", [VArray (int_array [1; 2; 3]%Z)]);
                 ("y", [VArray (int_array [4; 5; 6]%Z)])]]).
Proof. reflexivity. Qed.

(** ** Update with no object *)

(** C10: when the pane's object is [None], an update empties the model's
    trace list and layout, adds exactly one to the render count and leaves
    the columnar buffers as they were. *)
Theorem update_without_object (self : Plotly) (model : PlotlyPlot) :
  object self = None ->
  exists model',
    _update self model = Some model' /\
    data model' = [] /\
    layout model' = [] /\
    model_render_count model' = (model_render_count model + 1)%Z /\
    data_sources model' = data_sources model.
Proof.
  intros Hobj. unfold _update. rewrite Hobj.
  eexists. split; [reflexivity|].
  cbn. repeat split.
Qed.

Lemma update_without_object_witness :
  exists model',
    _update empty_pane xy_model = Some model' /\
    data model' = [] /\
    layout model' = [] /\
    model_render_count model' = (model_render_count xy_model + 1)%Z /\
    data_sources model' = data_sources xy_model.
Proof. apply (update_without_object empty_pane xy_model). reflexivity. Defined.

(** ** Event router *)

Section EventRouterFacts.
Variable normalize : Figure -> option (list nat) -> list nat.
Variable restyle : Figure -> list value -> Plotly * list push -> option (Plotly * list push).
Variable relayout : Figure -> dict -> Plotly * list push -> option (Plotly * list push).

(** C9: with no owned figure, the restyle and the relayout handler return
    normally and leave the pane and the pushed messages as they were. *)
Theorem handlers_ignore_missing_figure (st : Plotly * list push) :
  _figure (fst st) = None ->
  _update_figure_style restyle st = Some st /\
  _update_figure_layout relayout st = Some st.
Proof.
  intros Hfig. unfold _update_figure_style, _update_figure_layout.
  rewrite Hfig. split; reflexivity.
Qed.

(** C1, as the code has it: a mutation that carries a source view id is
    pushed to no view at all, whether or not the pane owns a figure; a
    mutation that carries none is pushed by a pane that owns a figure,
    with one and the same message, to every view. *)
Theorem send_update_msg_all_or_none (self : Plotly)
  (restyle_data relayout_data : dict) (trace_indexes : option (list nat))
  (source_view_id : option string) :
  (source_view_given source_view_id = true ->
   _send_update_msg normalize self restyle_data relayout_data trace_indexes
     source_view_id = Some []) /\
  (source_view_given source_view_id = false ->
   forall fig, _figure self = Some fig ->
   exists msg,
     _send_update_msg normalize self restyle_data relayout_data trace_indexes
       source_view_id = Some (map (fun rm => (fst rm, msg)) (_models self))).
Proof.
  unfold _send_update_msg. split; intros Hsid; rewrite Hsid.
  - reflexivity.
  - intros fig Hfig. rewrite Hfig. eexists. reflexivity.
Qed.

End EventRouterFacts.

Lemma handlers_ignore_missing_figure_witness :
  _update_figure_style (fun _ _ _ => None) (empty_pane, []) =
    Some (empty_pane, []) /\
  _update_figure_layout (fun _ _ _ => None) (empty_pane, []) =
    Some (empty_pane, []).
Proof.
  apply (handlers_ignore_missing_figure (fun _ _ _ => None)
           (fun _ _ _ => None) (empty_pane, [])).
  reflexivity.
Defined.

Lemma send_update_msg_all_or_none_witness :
  _send_update_msg all_traces two_view_pane [] [("title", VScalar (SStr "t"))]
    None (Some "view1") = Some [] /\
  _send_update_msg all_traces empty_pane [] [("title", VScalar (SStr "t"))]
    None (Some "view1") = Some [] /\
  exists msg,
    _send_update_msg all_traces two_view_pane [] [("title", VScalar (SStr "t"))]
      None None =
    Some (map (fun rm => (fst rm, msg)) (_models two_view_pane)).
Proof.
  split; [|split].
  - apply (send_update_msg_all_or_none all_traces two_view_pane [] _ None
             (Some "view1")).
    reflexivity.
  - apply (send_update_msg_all_or_none all_traces empty_pane [] _ None
             (Some "view1")).
    reflexivity.
  - apply (proj2 (send_update_msg_all_or_none all_traces two_view_pane [] _
                    None None) eq_refl empty_figure).
    reflexivity.
Defined.

(** A relayout that came from [view1] does not reach [view2] either. *)
Lemma other_view_not_reached :
  exists pushes,
    _send_relayout_msg all_traces two_view_pane [("title", VScalar (SStr "t"))]
      (Some "view1") = Some pushes /\
    In "view2" (map fst (_models two_view_pane)) /\
    "view2" <> "view1" /\
    ~ In "view2" (map fst pushes).
Proof.
  exists []. repeat split.
  - cbn. auto.
  - discriminate.
  - intros [].
Qed.

(** ** Datetime normalization *)

Lemma normalize_trace_get (trace : dict) (key : string) :
  dict_get key (normalize_trace trace) =
  match dict_get key trace with
  | Some v => Some (if isdatetime v then datetime_to_str v else v)
  | None => None
  end.
Proof.
  induction trace as [|[k v] r IH]; [reflexivity|].
  cbn [normalize_trace map fst snd]. fold (normalize_trace r).
  destruct (isdatetime v) eqn:E; cbn [dict_get];
    destruct (String.eqb k key); try (rewrite ?E; reflexivity); exact IH.
Qed.

Lemma datetime_to_str_typed (v : value) :
  isdatetime v = true -> string_typed (datetime_to_str v) = true.
Proof.
  destruct v as [s|a|l|d]; cbn; try discriminate.
  - intros _. induction (items a) as [|x r IH]; [reflexivity|].
    cbn. destruct x; exact IH.
  - induction l as [|x r IH]; [reflexivity|].
    cbn. destruct x as [[| | | |]| | |]; try discriminate. exact IH.
Qed.

(** C4, as the code has it: after the normalization pass every date/time
    valued array or list stored directly under a key of a trace is
    string-typed; every other value under a key of a trace, with all that
    is nested in it, and the layout are passed through as they are. *)
Theorem wrapper_stringifies_top_level (fig : Figure) (i : nat) (trace : dict)
  (key : string) (v : value) :
  nth_error (fig_data fig) i = Some trace ->
  dict_get key trace = Some v ->
  exists trace',
    nth_error (json_data (_plotly_json_wrapper fig)) i = Some trace' /\
    (isdatetime v = true ->
     dict_get key trace' = Some (datetime_to_str v) /\
     string_typed (datetime_to_str v) = true) /\
    (isdatetime v = false -> dict_get key trace' = Some v) /\
    json_layout (_plotly_json_wrapper fig) = fig_layout fig.
Proof.
  intros Hi Hk. exists (normalize_trace trace). split.
  { cbn. apply map_nth_error. exact Hi. }
  rewrite normalize_trace_get, Hk. split; [|split; [|reflexivity]].
  - intros Hd. rewrite Hd. split; [reflexivity|].
    apply datetime_to_str_typed. exact Hd.
  - intros Hd. rewrite Hd. reflexivity.
Qed.

Lemma wrapper_stringifies_top_level_witness :
  exists trace',
    nth_error (json_data (_plotly_json_wrapper dated_figure)) 0 = Some trace' /\
    (isdatetime (VList [new_year]) = true ->
     dict_get "x" trace' = Some (datetime_to_str (VList [new_year])) /\
     string_typed (datetime_to_str (VList [new_year])) = true) /\
    (isdatetime (VList [new_year]) = false ->
     dict_get "x" trace' = Some (VList [new_year])) /\
    json_layout (_plotly_json_wrapper dated_figure) = fig_layout dated_figure.
Proof.
  apply (wrapper_stringifies_top_level dated_figure 0
           [("x", VList [new_year]);
            ("marker", VDict [("color", VList [new_year])])]
           "x" (VList [new_year])); reflexivity.
Defined.

(** The date/time list nested under [marker] is still date/time valued
    after the pass. *)
Lemma nested_datetime_survives :
  exists trace' marker color,
    nth_error (json_data (_plotly_json_wrapper dated_figure)) 0 = Some trace' /\
    dict_get "marker" trace' = Some (VDict marker) /\
    dict_get "color" marker = Some color /\
    isdatetime color = true /\
    string_typed color = false.
Proof.
  do 3 eexists. repeat split; reflexivity.
Qed.

(** ** Lengths after an update *)

Lemma trace_loop_lengths (traces : list dict) :
  forall i sources traces' touched update_sources,
    trace_loop traces i sources = Some (traces', touched, update_sources) ->
    length traces' = length traces /\ length touched = length traces.
Proof.
  induction traces as [|t r IH]; intros i sources traces' touched us H.
  - inversion H. split; reflexivity.
  - cbn [trace_loop] in H.
    destruct (_update_data_sources _ t) as [[[t' c'] u]|]; [|discriminate].
    destruct (trace_loop r (S i) sources) as [[[ts cs] u']|] eqn:E;
      [|discriminate].
    inversion H; subst. apply IH in E. cbn. lia.
Qed.

(** What [_update] leaves in the model when the pane has an object. *)
Lemma update_with_object (self : Plotly) (obj : plot_object)
  (model model' : PlotlyPlot) :
  object self = Some obj ->
  _update self model = Some model' ->
  exists model1 u update_sources,
    update_changes self obj model = Some (model1, u, update_sources) /\
    model' =
      mk_model
        (match u_data u with Some d => d | None => data model end)
        (match u_layout u with Some l => l | None => layout model end)
        (match u_data_sources u with
         | Some s => s
         | None => data_sources model1
         end)
        (config model)
        (match u_sizing_mode u with
         | Some s => Some s
         | None => model_sizing_mode model
         end)
        (if updates_nonempty u || update_sources
         then model_render_count model + 1
         else model_render_count model)%Z /\
    data model1 = data model /\ layout model1 = layout model /\
    model_sizing_mode model1 = model_sizing_mode model.
Proof.
  intros Hobj H. unfold _update in H. rewrite Hobj in H.
  destruct (update_changes self obj model) as [[[model1 u] us]|] eqn:E;
    [|discriminate].
  exists model1, u, us. split; [reflexivity|].
  assert (Hm1 : data model1 = data model /\ layout model1 = layout model /\
                model_sizing_mode model1 = model_sizing_mode model /\
                config model1 = config model /\
                model_render_count model1 = model_render_count model).
  { unfold update_changes in E.
    destruct (trace_loop _ 0 (data_sources model)) as [[[ts cs] us']|];
      [|discriminate].
    destruct (sizing_update self _ _); [|discriminate].
    inversion E; subst. cbn. repeat split. }
  destruct Hm1 as (Hd & Hl & Hs & Hc & Hr).
  split; [|auto].
  inversion H; subst model'. clear H.
  unfold model_update, bump_render_count.
  destruct (updates_nonempty u) eqn:Hu; cbn [orb].
  - cbn. rewrite Hd, Hl, Hs, Hc, Hr. reflexivity.
  - assert (u_data u = None /\ u_layout u = None /\
            u_data_sources u = None /\ u_sizing_mode u = None) as (A & B & C & D).
    { unfold updates_nonempty in Hu.
      destruct (u_sizing_mode u), (u_data_sources u), (u_data u), (u_layout u);
        try discriminate; auto. }
    rewrite A, B, C, D.
    destruct us; destruct model1; cbn in *; subst; reflexivity.
Qed.

(** C2, as the code has it: after every update the model has at least as
    many columnar buffers as traces.  With an object, the traces are as
    many as the figure has, and the buffers as many as the larger of that
    number and the number of buffers before: the two agree exactly when the
    model had no more buffers than the figure has traces. *)
Theorem update_keeps_buffers_for_traces (self : Plotly)
  (model model' : PlotlyPlot) :
  _update self model = Some model' ->
  length (data model') <= length (data_sources model') /\
  (forall obj, object self = Some obj ->
     length (data model') = length (fig_data (_to_figure obj)) /\
     length (data_sources model') =
       Nat.max (length (data_sources model))
         (length (fig_data (_to_figure obj)))).
Proof.
  intros H. destruct (object self) as [obj|] eqn:Hobj.
  - assert (G : length (data model') = length (fig_data (_to_figure obj)) /\
                length (data_sources model') =
                Nat.max (length (data_sources model))
                  (length (fig_data (_to_figure obj)))).
    { destruct (update_with_object self obj model model' Hobj H)
        as (model1 & u & us & E & -> & Hd & _).
      cbn [data data_sources].
      unfold update_changes in E.
      destruct (trace_loop _ 0 (data_sources model)) as [[[ts cs] us']|] eqn:T;
        [|discriminate].
      destruct (sizing_update self _ _); [|discriminate].
      inversion E; subst model1 u us. clear E.
      cbn [u_data u_data_sources data data_sources] in *.
      apply trace_loop_lengths in T. destruct T as [Lt Lc].
      cbn [_plotly_json_wrapper to_plotly_json json_data] in Lt, Lc.
      rewrite length_map in Lt, Lc.
      set (n := length (data_sources model)) in *.
      set (k := length (fig_data (_to_figure obj))) in *.
      split.
      - destruct (Nat.eqb (length (data model)) (length ts)) eqn:Q.
        + apply Nat.eqb_eq in Q.
          destruct (traces_differ ts (data model)); lia.
        + exact Lt.
      - assert (L1 : length (firstn n cs ++ skipn (length cs) (data_sources model))
                     = n).
        { rewrite length_app, length_firstn, length_skipn. fold n. lia. }
        assert (L2 : length (skipn n cs) = k - n).
        { rewrite length_skipn. lia. }
        destruct (skipn n cs) as [|c0 cr] eqn:S.
        + cbn in L2. rewrite L1. lia.
        + rewrite length_app, L1, L2. lia. }
    split; [lia|].
    intros obj' Hobj'. inversion Hobj'; subst. exact G.
  - unfold _update in H. rewrite Hobj in H. inversion H; subst. cbn.
    split; [lia|]. intros obj Hobj'. discriminate.
Qed.

Lemma update_keeps_buffers_for_traces_witness :
  length (data one_trace_model) <= length (data_sources one_trace_model) /\
  (forall obj, object one_trace_pane = Some obj ->
     length (data one_trace_model) = length (fig_data (_to_figure obj)) /\
     length (data_sources one_trace_model) =
       Nat.max (length (data_sources two_trace_model))
         (length (fig_data (_to_figure obj)))).
Proof.
  apply (update_keeps_buffers_for_traces one_trace_pane two_trace_model
           one_trace_model).
  reflexivity.
Defined.

(** A figure with one trace rendered into a model that held two: one trace
    is left, and both buffers. *)
Lemma fewer_traces_keep_buffers :
  exists model',
    _update one_trace_pane two_trace_model = Some model' /\
    length (data model') = 1 /\
    length (data_sources model') = 2.
Proof. eexists. repeat split. Qed.

(** ** Sizing mode *)

(** On a re-render the sizing rule holds: with the pane at its default and
    the layout carrying an autosize flag, the model ends at [stretch_both]
    for a true flag and at [fixed] for a false one; with a sizing mode set
    by the caller the model's sizing mode is not touched. *)
Lemma update_sizing_rule (self : Plotly) (obj : plot_object)
  (model model' : PlotlyPlot) :
  object self = Some obj ->
  _update self model = Some model' ->
  (sizing_mode_is_default self = true ->
   forall autosize,
     dict_get "autosize" (fig_layout (_to_figure obj)) = Some autosize ->
     (truthy autosize = Some true ->
      model_sizing_mode model' = Some "stretch_both") /\
     (truthy autosize = Some false ->
      model_sizing_mode model' = Some "fixed")) /\
  (sizing_mode_is_default self = false ->
   model_sizing_mode model' = model_sizing_mode model).
Proof.
  intros Hobj H.
  destruct (update_with_object self obj model model' Hobj H)
    as (model1 & u & us & E & -> & _ & _ & Hs).
  cbn [model_sizing_mode].
  unfold update_changes in E.
  destruct (trace_loop _ 0 (data_sources model)) as [[[ts cs] us']|];
    [|discriminate].
  destruct (sizing_update self _ _) as [sizing|] eqn:S; [|discriminate].
  inversion E; subst model1 u us. clear E.
  cbn [u_sizing_mode]. cbn [_plotly_json_wrapper to_plotly_json json_layout] in S.
  unfold sizing_update, dict_mem, sizing_mode_ne in S.
  cbn [model_sizing_mode] in S.
  split.
  - intros Hdef autosize Ha. rewrite Hdef, Ha in S. cbn [andb] in S.
    split; intros Ht; rewrite Ht in S; inversion S; subst sizing; clear S;
      cbn [andb negb]; destruct (model_sizing_mode model) as [t|];
      cbn [negb]; try reflexivity.
    + destruct (String.eqb_spec t "stretch_both"); cbn [negb]; subst;
        reflexivity.
    + destruct (String.eqb_spec t "fixed"); cbn [negb]; subst; reflexivity.
  - intros Hdef. rewrite Hdef in S. cbn [andb] in S. inversion S.
    reflexivity.
Qed.

(** On the initial render only a true autosize flag is acted upon: with
    the pane at its default the parameters carry [stretch_both] for a true
    flag and no sizing mode for a false one; a sizing mode set by the
    caller is passed on as it is. *)
Lemma init_params_sizing_rule (self : Plotly) (obj : plot_object)
  (p : init_params) :
  object self = Some obj ->
  _init_params self = Some p ->
  (sizing_mode_is_default self = true ->
   forall autosize,
     dict_get "autosize" (fig_layout (_to_figure obj)) = Some autosize ->
     (truthy autosize = Some true -> p_sizing_mode p = Some "stretch_both") /\
     (truthy autosize = Some false -> p_sizing_mode p = None)) /\
  (sizing_mode_is_default self = false ->
   p_sizing_mode p = sizing_mode self).
Proof.
  intros Hobj H. unfold _init_params in H. rewrite Hobj in H.
  unfold _get_sources in H.
  cbn [_plotly_json_wrapper to_plotly_json json_data json_layout] in H.
  destruct (get_sources_loop _) as [[traces sources]|]; [|discriminate].
  cbn [json_layout json_data] in H.
  destruct (dict_get "autosize" (fig_layout (_to_figure obj))) as [a|] eqn:A.
  - destruct (truthy a) as [t|] eqn:T; [|discriminate].
    inversion H; subst p. clear H. cbn [p_sizing_mode]. split.
    + intros Hdef autosize E. inversion E; subst autosize.
      rewrite Hdef, T. split; intros E'; inversion E'; subst t; cbn [andb].
      * reflexivity.
      * unfold sizing_mode_is_default, sizing_mode_default in Hdef.
        destruct (sizing_mode self); [discriminate|reflexivity].
    + intros Hdef. rewrite Hdef, andb_false_r. reflexivity.
  - inversion H; subst p. clear H. cbn [p_sizing_mode andb]. split.
    + intros _ autosize E. discriminate.
    + reflexivity.
Qed.

(** C7, as the code has it: on a re-render with the pane at its default
    sizing mode, a true autosize flag in the layout forces [stretch_both]
    and a false one forces [fixed]; on the initial render a true flag
    forces [stretch_both] and a false one leaves the sizing mode unset; a
    sizing mode set by the caller is left untouched by either render. *)
Theorem sizing_mode_by_render (self : Plotly) (obj : plot_object)
  (model model' : PlotlyPlot) (p : init_params) :
  object self = Some obj ->
  _update self model = Some model' ->
  _init_params self = Some p ->
  (sizing_mode_is_default self = true ->
   forall autosize,
     dict_get "autosize" (fig_layout (_to_figure obj)) = Some autosize ->
     (truthy autosize = Some true ->
      model_sizing_mode model' = Some "stretch_both" /\
      p_sizing_mode p = Some "stretch_both") /\
     (truthy autosize = Some false ->
      model_sizing_mode model' = Some "fixed" /\
      p_sizing_mode p = None)) /\
  (sizing_mode_is_default self = false ->
   model_sizing_mode model' = model_sizing_mode model /\
   p_sizing_mode p = sizing_mode self).
Proof.
  intros Hobj Hup Hinit.
  destruct (update_sizing_rule self obj model model' Hobj Hup) as [U1 U2].
  destruct (init_params_sizing_rule self obj p Hobj Hinit) as [I1 I2].
  split.
  - intros Hdef autosize Ha.
    destruct (U1 Hdef autosize Ha) as [Ut Uf].
    destruct (I1 Hdef autosize Ha) as [It If].
    split; intros Ht; split; auto.
  - intros Hdef. split; auto.
Qed.

Lemma sizing_mode_by_render_witness :
  (sizing_mode_is_default autosize_off_pane = true ->
   forall autosize,
     dict_get "autosize"
       (fig_layout (_to_figure
          (ODict (TraceList []) [("autosize", VScalar (SBool false))]))) =
       Some autosize ->
     (truthy autosize = Some true ->
      model_sizing_mode (mk_model [] [("autosize", VScalar (SBool false))]
                           [] [] (Some "fixed") 1) = Some "stretch_both" /\
      p_sizing_mode (mk_params 0 [] []  []
                       [("autosize", VScalar (SBool false))] None) =
        Some "stretch_both") /\
     (truthy autosize = Some false ->
      model_sizing_mode (mk_model [] [("autosize", VScalar (SBool false))]
                           [] [] (Some "fixed") 1) = Some "fixed" /\
      p_sizing_mode (mk_params 0 [] [] []
                       [("autosize", VScalar (SBool false))] None) = None)) /\
  (sizing_mode_is_default autosize_off_pane = false ->
   model_sizing_mode (mk_model [] [("autosize", VScalar (SBool false))]
                        [] [] (Some "fixed") 1) =
     model_sizing_mode empty_model /\
   p_sizing_mode (mk_params 0 [] [] []
                    [("autosize", VScalar (SBool false))] None) =
     sizing_mode autosize_off_pane).
Proof.
  apply (sizing_mode_by_render autosize_off_pane
           (ODict (TraceList []) [("autosize", VScalar (SBool false))])
           empty_model); reflexivity.
Defined.

(** The initial render with the pane at its default sizing mode and a
    layout whose autosize flag is false passes no sizing mode at all, so
    the first model is not [fixed]; re-rendering the very same object then
    does force [fixed] and counts a render. *)
Lemma init_params_autosize_off_not_fixed :
  (exists p,
     _init_params autosize_off_pane = Some p /\ p_sizing_mode p = None) /\
  (exists model pane model',
     _get_model autosize_off_pane "view1" = Some (model, pane) /\
     model_sizing_mode model = None /\
     _update pane model = Some model' /\
     model_sizing_mode model' = Some "fixed" /\
     model_render_count model' = (model_render_count model + 1)%Z).
Proof.
  split.
  - eexists. split; reflexivity.
  - do 3 eexists. repeat split; reflexivity.
Qed.

(** ** Tab-visibility hook *)

Lemma enclosing_none (tabs_models : list widget) (model : widget) :
  (forall tabs, In tabs tabs_models ->
     select_one_id tabs (widget_id model) = false) ->
  enclosing tabs_models model = [].
Proof.
  unfold enclosing. induction tabs_models as [|t r IH]; intros H.
  - reflexivity.
  - cbn [filter]. rewrite (H t (or_introl eq_refl)).
    apply IH. intros t' Ht'. apply H. right. exact Ht'.
Qed.

(** With two containers to tell apart, the search for [parent_tab] raises
    at its first test. *)
Lemma find_parent_tab_raises (parent_tabs : list widget)
  (outer inner : widget) :
  In outer parent_tabs -> In inner parent_tabs ->
  widget_id outer <> widget_id inner ->
  find_parent_tab parent_tabs parent_tabs = None.
Proof.
  intros Ho Hi Hne.
  destruct parent_tabs as [|t r] eqn:E; [destruct Ho|]. rewrite <- E in *.
  assert (Hother : exists pt, In pt parent_tabs /\ widget_id pt <> widget_id t).
  { destruct (String.eqb_spec (widget_id outer) (widget_id t)) as [Eo|No].
    - exists inner. split; [exact Hi|]. congruence.
    - exists outer. split; [exact Ho|exact No]. }
  destruct Hother as (pt & Hpt & Hid).
  rewrite E at 2. cbn [find_parent_tab]. unfold contains_no_other.
  destruct (filter _ parent_tabs) as [|x l] eqn:F; [|reflexivity].
  exfalso.
  assert (Hin : In pt (filter (fun pt => negb (String.eqb (widget_id pt)
                                                 (widget_id t)))
                         parent_tabs)).
  { apply filter_In. split; [exact Hpt|].
    apply negb_true_iff. apply String.eqb_neq. exact Hid. }
  rewrite F in Hin. destruct Hin.
Qed.

(** C8, as the code has it, for the order in which the plot widgets are
    visited.  A plot with no enclosing tabbed container ends the loop: the
    plots that come after it are not processed, whatever they are.  A plot
    with two enclosing tabbed containers makes the search for the innermost
    one raise: nothing is bound for it, nor for the plots after it. *)
Theorem patch_returns_early_or_raises (tabs_models rest : list widget)
  (unenclosed nested outer inner : widget) (st : hook_state) :
  (forall tabs, In tabs tabs_models ->
     select_one_id tabs (widget_id unenclosed) = false) ->
  In outer tabs_models -> In inner tabs_models ->
  widget_id outer <> widget_id inner ->
  select_one_id outer (widget_id nested) = true ->
  select_one_id inner (widget_id nested) = true ->
  patch_models tabs_models (unenclosed :: rest) st = Some st /\
  patch_models tabs_models (nested :: rest) st = None.
Proof.
  intros Hnone Ho Hi Hne So Si. split.
  - cbn [patch_models]. rewrite (enclosing_none _ _ Hnone). reflexivity.
  - cbn [patch_models].
    rewrite (find_parent_tab_raises (enclosing tabs_models nested) outer inner).
    + reflexivity.
    + apply filter_In. split; assumption.
    + apply filter_In. split; assumption.
    + exact Hne.
Qed.

Lemma patch_returns_early_or_raises_witness :
  patch_models
    [WTabs "t" 0 [WPlot "p2" 0];
     WTabs "outer" 0 [WTabs "inner" 1 [WBox "b" []; WPlot "p" 5]];
     WTabs "inner" 1 [WBox "b" []; WPlot "p" 5]]
    [WPlot "p1" 0; WPlot "p2" 0] no_hooks = Some no_hooks /\
  patch_models
    [WTabs "t" 0 [WPlot "p2" 0];
     WTabs "outer" 0 [WTabs "inner" 1 [WBox "b" []; WPlot "p" 5]];
     WTabs "inner" 1 [WBox "b" []; WPlot "p" 5]]
    [WPlot "p" 5; WPlot "p2" 0] no_hooks = None.
Proof.
  apply (patch_returns_early_or_raises _ [WPlot "p2" 0] (WPlot "p1" 0)
           (WPlot "p" 5)
           (WTabs "outer" 0 [WTabs "inner" 1 [WBox "b" []; WPlot "p" 5]])
           (WTabs "inner" 1 [WBox "b" []; WPlot "p" 5]) no_hooks).
  - intros tabs [<-|[<-|[<-|[]]]]; reflexivity.
  - cbn. auto.
  - cbn. auto.
  - discriminate.
  - reflexivity.
  - reflexivity.
Defined.

(** Which plots are bound depends on the order of the visit: the plot
    inside the tabs is bound when it is visited before the plot outside,
    and a run that visits the references of [plot_then_tabs] in the order
    of the document binds nothing. *)
Lemma visiting_order_decides_binding :
  patch_models [WTabs "t" 0 [WPlot "p2" 0]] [WPlot "p2" 0; WPlot "p1" 0]
    no_hooks =
    Some (mk_hook_state [("t", [mk_callback code "p2" 0 0])] [("p2", true)]) /\
  patch_models [WTabs "t" 0 [WPlot "p2" 0]] [WPlot "p1" 0; WPlot "p2" 0]
    no_hooks = Some no_hooks /\
  _patch_tabs_plotly (fun l => l) plot_then_tabs no_hooks = Some no_hooks /\
  _patch_tabs_plotly (fun l => l) nested_tabs no_hooks = None.
Proof. repeat split. Qed.

(** ** Dictionaries *)

Section DictFacts.
Context {V : Type}.
Implicit Types (d : list (string * V)) (k : string) (v : V).

Lemma dict_get_set_eq k v d : dict_get k (dict_set k v d) = Some v.
Proof.
  induction d as [|[k0 w] r IH]; cbn.
  - rewrite String.eqb_refl. reflexivity.
  - destruct (String.eqb k0 k) eqn:E; cbn; rewrite E; auto.
Qed.

Lemma dict_get_set_ne k k' v d :
  k' <> k -> dict_get k' (dict_set k v d) = dict_get k' d.
Proof.
  intros Hne. induction d as [|[k0 w] r IH]; cbn.
  - apply String.eqb_neq in Hne. rewrite String.eqb_sym, Hne. reflexivity.
  - destruct (String.eqb_spec k0 k) as [->|Hk]; cbn.
    + apply String.eqb_neq in Hne. rewrite String.eqb_sym, Hne. reflexivity.
    + destruct (String.eqb k0 k'); auto.
Qed.

Lemma dict_get_none k d : dict_get k d = None <-> ~ In k (keys d).
Proof.
  induction d as [|[k0 w] r IH]; cbn.
  - tauto.
  - destruct (String.eqb_spec k0 k) as [->|Hk].
    + split; [discriminate|]. intros H. exfalso. apply H. auto.
    + rewrite IH. split; intros H; [intros [E|I]|]; tauto.
Qed.

Lemma dict_get_in k v d : dict_get k d = Some v -> In (k, v) d.
Proof.
  induction d as [|[k0 w] r IH]; cbn; [discriminate|].
  destruct (String.eqb_spec k0 k) as [->|Hk].
  - intros E. inversion E. auto.
  - auto.
Qed.

Lemma dict_get_nodup k v d :
  NoDup (keys d) -> In (k, v) d -> dict_get k d = Some v.
Proof.
  induction d as [|[k0 w] r IH]; cbn; [tauto|].
  intros Hnd [E|I].
  - inversion E; subst. rewrite String.eqb_refl. reflexivity.
  - inversion Hnd; subst.
    destruct (String.eqb_spec k0 k) as [->|Hk].
    + exfalso. apply H1. unfold keys. apply (in_map fst) in I. exact I.
    + auto.
Qed.

Lemma keys_dict_set k v d :
  forall k', In k' (keys (dict_set k v d)) <-> k' = k \/ In k' (keys d).
Proof.
  intros k'. induction d as [|[k0 w] r IH]; cbn.
  - intuition.
  - destruct (String.eqb_spec k0 k) as [->|Hk]; cbn.
    + intuition.
    + rewrite IH. intuition.
Qed.

Lemma nodup_dict_set k v d : NoDup (keys d) -> NoDup (keys (dict_set k v d)).
Proof.
  induction d as [|[k0 w] r IH]; cbn; intros Hnd.
  - constructor; [intros []|constructor].
  - inversion Hnd; subst.
    destruct (String.eqb_spec k0 k) as [->|Hk]; cbn.
    + constructor; assumption.
    + constructor; [|auto].
      intros I. apply keys_dict_set in I. destruct I as [->|I]; auto.
Qed.

End DictFacts.

(** ** What the extractor does to the buffer *)

(** A property of buffers kept by every write of an array is kept by the
    extractor. *)
Section ExtractionInvariant.
Variable I : buffer -> Prop.
Hypothesis I_set : forall k a data, I data -> I (dict_set k [VArray a] data).

Lemma sources_for_value_invariant (v : value) :
  forall data p kept data',
    sources_for_value v data p = Some (kept, data') -> I data -> I data'.
Proof.
  induction v as [s|a|l IH|d IH] using value_nested_ind;
    intros data p kept data' H HI.
  - inversion H; subst. exact HI.
  - inversion H; subst. apply I_set. exact HI.
  - rewrite sources_for_value_list in H.
    assert (G : forall l i data l' data',
               Forall (fun v => forall data p kept data',
                         sources_for_value v data p = Some (kept, data') ->
                         I data -> I data') l ->
               elements_loop l i data p = Some (l', data') ->
               I data -> I data').
    { clear. induction l as [|x r IHr]; intros i data l' data' HF H HI.
      - inversion H; subst. exact HI.
      - inversion HF as [|? ? Hx Hr]; subst.
        destruct x as [s|a|l0|d]; try discriminate.
        cbn [elements_loop] in H.
        destruct (_get_sources_for_trace d data (element_path p i))
          as [[d' data1]|] eqn:E; [|discriminate].
        destruct (elements_loop r (S i) data1 p) as [[r' data2]|] eqn:E2;
          [|discriminate].
        inversion H; subst.
        eapply IHr; [exact Hr|exact E2|].
        eapply (Hx data (element_path p i) (Some (VDict d'))).
        + rewrite sources_for_value_dict, E. reflexivity.
        + exact HI. }
    destruct l as [|[s|a|l0|d0] r]; try (inversion H; subst; exact HI).
    destruct (elements_loop _ 0 data p) as [[l' data1]|] eqn:E;
      [|discriminate].
    inversion H; subst. eapply G; eauto.
  - rewrite sources_for_value_dict in H.
    destruct (_get_sources_for_trace d data p) as [[d' data1]|] eqn:E;
      [|discriminate].
    inversion H; subst. clear H.
    revert data d' data' E HI.
    induction d as [|[k x] r IHr]; intros data d' data' E HI.
    + inversion E; subst. exact HI.
    + inversion IH as [|? ? Hx Hr]; subst.
      cbn [_get_sources_for_trace] in E.
      destruct (sources_for_value x data (join_path p k))
        as [[kept1 data1]|] eqn:E1; [|discriminate].
      destruct (_get_sources_for_trace r data1 p) as [[r' data2]|] eqn:E2;
        [|discriminate].
      inversion E; subst.
      eapply IHr; [exact Hr|exact E2|].
      eapply Hx; eauto.
Qed.

Lemma get_sources_for_trace_invariant (json : dict) data p json' data' :
  _get_sources_for_trace json data p = Some (json', data') ->
  I data -> I data'.
Proof.
  intros H. apply (sources_for_value_invariant (VDict json) data p
                     (Some (VDict json')) data').
  rewrite sources_for_value_dict, H. reflexivity.
Qed.

End ExtractionInvariant.

(** The keys of an extracted buffer are pairwise distinct and each column
    wraps one array. *)
Lemma extracted_buffer_ok (trace trace' : dict) (arrays : buffer) :
  _get_sources_for_trace trace [] "" = Some (trace', arrays) ->
  NoDup (keys arrays) /\ Forall column_ok arrays.
Proof.
  intros H.
  apply (get_sources_for_trace_invariant
           (fun b => NoDup (keys b) /\ Forall column_ok b)) in H; auto.
  - intros k a data [Hnd Hall]. split; [apply nodup_dict_set; exact Hnd|].
    clear Hnd. induction data as [|[k0 c] r IH]; cbn.
    + constructor; [exists a; reflexivity|constructor].
    + inversion Hall; subst.
      destruct (String.eqb k0 k); constructor; auto.
      exists a. reflexivity.
  - split; constructor.
Qed.

(** ** Rendering the same figure twice *)

Lemma update_columns_settled (trace_arrays cds : buffer) :
  Forall (settled cds) trace_arrays ->
  update_columns trace_arrays cds = Some (cds, false).
Proof.
  induction trace_arrays as [|[k col] r IH]; intros H; [reflexivity|].
  inversion H as [|? ? (new & rest & Hcol & Hsame) Hr]; subst.
  cbn [fst snd] in *. subst col. cbn [update_columns].
  rewrite Hsame. rewrite (IH Hr). reflexivity.
Qed.

Lemma update_columns_other_key (trace_arrays : buffer) :
  forall cds cds' flag k,
    update_columns trace_arrays cds = Some (cds', flag) ->
    ~ In k (keys trace_arrays) ->
    dict_get k cds' = dict_get k cds.
Proof.
  induction trace_arrays as [|[k0 col] r IH]; intros cds cds' flag k H Hk.
  - inversion H. reflexivity.
  - cbn [update_columns] in H. destruct col as [|new rest]; [discriminate|].
    destruct (update_columns r _) as [[cds2 u]|] eqn:E; [|discriminate].
    inversion H; subst. cbn in Hk.
    rewrite (IH _ _ _ k E); [|tauto].
    destruct (update_array (dict_get k0 cds) new); [|reflexivity].
    apply dict_get_set_ne. intros ->. tauto.
Qed.

Lemma update_columns_settles (trace_arrays : buffer) :
  forall cds cds' flag,
    update_columns trace_arrays cds = Some (cds', flag) ->
    NoDup (keys trace_arrays) ->
    forallb (fun kc => match snd kc with
                       | new :: _ => negb (update_array (Some [new]) new)
                       | [] => false
                       end) trace_arrays = true ->
    Forall (settled cds') trace_arrays.
Proof.
  induction trace_arrays as [|[k0 col] r IH]; intros cds cds' flag H Hnd Hself.
  - constructor.
  - cbn [update_columns] in H. destruct col as [|new rest]; [discriminate|].
    destruct (update_columns r _) as [[cds2 u]|] eqn:E; [|discriminate].
    inversion H; subst cds2 flag. clear H.
    cbn in Hnd. inversion Hnd; subst.
    cbn [forallb snd] in Hself. apply andb_true_iff in Hself.
    destruct Hself as [Hnew Hself]. apply negb_true_iff in Hnew.
    constructor.
    + exists new, rest. split; [reflexivity|]. cbn [fst].
      rewrite (update_columns_other_key _ _ _ _ k0 E); [|assumption].
      destruct (update_array (dict_get k0 cds) new) eqn:U.
      * rewrite dict_get_set_eq. exact Hnew.
      * exact U.
    + eapply IH; eauto.
Qed.

Lemma update_data_sources_again (cds cds' : ColumnDataSource)
  (trace trace' : dict) (flag : bool) :
  _update_data_sources cds trace = Some (trace', cds', flag) ->
  self_equal_trace trace = true ->
  _update_data_sources cds' trace = Some (trace', cds', false).
Proof.
  unfold _update_data_sources, self_equal_trace. intros H Hself.
  destruct (_get_sources_for_trace trace [] "") as [[t arrays]|] eqn:E;
    [|discriminate].
  destruct (update_columns arrays (cds_data cds)) as [[b u]|] eqn:U;
    [|discriminate].
  inversion H; subst. clear H. cbn [cds_data].
  apply andb_true_iff in Hself. destruct Hself as [_ Hself].
  destruct (extracted_buffer_ok _ _ _ E) as [Hnd _].
  rewrite (update_columns_settled arrays b); [reflexivity|].
  eapply update_columns_settles; eauto.
Qed.

Lemma trace_loop_again (traces : list dict) :
  forall i sources traces' touched flag sources1,
    trace_loop traces i sources = Some (traces', touched, flag) ->
    forallb self_equal_trace traces = true ->
    (forall j cds, nth_error touched j = Some cds ->
                   nth_error sources1 (i + j) = Some cds) ->
    trace_loop traces i sources1 = Some (traces', touched, false).
Proof.
  induction traces as [|t r IH];
    intros i sources traces' touched flag sources1 H Hself Hnth.
  - inversion H. reflexivity.
  - cbn [trace_loop] in H.
    destruct (_update_data_sources _ t) as [[[t' c'] u]|] eqn:E;
      [|discriminate].
    destruct (trace_loop r (S i) sources) as [[[ts cs] u']|] eqn:E';
      [|discriminate].
    inversion H; subst. clear H.
    cbn [forallb] in Hself. apply andb_true_iff in Hself.
    destruct Hself as [Ht Hr].
    cbn [trace_loop].
    pose proof (Hnth 0 c' eq_refl) as H0. rewrite Nat.add_0_r in H0.
    rewrite H0.
    rewrite (update_data_sources_again _ _ _ _ _ E Ht).
    rewrite (IH (S i) sources ts cs u' sources1 E' Hr); [reflexivity|].
    intros j cds Hj. replace (S i + j) with (i + S j) by lia.
    apply Hnth. exact Hj.
Qed.

Lemma trace_loop_strips (traces : list dict) :
  forall i sources traces' touched flag,
    trace_loop traces i sources = Some (traces', touched, flag) ->
    Forall2 (fun t t' => exists arrays,
               _get_sources_for_trace t [] "" = Some (t', arrays))
      traces traces'.
Proof.
  induction traces as [|t r IH]; intros i sources traces' touched flag H.
  - inversion H. constructor.
  - cbn [trace_loop] in H.
    destruct (_update_data_sources _ t) as [[[t' c'] u]|] eqn:E;
      [|discriminate].
    destruct (trace_loop r (S i) sources) as [[[ts cs] u']|] eqn:E';
      [|discriminate].
    inversion H; subst. constructor; [|eauto].
    unfold _update_data_sources in E.
    destruct (_get_sources_for_trace t [] "") as [[t0 arrays]|];
      [|discriminate].
    destruct (update_columns arrays _) as [[b u0]|]; [|discriminate].
    inversion E; subst. eauto.
Qed.

Lemma traces_differ_self (traces traces' : list dict) :
  Forall2 (fun t t' => exists arrays,
             _get_sources_for_trace t [] "" = Some (t', arrays))
    traces traces' ->
  forallb self_equal_trace traces = true ->
  traces_differ traces' traces' = false.
Proof.
  induction 1 as [|t t' r r' (arrays & E) _ IH]; intros Hself;
    [reflexivity|].
  cbn [forallb] in Hself. apply andb_true_iff in Hself.
  destruct Hself as [Ht Hr]. cbn [traces_differ].
  unfold self_equal_trace in Ht. rewrite E in Ht.
  apply andb_true_iff in Ht. destruct Ht as [Ht _].
  apply negb_true_iff in Ht. rewrite Ht. auto.
Qed.

Lemma sizing_update_again (self : Plotly) (model model2 : PlotlyPlot)
  (layout0 : dict) (sizing : option string) :
  sizing_update self model layout0 = Some sizing ->
  model_sizing_mode model2 =
    match sizing with Some s => Some s | None => model_sizing_mode model end ->
  sizing_update self model2 layout0 = Some None.
Proof.
  unfold sizing_update, sizing_mode_ne. intros H H2.
  destruct (sizing_mode_is_default self && dict_mem "autosize" layout0);
    [|reflexivity].
  destruct (match dict_get "autosize" layout0 with
            | Some autosize => truthy autosize
            | None => Some false
            end) as [[|]|]; [| |discriminate]; cbn [andb negb] in *.
  - destruct (model_sizing_mode model) as [t|] eqn:M.
    + destruct (String.eqb_spec t "stretch_both") as [->|Hne]; cbn [negb] in H;
        inversion H; subst sizing; rewrite H2; cbn; reflexivity.
    + inversion H; subst sizing. rewrite H2. reflexivity.
  - destruct (model_sizing_mode model) as [t|] eqn:M.
    + destruct (String.eqb_spec t "fixed") as [->|Hne]; cbn [negb] in H;
        inversion H; subst sizing; rewrite H2; cbn; reflexivity.
    + inversion H; subst sizing. rewrite H2. reflexivity.
Qed.

Lemma touched_then_rest {A : Type} (touched sources : list A) :
  (firstn (length sources) touched ++ skipn (length touched) sources)
    ++ skipn (length sources) touched
  = touched ++ skipn (length touched) sources.
Proof.
  destruct (Nat.le_gt_cases (length touched) (length sources)) as [Hle|Hgt].
  - rewrite firstn_all2 by exact Hle.
    rewrite (skipn_all2 touched) by exact Hle.
    rewrite app_nil_r. reflexivity.
  - rewrite (skipn_all2 sources) by lia.
    rewrite !app_nil_r. apply firstn_skipn.
Qed.


(** Two updates in a row: when the model has taken over every entry of
    the first update, the second update of a figure that is equal to
    itself finds nothing to do. *)
Lemma update_changes_again (self : Plotly) (obj : plot_object)
  (model m model1 : PlotlyPlot) (u : updates) (us : bool) :
  update_changes self obj model = Some (m, u, us) ->
  self_equal_figure (_plotly_json_wrapper (_to_figure obj)) = true ->
  data model1 = match u_data u with Some d => d | None => data model end ->
  layout model1 = match u_layout u with Some l => l | None => layout model end ->
  data_sources model1 =
    match u_data_sources u with Some s => s | None => data_sources m end ->
  model_sizing_mode model1 =
    match u_sizing_mode u with
    | Some s => Some s
    | None => model_sizing_mode model
    end ->
  update_changes self obj model1 =
    Some (model1, mk_updates None None None None, false).
Proof.
  intros E Hself Hd Hl Hds Hs.
  unfold self_equal_figure in Hself. apply andb_true_iff in Hself.
  destruct Hself as [Hlay Htr]. apply negb_true_iff in Hlay.
  unfold update_changes in *.
  remember (_plotly_json_wrapper (_to_figure obj)) as json eqn:J. clear J.
  destruct (trace_loop (json_data json) 0 (data_sources model))
    as [[[ts cs] us']|] eqn:T; [|discriminate].
  destruct (sizing_update self _ (json_layout json)) as [sizing|] eqn:S;
    [|discriminate].
  inversion E; subst m u us. clear E.
  cbn [u_data u_layout u_data_sources u_sizing_mode data layout data_sources
       model_sizing_mode] in *.
  set (ds0 := data_sources model) in *.
  assert (Hds1 : data_sources model1 = cs ++ skipn (length cs) ds0).
  { rewrite Hds, <- touched_then_rest.
    destruct (skipn (length ds0) cs); [rewrite app_nil_r|]; reflexivity. }
  destruct (trace_loop_lengths _ _ _ _ _ _ T) as [Lts Lcs].
  assert (T2 : trace_loop (json_data json) 0 (data_sources model1)
               = Some (ts, cs, false)).
  { eapply trace_loop_again; [exact T|exact Htr|].
    intros j c Hj. cbn [Nat.add]. rewrite Hds1, nth_error_app1; [exact Hj|].
    apply nth_error_Some. rewrite Hj. discriminate. }
  rewrite T2.
  assert (Hnew : skipn (length (data_sources model1)) cs = []).
  { apply skipn_all2. rewrite Hds1, length_app. lia. }
  assert (Hin : firstn (length (data_sources model1)) cs
                ++ skipn (length cs) (data_sources model1)
                = data_sources model1).
  { rewrite firstn_all2 by (rewrite Hds1, length_app; lia).
    rewrite Hds1 at 1. rewrite skipn_app, skipn_all, Nat.sub_diag.
    cbn [app skipn]. symmetry. exact Hds1. }
  rewrite Hnew, Hin.
  assert (Hlay2 : differs (VDict (layout model1)) (VDict (json_layout json))
                  = false).
  { rewrite Hl.
    destruct (differs (VDict (layout model)) (VDict (json_layout json)))
      eqn:D; [exact Hlay|exact D]. }
  rewrite Hlay2.
  assert (Hdata2 : (if Nat.eqb (length (data model1)) (length ts)
                    then traces_differ ts (data model1) else true) = false).
  { rewrite Hd.
    destruct (Nat.eqb (length (data model)) (length ts)) eqn:Q.
    - destruct (traces_differ ts (data model)) eqn:D.
      + rewrite Nat.eqb_refl.
        eapply traces_differ_self; [|exact Htr].
        eapply trace_loop_strips. exact T.
      + rewrite Q. exact D.
    - rewrite Nat.eqb_refl.
      eapply traces_differ_self; [|exact Htr].
      eapply trace_loop_strips. exact T. }
  rewrite Hdata2.
  erewrite sizing_update_again; [| exact S |].
  - destruct model1; reflexivity.
  - cbn [model_sizing_mode]. exact Hs.
Qed.

Lemma skipn_cons_nth {A : Type} (l : list A) :
  forall i x, nth_error l i = Some x -> skipn i l = x :: skipn (S i) l.
Proof.
  induction l as [|y r IH]; intros [|i] x H; cbn in *; try discriminate.
  - inversion H. reflexivity.
  - apply IH. exact H.
Qed.

Lemma extracted_columns_settled (trace trace' : dict) (arrays : buffer) :
  _get_sources_for_trace trace [] "" = Some (trace', arrays) ->
  self_equal_trace trace = true ->
  Forall (settled arrays) arrays.
Proof.
  intros E Hself. unfold self_equal_trace in Hself. rewrite E in Hself.
  apply andb_true_iff in Hself. destruct Hself as [_ Hself].
  destruct (extracted_buffer_ok _ _ _ E) as [Hnd Hcols].
  rewrite forallb_forall in Hself. rewrite Forall_forall in *.
  intros [k col] Hin. specialize (Hself _ Hin). specialize (Hcols _ Hin).
  destruct Hcols as [a Ha]. cbn [snd fst] in *. subst col.
  exists (VArray a), []. split; [reflexivity|]. cbn [fst].
  rewrite (dict_get_nodup k _ arrays Hnd Hin).
  apply negb_true_iff. exact Hself.
Qed.

Lemma get_sources_loop_strips (traces : list dict) :
  forall traces' sources,
    get_sources_loop traces = Some (traces', sources) ->
    Forall2 (fun t t' => exists arrays,
               _get_sources_for_trace t [] "" = Some (t', arrays))
      traces traces'.
Proof.
  induction traces as [|t r IH]; intros traces' sources H.
  - inversion H. constructor.
  - cbn [get_sources_loop] in H.
    destruct (_get_sources_for_trace t [] "") as [[t' data]|] eqn:E1;
      [|discriminate].
    destruct (get_sources_loop r) as [[r' s']|] eqn:E2; [|discriminate].
    inversion H; subst. constructor; eauto.
Qed.

Lemma trace_loop_recorded (traces : list dict) :
  forall traces' srcs i sources,
    get_sources_loop traces = Some (traces', srcs) ->
    forallb self_equal_trace traces = true ->
    (forall j src,
       nth_error srcs j = Some src ->
       exists cds,
         nth_error sources (i + j) = Some cds /\ holds_columns cds src) ->
    trace_loop traces i sources =
    Some (traces', firstn (length traces) (skipn i sources), false).
Proof.
  induction traces as [|t r IH]; intros traces' srcs i sources H Hself Hrec.
  - inversion H. reflexivity.
  - cbn [get_sources_loop] in H.
    destruct (_get_sources_for_trace t [] "") as [[t' arrays]|] eqn:E1;
      [|discriminate].
    destruct (get_sources_loop r) as [[r' s']|] eqn:E2; [|discriminate].
    inversion H; subst traces' srcs. clear H.
    cbn [forallb] in Hself. apply andb_true_iff in Hself.
    destruct Hself as [Ht Hr].
    destruct (Hrec 0 (mk_cds arrays) eq_refl) as (cds & Hcds & Hholds).
    rewrite Nat.add_0_r in Hcds.
    cbn [trace_loop]. rewrite Hcds.
    unfold _update_data_sources. rewrite E1.
    assert (S0 : Forall (settled (cds_data cds)) arrays).
    { pose proof (extracted_columns_settled _ _ _ E1 Ht) as Hs.
      destruct (extracted_buffer_ok _ _ _ E1) as [Hnd _].
      rewrite Forall_forall in *. intros [k col] Hin.
      destruct (Hs _ Hin) as (new & rest & Hcol & Hsame).
      exists new, rest. split; [exact Hcol|]. cbn [fst snd] in *.
      rewrite (Hholds k col (dict_get_nodup k col arrays Hnd Hin)).
      rewrite (dict_get_nodup k col arrays Hnd Hin) in Hsame. exact Hsame. }
    rewrite (update_columns_settled _ _ S0).
    rewrite (IH r' s' (S i) sources eq_refl Hr).
    + rewrite (skipn_cons_nth _ _ _ Hcds). cbn [length firstn].
      destruct cds; reflexivity.
    + intros j src Hj. replace (S i + j) with (i + S j) by lia.
      apply Hrec. exact Hj.
Qed.

Lemma recorded_sources_cover (traces : list dict) :
  forall traces' srcs i sources,
    get_sources_loop traces = Some (traces', srcs) ->
    (forall j src,
       nth_error srcs j = Some src ->
       exists cds,
         nth_error sources (i + j) = Some cds /\ holds_columns cds src) ->
    traces = [] \/ i + length traces <= length sources.
Proof.
  induction traces as [|t r IH]; intros traces' srcs i sources H Hrec.
  - left. reflexivity.
  - right. cbn [get_sources_loop] in H.
    destruct (_get_sources_for_trace t [] "") as [[t' arrays]|];
      [|discriminate].
    destruct (get_sources_loop r) as [[r' s']|] eqn:E2; [|discriminate].
    inversion H; subst traces' srcs. clear H.
    destruct (Hrec 0 (mk_cds arrays) eq_refl) as (cds & Hcds & _).
    rewrite Nat.add_0_r in Hcds.
    assert (N : nth_error sources i <> None) by (rewrite Hcds; discriminate).
    apply nth_error_Some in N.
    destruct (IH r' s' (S i) sources eq_refl) as [E|L].
    + intros j src Hj. replace (S i + j) with (i + S j) by lia.
      apply Hrec. exact Hj.
    + subst r. cbn [length]. lia.
    + cbn [length]. lia.
Qed.

Lemma sizing_update_settled (self : Plotly) (model : PlotlyPlot)
  (layout0 : dict) :
  sizing_settled self model layout0 ->
  sizing_update self model layout0 = Some None.
Proof.
  unfold sizing_settled, sizing_update, sizing_mode_ne, dict_mem. intros H.
  destruct (sizing_mode_is_default self); [|reflexivity].
  destruct (dict_get "autosize" layout0) as [autosize|]; [|reflexivity].
  destruct (H eq_refl autosize eq_refl) as (b & Hb & Hm).
  cbn [andb]. rewrite Hb, Hm. destruct b; reflexivity.
Qed.

(** C6, as the code has it: when the model holds what a render of the
    figure leaves on it (the stripped traces, the layout, the arrays in the
    buffers, the sizing mode that the layout forces) and the diff engine
    finds the figure equal to itself, a further render of that figure
    computes no update at all (no data, no layout, no sizing mode, no new
    buffers), changes no buffer, and leaves the model, render count
    included, as it was. *)
Theorem second_render_is_silent (self : Plotly) (obj : plot_object)
  (model : PlotlyPlot) :
  object self = Some obj ->
  self_equal_figure (_plotly_json_wrapper (_to_figure obj)) = true ->
  recorded (_plotly_json_wrapper (_to_figure obj)) model ->
  sizing_settled self model
    (json_layout (_plotly_json_wrapper (_to_figure obj))) ->
  update_changes self obj model =
    Some (model, mk_updates None None None None, false) /\
  _update self model = Some model.
Proof.
  intros Hobj Hself (json' & sources & G & Hd & Hl & Hrec) Hsize.
  assert (U : update_changes self obj model =
              Some (model, mk_updates None None None None, false)).
  { unfold update_changes.
    remember (_plotly_json_wrapper (_to_figure obj)) as json eqn:J. clear J.
    unfold self_equal_figure in Hself. apply andb_true_iff in Hself.
    destruct Hself as [Hlay Htr]. apply negb_true_iff in Hlay.
    unfold _get_sources in G.
    destruct (get_sources_loop (json_data json)) as [[ts ss]|] eqn:GL;
      [|discriminate].
    inversion G; subst json' sources. clear G. cbn [json_data] in Hd.
    rewrite (trace_loop_recorded _ _ _ 0 (data_sources model) GL Htr Hrec).
    cbn [skipn].
    assert (Hlen : length (json_data json) <= length (data_sources model)).
    { destruct (recorded_sources_cover _ _ _ 0 _ GL Hrec) as [E|L];
        [rewrite E; cbn; lia|exact L]. }
    rewrite length_firstn, (Nat.min_l _ _ Hlen).
    rewrite (firstn_all2 (n := length (data_sources model)))
      by (rewrite length_firstn; lia).
    rewrite firstn_skipn.
    rewrite (skipn_all2 (n := length (data_sources model)))
      by (rewrite length_firstn; lia).
    cbn [data layout data_sources model_sizing_mode].
    rewrite Hl, Hlay, Hd, Nat.eqb_refl.
    rewrite (traces_differ_self _ _ (get_sources_loop_strips _ _ _ GL) Htr).
    rewrite (sizing_update_settled self _ (json_layout json)).
    - rewrite <- Hd, <- Hl. destruct model; reflexivity.
    - intros Hdef autosize Ha.
      destruct (Hsize Hdef autosize Ha) as (b & Hb & Hm).
      exists b. split; [exact Hb|exact Hm]. }
  split; [exact U|].
  unfold _update. rewrite Hobj, U. reflexivity.
Qed.

Lemma second_render_is_silent_witness :
  update_changes stretched_pane
    (OTuple (OneTrace xy_trace) [("autosize", VScalar (SBool true))])
    stretched_model =
    Some (stretched_model, mk_updates None None None None, false) /\
  _update stretched_pane stretched_model = Some stretched_model.
Proof.
  apply (second_render_is_silent stretched_pane
           (OTuple (OneTrace xy_trace) [("autosize", VScalar (SBool true))])
           stretched_model).
  - reflexivity.
  - reflexivity.
  - exists (mk_json [[]] [("autosize", VScalar (SBool true))]).
    exists [mk_cds [("x", [VArray (int_array [1; 2; 3]%Z)]);
                    ("y", [VArray (int_array [4; 5; 6]%Z)])]].
    repeat split.
    intros [|[|i]] src E; try discriminate.
    inversion E. subst src. eexists. split; [reflexivity|].
    intros key col H. cbn [cds_data dict_get] in H |- *.
    destruct (String.eqb_spec "x" key) as [<-|Nx]; [cbn; exact H|].
    destruct (String.eqb_spec "y" key) as [<-|Ny]; [cbn; exact H|].
    discriminate.
  - intros _ autosize E. inversion E. subst autosize.
    exists true. split; reflexivity.
Defined.

(** A layout that holds an array of tick values cannot be compared: every
    render of the same figure hands the layout to [model.update] and counts
    a render. *)
Lemma array_in_layout_rerenders :
  exists model1 model2 u,
    _update ticks_pane empty_model = Some model1 /\
    update_changes ticks_pane
      (OTuple (TraceList [])
         [("xaxis", VDict [("tickvals", VArray (int_array [0; 5; 10]%Z))])])
      model1 = Some (model1, u, false) /\
    u_layout u <> None /\
    _update ticks_pane model1 = Some model2 /\
    model_render_count model2 = (model_render_count model1 + 1)%Z.
Proof.
  do 3 eexists. repeat split; try reflexivity. discriminate.
Qed.

(** An array with a NaN differs from itself: every render of the same
    figure rewrites the buffer column and counts a render. *)
Lemma nan_array_rerenders :
  exists model1 model2,
    _update nan_pane empty_model = Some model1 /\
    _update nan_pane model1 = Some model2 /\
    model_render_count model2 = (model_render_count model1 + 1)%Z.
Proof. do 2 eexists. repeat split; reflexivity. Qed.


(** ** What the extractor computes *)

Lemma write_all_app p l1 l2 data :
  write_all p (l1 ++ l2) data = write_all p l2 (write_all p l1 data).
Proof. unfold write_all. apply fold_left_app. Qed.

Lemma write_all_prefix p k l data :
  write_all p (map (prefix k) l) data = write_all (join_path p k) l data.
Proof.
  unfold write_all. revert data.
  induction l as [|e r IH]; intros data; [reflexivity|].
  cbn [map fold_left]. rewrite IH. reflexivity.
Qed.

Lemma join_path_nonempty p k : k <> "" -> join_path p k <> "".
Proof.
  intros Hk. unfold join_path. destruct (String.eqb_spec p ""); [exact Hk|].
  destruct p; [congruence|discriminate].
Qed.

Lemma element_path_join p i : p <> "" -> element_path p i = join_path p (str_of_nat i).
Proof.
  intros Hp. unfold element_path, join_path.
  apply String.eqb_neq in Hp. rewrite Hp. reflexivity.
Qed.

Lemma key_ok_nonempty k : key_ok k = true -> k <> "".
Proof.
  unfold key_ok. intros H. apply andb_true_iff in H. destruct H as [H _].
  apply negb_true_iff in H. apply String.eqb_neq. exact H.
Qed.

Lemma well_formed_dict d :
  well_formed (VDict d) = true ->
  distinct (keys d) = true /\ forallb key_ok (keys d) = true /\
  forallb (fun kv => well_formed (snd kv)) d = true.
Proof.
  cbn [well_formed]. intros H.
  apply andb_true_iff in H. destruct H as [H H3].
  apply andb_true_iff in H. destruct H as [H1 H2]. auto.
Qed.

Lemma entries_extract (d : dict) :
  Forall (fun kv => extracts_as_specified (snd kv)) d ->
  forall data p,
    forallb key_ok (keys d) = true ->
    forallb (fun kv => well_formed (snd kv)) d = true ->
    _get_sources_for_trace d data p =
    Some (kept_entries strip d, write_all p (entry_arrays arrays_of d) data).
Proof.
  induction 1 as [|[k x] r Hx _ IH]; intros data p Hk Hw; [reflexivity|].
  cbn [keys map fst forallb snd] in Hk, Hw.
  apply andb_true_iff in Hk. destruct Hk as [Hk Hkr].
  apply andb_true_iff in Hw. destruct Hw as [Hw Hwr].
  cbn [_get_sources_for_trace snd] in *.
  rewrite (Hx data (join_path p k) Hw
             (join_path_nonempty p k (key_ok_nonempty k Hk))).
  rewrite (IH _ p Hkr Hwr).
  cbn [entry_arrays kept_entries]. rewrite write_all_app, write_all_prefix.
  destruct x; reflexivity.
Qed.

Lemma element_path_nonempty p i : p <> "" -> element_path p i <> "".
Proof.
  intros Hp. unfold element_path. destruct p; [congruence|discriminate].
Qed.

Lemma elements_extract (l : list value) :
  Forall extracts_as_specified l ->
  forall i data p,
    p <> "" ->
    forallb (fun e => is_dict e && well_formed e) l = true ->
    elements_loop l i data p =
    Some (map strip l, write_all p (element_arrays arrays_of l i) data).
Proof.
  induction 1 as [|x r Hx _ IH]; intros i data p Hp Hw; [reflexivity|].
  cbn [forallb] in Hw. apply andb_true_iff in Hw. destruct Hw as [Hw Hwr].
  apply andb_true_iff in Hw. destruct Hw as [Hd Hw].
  destruct x as [s|a|l0|d]; try discriminate.
  cbn [elements_loop].
  pose proof (Hx data (element_path p i) Hw (element_path_nonempty p i Hp))
    as E.
  rewrite sources_for_value_dict in E.
  destruct (_get_sources_for_trace d data (element_path p i))
    as [[d' data1]|]; [|discriminate].
  inversion E; subst.
  rewrite (IH (S i) _ p Hp Hwr).
  cbn [map element_arrays strip]. rewrite write_all_app, write_all_prefix.
  rewrite element_path_join by exact Hp. reflexivity.
Qed.

Lemma sources_for_value_spec (v : value) : extracts_as_specified v.
Proof.
  induction v as [s|a|l IH|d IH] using value_nested_ind;
    intros data p Hw Hp.
  - reflexivity.
  - reflexivity.
  - rewrite sources_for_value_list.
    cbn [well_formed kept_value strip arrays_of] in *.
    destruct (list_of_mappings l) eqn:M.
    + rewrite (elements_extract l IH 0 data p Hp Hw).
      destruct l as [|[s|a|l0|d0] r]; try discriminate. reflexivity.
    + destruct l as [|[s|a|l0|d0] r]; try discriminate; reflexivity.
  - rewrite sources_for_value_dict.
    destruct (well_formed_dict d Hw) as (_ & Hk & Hws).
    rewrite (entries_extract d IH data p Hk Hws). reflexivity.
Qed.

(** The extractor on a well-formed trace: the trace is left without its
    arrays and each array is written under its dotted path. *)
Lemma get_sources_for_trace_spec (json : dict) (data : buffer) (p : string) :
  well_formed (VDict json) = true ->
  _get_sources_for_trace json data p =
  Some (kept_entries strip json,
        write_all p (entry_arrays arrays_of json) data).
Proof.
  intros Hw. destruct (well_formed_dict json Hw) as (_ & Hk & Hws).
  apply entries_extract; auto.
  apply Forall_forall. intros kv _. apply sources_for_value_spec.
Qed.

(** ** Paths into a trace *)

Lemma index_of_str_of_nat i : index_of (str_of_nat i) = Some i.
Proof.
  unfold index_of, str_of_nat. rewrite NilEmpty.usu, DecimalNat.Unsigned.of_to.
  rewrite String.eqb_refl. reflexivity.
Qed.

Lemma index_of_canonical k i : index_of k = Some i -> k = str_of_nat i.
Proof.
  unfold index_of. destruct (NilEmpty.uint_of_string k) as [d|]; [|discriminate].
  destruct (String.eqb_spec (str_of_nat (Nat.of_uint d)) k) as [E|];
    [|discriminate].
  intros H. inversion H; subst. reflexivity.
Qed.

Lemma str_of_nat_inj i j : str_of_nat i = str_of_nat j -> i = j.
Proof.
  intros E. pose proof (index_of_str_of_nat i) as Hi.
  rewrite E, index_of_str_of_nat in Hi. inversion Hi. reflexivity.
Qed.

Lemma distinct_nodup (l : list string) : distinct l = true -> NoDup l.
Proof.
  induction l as [|k r IH]; cbn; intros H; [constructor|].
  apply andb_true_iff in H. destruct H as [Hk Hr].
  constructor; [|auto].
  intros I. apply negb_true_iff in Hk.
  assert (E : existsb (String.eqb k) r = true).
  { apply existsb_exists. exists k. split; [exact I|apply String.eqb_refl]. }
  congruence.
Qed.

Lemma well_formed_child d k c :
  well_formed (VDict d) = true -> In (k, c) d -> well_formed c = true.
Proof.
  intros Hw I. destruct (well_formed_dict d Hw) as (_ & _ & Hws).
  rewrite forallb_forall in Hws. apply (Hws (k, c) I).
Qed.

Lemma well_formed_element l i e :
  well_formed (VList l) = true -> list_of_mappings l = true ->
  nth_error l i = Some e ->
  is_dict e = true /\ well_formed e = true.
Proof.
  cbn [well_formed]. intros Hw M Hi. rewrite M in Hw.
  rewrite forallb_forall in Hw.
  apply nth_error_In in Hi. apply Hw in Hi.
  apply andb_true_iff in Hi. exact Hi.
Qed.

Lemma dict_get_kept_some (f : value -> value) d k c :
  dict_get k d = Some c ->
  (forall a, c <> VArray a) ->
  dict_get k (kept_entries f d) = Some (f c).
Proof.
  induction d as [|[k0 x] r IH]; cbn [dict_get kept_entries];
    [discriminate|].
  intros H Hc. destruct (String.eqb k0 k) eqn:E.
  - inversion H; subst x.
    destruct c; try (cbn [dict_get]; rewrite E; reflexivity).
    exfalso. eapply Hc. reflexivity.
  - destruct x; cbn [dict_get]; rewrite ?E; auto.
Qed.

Lemma keys_kept_entries (f : value -> value) d k :
  In k (keys (kept_entries f d)) -> In k (keys d).
Proof.
  induction d as [|[k0 x] r IH]; cbn; [tauto|].
  destruct x; cbn; intuition.
Qed.

Lemma dict_get_kept_array (f : value -> value) d k a :
  NoDup (keys d) ->
  dict_get k d = Some (VArray a) ->
  dict_get k (kept_entries f d) = None.
Proof.
  induction d as [|[k0 x] r IH]; cbn [dict_get kept_entries keys map fst];
    [discriminate|].
  intros Hnd H. inversion Hnd; subst.
  destruct (String.eqb_spec k0 k) as [->|Hne].
  - inversion H; subst x. apply dict_get_none.
    intros I. apply keys_kept_entries in I. auto.
  - destruct x; cbn [dict_get]; try (apply IH; assumption);
      destruct (String.eqb_spec k0 k); try congruence; apply IH; assumption.
Qed.

Lemma strip_list_of_mappings l :
  list_of_mappings l = true -> list_of_mappings (map strip l) = true.
Proof. destruct l as [|[s|a|l0|d] r]; try discriminate. reflexivity. Qed.

Lemma restore_list_of_mappings l :
  list_of_mappings l = true -> list_of_mappings (map restore l) = true.
Proof. destruct l as [|[s|a|l0|d] r]; try discriminate. reflexivity. Qed.

(** After the extraction nothing is found where an array was. *)
Lemma descend_strip (path : list string) :
  forall v a,
    path <> [] -> well_formed v = true ->
    descend path v = Some (VArray a) ->
    descend path (strip v) = None.
Proof.
  induction path as [|k rest IH]; intros v a Hne Hw H; [congruence|].
  destruct v as [s|x|l|d]; try discriminate.
  - cbn [descend strip] in *.
    destruct (list_of_mappings l) eqn:M; [|discriminate].
    cbn [descend]. rewrite (strip_list_of_mappings l M).
    destruct (index_of k) as [i|]; [|reflexivity].
    destruct (nth_error l i) as [c|] eqn:Hi; [|discriminate].
    rewrite nth_error_map, Hi. cbn [option_map].
    destruct (well_formed_element l i c Hw M Hi) as [Hd Hwc].
    apply (IH c a); auto.
    intros ->. cbn in H. inversion H; subst. discriminate.
  - cbn [descend strip] in *.
    destruct (dict_get k d) as [c|] eqn:Hk; [|discriminate].
    destruct (well_formed_dict d Hw) as (Hnd & _ & _).
    apply distinct_nodup in Hnd.
    destruct rest as [|k' rest'].
    + cbn in H. inversion H; subst c.
      rewrite (dict_get_kept_array strip d k a Hnd Hk). reflexivity.
    + assert (Hc : forall a', c <> VArray a').
      { intros a' ->. discriminate. }
      rewrite (dict_get_kept_some strip d k c Hk Hc).
      apply (IH c a); [discriminate| |exact H].
      eapply well_formed_child; [exact Hw|]. apply dict_get_in. exact Hk.
Qed.

Lemma in_entry_arrays f d k c e :
  In (k, c) d -> In e (f c) -> In (prefix k e) (entry_arrays f d).
Proof.
  induction d as [|[k0 x] r IH]; cbn [In entry_arrays]; [tauto|].
  intros [E|I] He; apply in_or_app.
  - inversion E; subst. left. apply in_map. exact He.
  - right. auto.
Qed.

Lemma in_element_arrays f l :
  forall i0 i c e,
    nth_error l i = Some c -> In e (f c) ->
    In (prefix (str_of_nat (i0 + i)) e) (element_arrays f l i0).
Proof.
  induction l as [|x r IH]; intros i0 i c e Hi He.
  - destruct i; discriminate.
  - cbn [element_arrays]. apply in_or_app. destruct i as [|i].
    + left. cbn in Hi. inversion Hi; subst. rewrite Nat.add_0_r.
      apply in_map. exact He.
    + right. replace (i0 + S i) with (S i0 + i) by lia.
      eapply IH; eauto.
Qed.

(** An array reached along a path is one of the arrays the extractor
    pops, with that path. *)
Lemma descend_in_arrays (path : list string) :
  forall v a,
    descend path v = Some (VArray a) -> In (path, a) (arrays_of v).
Proof.
  induction path as [|k rest IH]; intros v a H.
  - cbn in H. inversion H; subst. left. reflexivity.
  - destruct v as [s|x|l|d]; try discriminate; cbn [descend arrays_of] in *.
    + destruct (list_of_mappings l); [|discriminate].
      destruct (index_of k) as [i|] eqn:Hk; [|discriminate].
      destruct (nth_error l i) as [c|] eqn:Hi; [|discriminate].
      apply index_of_canonical in Hk. subst k.
      apply (in_element_arrays arrays_of l 0 i c (rest, a) Hi).
      apply IH. exact H.
    + destruct (dict_get k d) as [c|] eqn:Hk; [|discriminate].
      apply (in_entry_arrays arrays_of d k c (rest, a)).
      * apply dict_get_in. exact Hk.
      * apply IH. exact H.
Qed.

(** ** Dotted paths *)

Lemma append_assoc (s t u : string) :
  ((s ++ t) ++ u = s ++ (t ++ u))%string.
Proof. induction s as [|c s IH]; cbn; [reflexivity|]. rewrite IH. reflexivity. Qed.

Lemma append_empty_r (s : string) : (s ++ "")%string = s.
Proof. induction s as [|c s IH]; cbn; [reflexivity|]. rewrite IH. reflexivity. Qed.

Lemma join_path_nonempty_l p k : p <> "" -> join_path p k <> "".
Proof.
  intros Hp. unfold join_path. destruct (String.eqb_spec p ""); [congruence|].
  destruct p; [congruence|discriminate].
Qed.

Lemma dotted_from_dots (path : list string) :
  forall p, p <> "" -> dotted_from p path = (p ++ dots path)%string.
Proof.
  unfold dotted_from.
  induction path as [|k rest IH]; intros p Hp; cbn [fold_left dots].
  - symmetry. apply append_empty_r.
  - rewrite IH by (apply join_path_nonempty_l; exact Hp).
    unfold join_path. apply String.eqb_neq in Hp. rewrite Hp.
    rewrite !append_assoc. reflexivity.
Qed.

Lemma split_dots_dot_free (s : string) :
  dot_free s = true -> split_dots s = [s].
Proof.
  induction s as [|c s IH]; cbn; [reflexivity|].
  intros H. apply andb_true_iff in H. destruct H as [Hc Hs].
  apply negb_true_iff in Hc. rewrite Hc, (IH Hs). reflexivity.
Qed.

Lemma split_dots_app (s t : string) :
  dot_free s = true -> split_dots (s ++ "." ++ t)%string = s :: split_dots t.
Proof.
  induction s as [|c s IH]; cbn; [reflexivity|].
  intros H. apply andb_true_iff in H. destruct H as [Hc Hs].
  apply negb_true_iff in Hc. rewrite Hc. cbn in IH. rewrite (IH Hs).
  reflexivity.
Qed.

Lemma key_ok_dot_free k : key_ok k = true -> dot_free k = true.
Proof.
  unfold key_ok. intros H. apply andb_true_iff in H. apply H.
Qed.

Lemma split_dots_dots (path : list string) :
  forall p,
    dot_free p = true -> forallb key_ok path = true ->
    split_dots (p ++ dots path)%string = p :: path.
Proof.
  induction path as [|k rest IH]; intros p Hp Hk; cbn [dots].
  - rewrite append_empty_r. apply split_dots_dot_free. exact Hp.
  - cbn [forallb] in Hk. apply andb_true_iff in Hk. destruct Hk as [Hk Hr].
    rewrite split_dots_app by exact Hp.
    rewrite (IH k (key_ok_dot_free k Hk) Hr). reflexivity.
Qed.

(** Splitting the dotted path of property names gives the names back. *)
Lemma split_dots_dotted (path : list string) :
  path <> [] -> forallb key_ok path = true ->
  split_dots (dotted path) = path.
Proof.
  destruct path as [|k rest]; [congruence|]. intros _ H.
  cbn [forallb] in H. apply andb_true_iff in H. destruct H as [Hk Hr].
  unfold dotted, dotted_from. cbn [fold_left]. unfold join_path at 2.
  cbn [String.eqb]. fold (dotted_from k rest).
  rewrite dotted_from_dots by (apply key_ok_nonempty; exact Hk).
  apply split_dots_dots; [apply key_ok_dot_free; exact Hk|exact Hr].
Qed.

Lemma dot_free_uint (d : Decimal.uint) :
  dot_free (NilEmpty.string_of_uint d) = true.
Proof. induction d; cbn; auto. Qed.

Lemma str_of_nat_ok (i : nat) : key_ok (str_of_nat i) = true.
Proof.
  unfold key_ok. apply andb_true_iff. split.
  - apply negb_true_iff. apply String.eqb_neq. intros E.
    pose proof (index_of_str_of_nat i) as H. rewrite E in H. discriminate.
  - apply dot_free_uint.
Qed.

(** ** The paths of the extracted arrays *)

Lemma in_entry_arrays_inv f d e :
  In e (entry_arrays f d) ->
  exists k c e', In (k, c) d /\ In e' (f c) /\ e = prefix k e'.
Proof.
  induction d as [|[k0 x] r IH]; cbn [entry_arrays]; [intros []|].
  intros I. apply in_app_or in I. destruct I as [I|I].
  - apply in_map_iff in I. destruct I as (e' & <- & He').
    exists k0, x, e'. cbn. auto.
  - destruct (IH I) as (k & c & e' & Hin & He' & ->).
    exists k, c, e'. cbn. auto.
Qed.

Lemma in_element_arrays_inv f l :
  forall i0 e,
    In e (element_arrays f l i0) ->
    exists i c e',
      nth_error l i = Some c /\ In e' (f c) /\
      e = prefix (str_of_nat (i0 + i)) e'.
Proof.
  induction l as [|x r IH]; intros i0 e; cbn [element_arrays]; [intros []|].
  intros I. apply in_app_or in I. destruct I as [I|I].
  - apply in_map_iff in I. destruct I as (e' & <- & He').
    exists 0, x, e'. rewrite Nat.add_0_r. cbn. auto.
  - destruct (IH _ _ I) as (i & c & e' & Hi & He' & ->).
    exists (S i), c, e'. replace (i0 + S i) with (S i0 + i) by lia.
    cbn. auto.
Qed.

Lemma arrays_of_paths_ok (v : value) :
  well_formed v = true ->
  forall e, In e (arrays_of v) -> forallb key_ok (fst e) = true.
Proof.
  induction v as [s|a|l IH|d IH] using value_nested_ind; intros Hw e He.
  - destruct He.
  - destruct He as [<-|[]]. reflexivity.
  - cbn [arrays_of well_formed] in *.
    destruct (list_of_mappings l); [|destruct He].
    apply in_element_arrays_inv in He.
    destruct He as (i & c & e' & Hi & He' & ->).
    cbn [prefix fst forallb]. rewrite str_of_nat_ok. cbn [andb].
    apply nth_error_In in Hi.
    rewrite Forall_forall in IH. apply (IH c Hi); [|exact He'].
    rewrite forallb_forall in Hw. apply Hw in Hi.
    apply andb_true_iff in Hi. apply Hi.
  - cbn [arrays_of] in *.
    apply in_entry_arrays_inv in He.
    destruct He as (k & c & e' & Hin & He' & ->).
    destruct (well_formed_dict d Hw) as (_ & Hk & Hws).
    cbn [prefix fst forallb].
    rewrite forallb_forall in Hk.
    rewrite (Hk k (in_map fst d (k, c) Hin)). cbn [andb].
    rewrite Forall_forall in IH. apply (IH (k, c) Hin); [|exact He'].
    rewrite forallb_forall in Hws. apply (Hws (k, c) Hin).
Qed.

Lemma entry_arrays_paths_nonempty f d e :
  In e (entry_arrays f d) -> fst e <> [].
Proof.
  intros I. apply in_entry_arrays_inv in I.
  destruct I as (k & c & e' & _ & _ & ->). discriminate.
Qed.

Lemma nodup_map_cons (k : string) (l : list (list string)) :
  NoDup l -> NoDup (map (cons k) l).
Proof.
  intros H. apply NoDup_map_NoDup_ForallPairs; [|exact H].
  intros x y _ _ E. inversion E. reflexivity.
Qed.

Lemma map_fst_prefix k (l : list (list string * ndarray)) :
  map fst (map (prefix k) l) = map (cons k) (map fst l).
Proof. rewrite !map_map. reflexivity. Qed.

Lemma entry_arrays_nodup (d : dict) :
  NoDup (keys d) ->
  Forall (fun kv => NoDup (map fst (arrays_of (snd kv)))) d ->
  NoDup (map fst (entry_arrays arrays_of d)).
Proof.
  induction d as [|[k x] r IH]; intros Hnd HF; [constructor|].
  cbn [keys map fst] in Hnd. inversion Hnd; subst.
  inversion HF; subst. cbn [snd] in *.
  cbn [entry_arrays]. rewrite map_app, map_fst_prefix.
  apply NoDup_app.
  - apply nodup_map_cons. assumption.
  - apply IH; assumption.
  - intros path I1 I2.
    apply in_map_iff in I1. destruct I1 as (tail & <- & _).
    apply in_map_iff in I2. destruct I2 as (e & E & I2).
    apply in_entry_arrays_inv in I2.
    destruct I2 as (k' & c & e' & Hin & _ & ->).
    cbn [prefix fst] in E. inversion E; subst k'.
    match goal with H : ~ In k _ |- _ => apply H end.
    apply (in_map fst) in Hin. exact Hin.
Qed.

Lemma element_arrays_nodup (l : list value) :
  Forall (fun e => NoDup (map fst (arrays_of e))) l ->
  forall i0, NoDup (map fst (element_arrays arrays_of l i0)).
Proof.
  induction 1 as [|x r Hx _ IH]; intros i0; [constructor|].
  cbn [element_arrays]. rewrite map_app, map_fst_prefix.
  apply NoDup_app.
  - apply nodup_map_cons. exact Hx.
  - apply IH.
  - intros path I1 I2.
    apply in_map_iff in I1. destruct I1 as (tail & <- & _).
    apply in_map_iff in I2. destruct I2 as (e & E & I2).
    apply in_element_arrays_inv in I2.
    destruct I2 as (i & c & e' & _ & _ & ->).
    cbn [prefix fst] in E. inversion E as [[E1 E2]].
    apply str_of_nat_inj in E1. lia.
Qed.

Lemma arrays_of_nodup (v : value) :
  well_formed v = true -> NoDup (map fst (arrays_of v)).
Proof.
  induction v as [s|a|l IH|d IH] using value_nested_ind; intros Hw.
  - constructor.
  - cbn. constructor; [intros []|constructor].
  - cbn [arrays_of well_formed] in *.
    destruct (list_of_mappings l); [|constructor].
    apply element_arrays_nodup.
    rewrite Forall_forall in *. intros e He. apply (IH e He).
    rewrite forallb_forall in Hw. apply Hw in He.
    apply andb_true_iff in He. apply He.
  - cbn [arrays_of].
    destruct (well_formed_dict d Hw) as (Hnd & _ & Hws).
    apply entry_arrays_nodup; [apply distinct_nodup; exact Hnd|].
    rewrite Forall_forall in *. intros kv Hkv. apply (IH kv Hkv).
    rewrite forallb_forall in Hws. apply (Hws kv Hkv).
Qed.

(** The dotted paths of the arrays of a well-formed trace are pairwise
    distinct. *)
Lemma dotted_paths_nodup (json : dict) :
  well_formed (VDict json) = true ->
  NoDup (map (fun e => dotted (fst e)) (entry_arrays arrays_of json)).
Proof.
  intros Hw. rewrite <- (map_map fst dotted).
  apply NoDup_map_NoDup_ForallPairs;
    [|apply (arrays_of_nodup (VDict json) Hw)].
  intros x y Hx Hy E.
  apply in_map_iff in Hx. destruct Hx as (ex & <- & Hx).
  apply in_map_iff in Hy. destruct Hy as (ey & <- & Hy).
  rewrite <- (split_dots_dotted (fst ex)), <- (split_dots_dotted (fst ey)).
  - rewrite E. reflexivity.
  - eapply entry_arrays_paths_nonempty. exact Hy.
  - apply (arrays_of_paths_ok (VDict json) Hw). exact Hy.
  - eapply entry_arrays_paths_nonempty. exact Hx.
  - apply (arrays_of_paths_ok (VDict json) Hw). exact Hx.
Qed.

(** ** The buffer of a well-formed trace *)

Lemma dict_set_fresh {V : Type} (k : string) (v : V) (d : list (string * V)) :
  ~ In k (keys d) -> dict_set k v d = d ++ [(k, v)].
Proof.
  induction d as [|[k0 w] r IH]; cbn; intros H; [reflexivity|].
  destruct (String.eqb_spec k0 k) as [->|Hne]; [tauto|].
  rewrite IH by tauto. reflexivity.
Qed.

Lemma write_all_fresh (arrays : list (list string * ndarray)) :
  forall data,
    NoDup (map (fun e => dotted (fst e)) arrays) ->
    (forall e, In e arrays -> ~ In (dotted (fst e)) (keys data)) ->
    write_all "" arrays data = data ++ columns_of arrays.
Proof.
  induction arrays as [|e r IH]; intros data Hnd Hfresh.
  - cbn. rewrite app_nil_r. reflexivity.
  - cbn [map] in Hnd. inversion Hnd; subst.
    change (write_all "" (e :: r) data)
      with (write_all "" r (dict_set (dotted (fst e)) [VArray (snd e)] data)).
    rewrite dict_set_fresh by (apply Hfresh; left; reflexivity).
    rewrite IH.
    + cbn [columns_of map]. rewrite <- app_assoc. reflexivity.
    + assumption.
    + intros e' He' I. unfold keys in I. rewrite map_app in I.
      apply in_app_or in I. destruct I as [I|[I|[]]].
      * apply (Hfresh e' (or_intror He')). exact I.
      * cbn in I. match goal with H : ~ In _ _ |- _ => apply H end.
        rewrite I. apply (in_map (fun e => dotted (fst e))). exact He'.
Qed.

(** The buffer extracted from a well-formed trace has one column per
    array, under the array's dotted path, in the order of the visit. *)
Lemma extracted_columns (json : dict) :
  well_formed (VDict json) = true ->
  _get_sources_for_trace json [] "" =
  Some (kept_entries strip json, columns_of (entry_arrays arrays_of json)).
Proof.
  intros Hw. rewrite (get_sources_for_trace_spec json [] "" Hw).
  rewrite write_all_fresh; [reflexivity|apply dotted_paths_nodup; exact Hw|].
  intros e _ [].
Qed.

Lemma columns_of_get (arrays : list (list string * ndarray)) path a :
  NoDup (map (fun e => dotted (fst e)) arrays) ->
  In (path, a) arrays ->
  dict_get (dotted path) (columns_of arrays) = Some [VArray a].
Proof.
  intros Hnd I. apply dict_get_nodup.
  - unfold keys, columns_of. rewrite map_map. exact Hnd.
  - unfold columns_of.
    apply (in_map (fun e => (dotted (fst e), [VArray (snd e)]))) in I.
    exact I.
Qed.

(** ** Merging the buffer back *)

Lemma merge_buffer_columns (arrays : list (list string * ndarray)) :
  forall trace,
    (forall e, In e arrays -> split_dots (dotted (fst e)) = fst e) ->
    merge_buffer (columns_of arrays) trace = merge_paths arrays trace.
Proof.
  induction arrays as [|e r IH]; intros trace H; [reflexivity|].
  cbn [columns_of map merge_buffer merge_paths].
  rewrite (H e (or_introl eq_refl)).
  destruct (set_at (fst e) (VArray (snd e)) trace); [|reflexivity].
  apply IH. intros e' He'. apply H. right. exact He'.
Qed.

Lemma merge_paths_app (l1 l2 : list (list string * ndarray)) :
  forall trace,
    merge_paths (l1 ++ l2) trace =
    match merge_paths l1 trace with
    | Some trace' => merge_paths l2 trace'
    | None => None
    end.
Proof.
  induction l1 as [|e r IH]; intros trace; [reflexivity|].
  cbn [app merge_paths].
  destruct (set_at (fst e) (VArray (snd e)) trace); [apply IH|reflexivity].
Qed.

Lemma dict_set_same {V : Type} (k : string) (v : V) (d : list (string * V)) :
  dict_get k d = Some v -> dict_set k v d = d.
Proof.
  induction d as [|[k0 w] r IH]; cbn; [discriminate|].
  destruct (String.eqb_spec k0 k) as [->|Hne].
  - intros E. inversion E. reflexivity.
  - intros E. rewrite (IH E). reflexivity.
Qed.

Lemma dict_set_set {V : Type} (k : string) (v w : V) (d : list (string * V)) :
  dict_set k w (dict_set k v d) = dict_set k w d.
Proof.
  induction d as [|[k0 x] r IH]; cbn.
  - rewrite String.eqb_refl. reflexivity.
  - destruct (String.eqb k0 k) eqn:E; cbn; rewrite E; [reflexivity|].
    rewrite IH. reflexivity.
Qed.

Lemma set_at_under (k : string) (path : list string) (x : value)
  (parent : value) :
  path <> [] ->
  set_at (k :: path) x parent =
  match get_prop k parent with
  | None => None
  | Some child =>
      match set_at path x child with
      | None => None
      | Some child' => set_prop k child' parent
      end
  end.
Proof. destruct path; [congruence|reflexivity]. Qed.

Lemma merge_paths_under_key (k : string)
  (arrays : list (list string * ndarray)) :
  forall c child child',
    (forall e, In e arrays -> fst e <> []) ->
    dict_get k c = Some child ->
    merge_paths arrays child = Some child' ->
    merge_paths (map (prefix k) arrays) (VDict c) =
    Some (VDict (dict_set k child' c)).
Proof.
  induction arrays as [|e r IH]; intros c child child' Hne Hk H.
  - cbn in *. inversion H; subst. rewrite (dict_set_same k child' c Hk).
    reflexivity.
  - cbn [map merge_paths prefix fst snd] in *.
    rewrite set_at_under by (apply Hne; left; reflexivity).
    cbn [get_prop]. rewrite Hk.
    destruct (set_at (fst e) (VArray (snd e)) child) as [child1|];
      [|discriminate].
    cbn [set_prop].
    rewrite (IH (dict_set k child1 c) child1 child').
    + rewrite dict_set_set. reflexivity.
    + intros e' He'. apply Hne. right. exact He'.
    + apply dict_get_set_eq.
    + exact H.
Qed.

Lemma list_set_same {A : Type} (l : list A) :
  forall i x, nth_error l i = Some x -> list_set i x l = l.
Proof.
  induction l as [|y r IH]; intros [|i] x H; cbn in *; try discriminate.
  - inversion H. reflexivity.
  - rewrite (IH i x H). reflexivity.
Qed.

Lemma list_set_set {A : Type} (l : list A) :
  forall i x y, list_set i y (list_set i x l) = list_set i y l.
Proof.
  induction l as [|z r IH]; intros [|i] x y; cbn; try reflexivity.
  rewrite IH. reflexivity.
Qed.


Lemma list_set_nth {A : Type} (l : list A) :
  forall i x, i < length l -> nth_error (list_set i x l) i = Some x.
Proof.
  induction l as [|z r IH]; intros [|i] x H; cbn in *; try lia.
  - reflexivity.
  - apply IH. lia.
Qed.

Lemma merge_paths_under_index (i : nat)
  (arrays : list (list string * ndarray)) :
  forall c child child',
    (forall e, In e arrays -> fst e <> []) ->
    nth_error c i = Some child ->
    merge_paths arrays child = Some child' ->
    merge_paths (map (prefix (str_of_nat i)) arrays) (VList c) =
    Some (VList (list_set i child' c)).
Proof.
  induction arrays as [|e r IH]; intros c child child' Hne Hi H.
  - cbn in *. inversion H; subst. rewrite (list_set_same c i child' Hi).
    reflexivity.
  - cbn [map merge_paths prefix fst snd] in *.
    rewrite set_at_under by (apply Hne; left; reflexivity).
    cbn [get_prop]. rewrite index_of_str_of_nat, Hi.
    destruct (set_at (fst e) (VArray (snd e)) child) as [child1|];
      [|discriminate].
    cbn [set_prop]. rewrite index_of_str_of_nat.
    assert (Hlt : i < length c).
    { apply nth_error_Some. rewrite Hi. discriminate. }
    apply Nat.ltb_lt in Hlt. rewrite Hlt. apply Nat.ltb_lt in Hlt.
    rewrite (IH (list_set i child1 c) child1 child').
    + rewrite list_set_set. reflexivity.
    + intros e' He'. apply Hne. right. exact He'.
    + apply list_set_nth. exact Hlt.
    + exact H.
Qed.

Lemma arrays_of_paths_nonempty (v : value) :
  (forall a, v <> VArray a) ->
  forall e, In e (arrays_of v) -> fst e <> [].
Proof.
  intros Hv e He. destruct v as [s|a|l|d]; cbn [arrays_of] in He.
  - destruct He.
  - exfalso. eapply Hv. reflexivity.
  - destruct (list_of_mappings l); [|destruct He].
    apply in_element_arrays_inv in He.
    destruct He as (i & c & e' & _ & _ & ->). discriminate.
  - eapply entry_arrays_paths_nonempty. exact He.
Qed.

Lemma dict_get_app_skip {V : Type} (k : string) (pre rest : list (string * V)) :
  ~ In k (keys pre) -> dict_get k (pre ++ rest) = dict_get k rest.
Proof.
  induction pre as [|[k0 w] r IH]; cbn; intros H; [reflexivity|].
  destruct (String.eqb_spec k0 k) as [->|Hne]; [tauto|].
  apply IH. tauto.
Qed.

Lemma dict_set_app_skip {V : Type} (k : string) (v w : V)
  (pre rest : list (string * V)) :
  ~ In k (keys pre) ->
  dict_set k v (pre ++ (k, w) :: rest) = pre ++ (k, v) :: rest.
Proof.
  induction pre as [|[k0 x] r IH]; cbn; intros H.
  - rewrite String.eqb_refl. reflexivity.
  - destruct (String.eqb_spec k0 k) as [->|Hne]; [tauto|].
    rewrite IH by tauto. reflexivity.
Qed.

Lemma list_set_app_skip {A : Type} (x y : A) (pre rest : list A) :
  list_set (length pre) y (pre ++ x :: rest) = pre ++ y :: rest.
Proof.
  induction pre as [|z r IH]; cbn; [reflexivity|].
  rewrite IH. reflexivity.
Qed.

Lemma merge_entries (d : dict) :
  Forall (fun kv => merges_back (snd kv)) d ->
  forallb (fun kv => well_formed (snd kv)) d = true ->
  NoDup (keys d) ->
  forall pre post,
    (forall k, In k (keys d) -> ~ In k (keys pre) /\ ~ In k (keys post)) ->
    merge_paths (entry_arrays arrays_of d)
      (VDict (pre ++ kept_entries strip d ++ post)) =
    Some (VDict (pre ++ kept_entries restore d ++ post ++ array_entries d)).
Proof.
  induction 1 as [|[k x] r Hx _ IH]; intros Hw Hnd pre post Hfresh.
  - cbn. rewrite app_nil_r. reflexivity.
  - cbn [forallb snd] in Hw. apply andb_true_iff in Hw.
    destruct Hw as [Hwx Hwr].
    cbn [keys map fst] in Hnd. inversion Hnd as [|? ? Hk Hndr]; subst.
    destruct (Hfresh k (or_introl eq_refl)) as [Hpre Hpost].
    assert (Hfresh' : forall pre' post' : dict,
               (forall k', In k' (keys pre') -> k' = k \/ In k' (keys pre)) ->
               (forall k', In k' (keys post') -> k' = k \/ In k' (keys post)) ->
               forall k', In k' (keys r) ->
                          ~ In k' (keys pre') /\ ~ In k' (keys post')).
    { intros pre' post' Hp Hq k' Hk'.
      destruct (Hfresh k' (or_intror Hk')) as [H1 H2].
      split; intros I; [apply Hp in I|apply Hq in I];
        destruct I as [->|I]; auto. }
    assert (Hnon : (forall a, x <> VArray a) ->
              merge_paths (entry_arrays arrays_of ((k, x) :: r))
                (VDict (pre ++ (k, strip x) :: kept_entries strip r ++ post)) =
              Some (VDict (pre ++ (k, restore x) :: kept_entries restore r
                             ++ post ++ array_entries r))).
    { intros Hxa. cbn [entry_arrays]. rewrite merge_paths_app.
      rewrite (merge_paths_under_key k (arrays_of x) _ (strip x) (restore x)).
      - rewrite dict_set_app_skip by exact Hpre.
        change (pre ++ (k, restore x) :: kept_entries strip r ++ post)
          with (pre ++ [(k, restore x)] ++ kept_entries strip r ++ post).
        rewrite app_assoc.
        rewrite (IH Hwr Hndr (pre ++ [(k, restore x)]) post).
        + rewrite <- app_assoc. reflexivity.
        + apply Hfresh'.
          * intros k' I. unfold keys in I. rewrite map_app in I.
            apply in_app_or in I. destruct I as [I|[I|[]]]; auto.
          * auto.
      - apply arrays_of_paths_nonempty. exact Hxa.
      - rewrite dict_get_app_skip by exact Hpre.
        cbn. rewrite String.eqb_refl. reflexivity.
      - apply Hx; assumption. }
    destruct x as [s|a|l|dx];
      try (cbn [kept_entries array_entries]; apply Hnon; discriminate).
    clear Hnon.
    cbn [entry_arrays arrays_of map prefix fst snd app kept_entries
         array_entries merge_paths set_at set_prop].
    rewrite dict_set_fresh.
    + rewrite <- !app_assoc.
      rewrite (IH Hwr Hndr pre (post ++ [(k, VArray a)])).
      * rewrite <- !app_assoc. reflexivity.
      * apply Hfresh'; [auto|].
        intros k' I. unfold keys in I. rewrite map_app in I.
        apply in_app_or in I. destruct I as [I|[I|[]]]; auto.
    + unfold keys. rewrite !map_app. intros I.
      apply in_app_or in I. destruct I as [I|I]; [tauto|].
      apply in_app_or in I. destruct I as [I|I]; [|tauto].
      apply keys_kept_entries in I. tauto.
Qed.

Lemma merge_elements (l : list value) :
  Forall merges_back l ->
  forallb (fun e => is_dict e && well_formed e) l = true ->
  forall pre,
    merge_paths (element_arrays arrays_of l (length pre))
      (VList (pre ++ map strip l)) =
    Some (VList (pre ++ map restore l)).
Proof.
  induction 1 as [|x r Hx _ IH]; intros Hw pre; [reflexivity|].
  cbn [forallb] in Hw. apply andb_true_iff in Hw. destruct Hw as [Hw Hwr].
  apply andb_true_iff in Hw. destruct Hw as [Hd Hwx].
  assert (Hxa : forall a, x <> VArray a).
  { intros a ->. discriminate. }
  cbn [element_arrays map]. rewrite merge_paths_app.
  rewrite (merge_paths_under_index (length pre) (arrays_of x) _
             (strip x) (restore x)).
  - rewrite list_set_app_skip.
    change (pre ++ restore x :: map strip r)
      with (pre ++ [restore x] ++ map strip r).
    rewrite app_assoc.
    replace (S (length pre)) with (length (pre ++ [restore x]))
      by (rewrite length_app; cbn; lia).
    rewrite (IH Hwr). rewrite <- app_assoc. reflexivity.
  - apply arrays_of_paths_nonempty. exact Hxa.
  - rewrite nth_error_app2 by lia. rewrite Nat.sub_diag. reflexivity.
  - apply Hx; assumption.
Qed.

Lemma merge_back (v : value) : merges_back v.
Proof.
  induction v as [s|a|l IH|d IH] using value_nested_ind; intros Hv Hw.
  - reflexivity.
  - exfalso. eapply Hv. reflexivity.
  - cbn [arrays_of strip restore well_formed] in *.
    destruct (list_of_mappings l); [|reflexivity].
    apply (merge_elements l IH Hw []).
  - cbn [arrays_of strip restore].
    destruct (well_formed_dict d Hw) as (Hnd & _ & Hws).
    pose proof (merge_entries d IH Hws (distinct_nodup _ Hnd) [] []) as M.
    cbn [app] in M. rewrite app_nil_r in M. apply M.
    intros k _. split; intros [].
Qed.

(** ** The merged trace has the content of the original *)

Lemma same_content_dict (d e : dict) :
  same_content (VDict d) (VDict e) =
  Nat.eqb (length d) (length e) &&
  forallb (fun kv => match dict_get (fst kv) e with
                     | Some y => same_content (snd kv) y
                     | None => false
                     end) d.
Proof.
  cbn [same_content]. f_equal.
  induction d as [|[k x] r IH]; [reflexivity|].
  cbn [forallb fst snd]. rewrite IH. reflexivity.
Qed.

Lemma kept_array_length (f : value -> value) (d : dict) :
  length (kept_entries f d ++ array_entries d) = length d.
Proof.
  rewrite length_app.
  induction d as [|[k x] r IH]; [reflexivity|].
  destruct x; cbn [kept_entries array_entries length]; lia.
Qed.

Lemma in_kept_entries (f : value -> value) (d : dict) kv :
  In kv (kept_entries f d) ->
  exists x, In (fst kv, x) d /\ snd kv = f x.
Proof.
  induction d as [|[k x] r IH]; cbn [kept_entries]; [intros []|].
  destruct x; cbn [In];
    try (intros [<-|I]; [eexists; split; [left; reflexivity|reflexivity]|
                         destruct (IH I) as (y & Hy & E); eauto]).
  intros I. destruct (IH I) as (y & Hy & E). exists y. auto.
Qed.

Lemma in_array_entries (d : dict) kv : In kv (array_entries d) -> In kv d.
Proof.
  induction d as [|[k x] r IH]; cbn [array_entries]; [intros []|].
  destruct x; cbn [In]; intuition.
Qed.

Lemma array_entries_are_arrays (d : dict) kv :
  In kv (array_entries d) -> exists a, snd kv = VArray a.
Proof.
  induction d as [|[k x] r IH]; cbn [array_entries]; [intros []|].
  destruct x; cbn [In]; try exact IH.
  intros [<-|I]; [eexists; reflexivity|exact (IH I)].
Qed.

Lemma same_content_cons (x y : value) (l m : list value) :
  same_content (VList (x :: l)) (VList (y :: m)) =
  same_content x y && same_content (VList l) (VList m).
Proof. reflexivity. Qed.

Lemma same_content_refl (v : value) :
  valid v = true -> same_content v v = true.
Proof.
  induction v as [s|a|l IH|d IH] using value_nested_ind; intros Hv.
  - cbn. destruct (scalar_eq_dec s s); congruence.
  - cbn. destruct (ndarray_eq_dec a a); congruence.
  - cbn [valid] in Hv. induction IH as [|x r Hx _ IHr]; [reflexivity|].
    cbn [forallb] in Hv. apply andb_true_iff in Hv. destruct Hv as [Hvx Hvr].
    rewrite same_content_cons. apply andb_true_iff. split; auto.
  - cbn [valid] in Hv. apply andb_true_iff in Hv. destruct Hv as [Hnd Hv].
    apply distinct_nodup in Hnd.
    rewrite same_content_dict, Nat.eqb_refl. cbn [andb].
    apply forallb_forall. intros [k x] Hkx. cbn [fst snd].
    rewrite (dict_get_nodup k x d Hnd Hkx).
    rewrite Forall_forall in IH. apply (IH (k, x) Hkx).
    rewrite forallb_forall in Hv. apply (Hv (k, x) Hkx).
Qed.

Lemma restore_same_content (v : value) :
  well_formed v = true -> same_content (restore v) v = true.
Proof.
  induction v as [s|a|l IH|d IH] using value_nested_ind; intros Hw.
  - cbn. destruct (scalar_eq_dec s s); congruence.
  - cbn. destruct (ndarray_eq_dec a a); congruence.
  - cbn [restore well_formed] in *.
    destruct (list_of_mappings l).
    + induction IH as [|x r Hx _ IHr]; [reflexivity|].
      cbn [forallb] in Hw. apply andb_true_iff in Hw. destruct Hw as [Hwx Hwr].
      apply andb_true_iff in Hwx. destruct Hwx as [_ Hwx].
      cbn [map]. rewrite same_content_cons.
      apply andb_true_iff. split; auto.
    + apply same_content_refl. exact Hw.
  - destruct (well_formed_dict d Hw) as (Hnd & _ & Hws).
    apply distinct_nodup in Hnd.
    cbn [restore]. rewrite same_content_dict, kept_array_length, Nat.eqb_refl.
    cbn [andb]. rewrite forallb_app. apply andb_true_iff.
    rewrite Forall_forall in IH. rewrite forallb_forall in Hws.
    split; apply forallb_forall; intros [k y] Hky; cbn [fst snd].
    + apply in_kept_entries in Hky. destruct Hky as (x & Hx & E).
      cbn [fst snd] in *. subst y.
      rewrite (dict_get_nodup k x d Hnd Hx).
      apply (IH (k, x) Hx). apply (Hws (k, x) Hx).
    + pose proof (array_entries_are_arrays d _ Hky) as (a & E).
      apply in_array_entries in Hky. cbn [snd] in E. subst y.
      rewrite (dict_get_nodup k _ d Hnd Hky).
      cbn. destruct (ndarray_eq_dec a a); congruence.
Qed.

(** ** Extraction round trip *)

(** C5: for a well-formed trace with an array at a path of property names
    and list indices (through nested mappings and lists of mappings), the
    extraction leaves nothing at that path, the buffer maps the dotted path
    to the one-element list that wraps the array, and merging the buffer
    back into the stripped trace gives the content of the original
    trace. *)
Theorem extraction_round_trip (trace : dict) (path : list string)
  (a : ndarray) :
  well_formed (VDict trace) = true ->
  descend path (VDict trace) = Some (VArray a) ->
  exists trace' columns merged,
    _get_sources_for_trace trace [] "" = Some (trace', columns) /\
    descend path (VDict trace') = None /\
    dict_get (dotted path) columns = Some [VArray a] /\
    merge_buffer columns (VDict trace') = Some merged /\
    same_content merged (VDict trace) = true.
Proof.
  intros Hw Hpath.
  exists (kept_entries strip trace),
         (columns_of (entry_arrays arrays_of trace)),
         (restore (VDict trace)).
  split; [apply extracted_columns; exact Hw|].
  split.
  { apply (descend_strip path (VDict trace) a); [|exact Hw|exact Hpath].
    intros ->. discriminate. }
  split.
  { apply columns_of_get; [apply dotted_paths_nodup; exact Hw|].
    apply (descend_in_arrays path (VDict trace) a Hpath). }
  split.
  { rewrite merge_buffer_columns.
    - apply (merge_back (VDict trace)); [discriminate|exact Hw].
    - intros e He. apply split_dots_dotted.
      + eapply entry_arrays_paths_nonempty. exact He.
      + apply (arrays_of_paths_ok (VDict trace) Hw). exact He. }
  apply restore_same_content. exact Hw.
Qed.

Lemma extraction_round_trip_witness :
  exists trace' columns merged,
    _get_sources_for_trace nested_trace [] "" = Some (trace', columns) /\
    descend ["dimensions"; "1"; "values"] (VDict trace') = None /\
    dict_get (dotted ["dimensions"; "1"; "values"]) columns =
      Some [VArray (int_array [3; 4]%Z)] /\
    merge_buffer columns (VDict trace') = Some merged /\
    same_content merged (VDict nested_trace) = true.
Proof.
  apply (extraction_round_trip nested_trace ["dimensions"; "1"; "values"]
           (int_array [3; 4]%Z)); reflexivity.
Defined.

(** With a dotted key the dotted path no longer names one array: the later
    write under [a.b] replaces the earlier one in the buffer. *)
Lemma dotted_key_collision :
  descend ["a.b"] (VDict colliding_trace) = Some (VArray (int_array [1]%Z)) /\
  exists trace' columns,
    _get_sources_for_trace colliding_trace [] "" = Some (trace', columns) /\
    dict_get (dotted ["a.b"]) columns = Some [VArray (int_array [2]%Z)] /\
    dict_get (dotted ["a.b"]) columns <> Some [VArray (int_array [1]%Z)].
Proof.
  split; [reflexivity|]. do 2 eexists. repeat split; try reflexivity.
  cbv. discriminate.
Qed.

(** The extraction and the merge, run on [nested_trace]. *)
Example nested_trace_round_trip :
  well_formed (VDict nested_trace) = true /\
  match _get_sources_for_trace nested_trace [] "" with
  | Some (trace', columns) =>
      trace' = [("type", VScalar (SStr "splom"));
                ("marker", VDict [("size", VScalar (SInt 4))]);
                ("dimensions", VList [VDict [("label", VScalar (SStr "a"))];
                                      VDict []])] /\
      keys columns = ["x"; "marker.color"; "dimensions.0.values";
                      "dimensions.1.values"] /\
      match merge_buffer columns (VDict trace') with
      | Some merged => same_content merged (VDict nested_trace) = true
                       /\ merged = restore (VDict nested_trace)
      | None => False
      end
  | None => False
  end.
Proof. vm_compute. repeat split. Qed.

(** * Further properties of the code *)

(** ** The extractor on any trace *)

Lemma entries_succeed (d : dict) :
  Forall (fun kv => forall data p,
            is_some (sources_for_value (snd kv) data p) = homogeneous (snd kv))
    d ->
  forall data p,
    is_some (_get_sources_for_trace d data p) =
    forallb (fun kv => homogeneous (snd kv)) d.
Proof.
  induction 1 as [|[k x] r Hx _ IH]; intros data p; [reflexivity|].
  cbn [_get_sources_for_trace forallb snd] in *.
  specialize (Hx data (join_path p k)).
  destruct (sources_for_value x data (join_path p k)) as [[kept data1]|];
    cbn [is_some] in Hx; rewrite <- Hx; [|reflexivity].
  specialize (IH data1 p).
  destruct (_get_sources_for_trace r data1 p) as [[r' data2]|];
    cbn [is_some andb] in *; exact IH.
Qed.

Lemma elements_succeed (l : list value) :
  Forall (fun e => forall data p,
            is_some (sources_for_value e data p) = homogeneous e) l ->
  forall i data p,
    is_some (elements_loop l i data p) =
    forallb (fun e => is_dict e && homogeneous e) l.
Proof.
  induction 1 as [|x r Hx _ IH]; intros i data p; [reflexivity|].
  destruct x as [s|a|l0|d]; try reflexivity.
  cbn [elements_loop forallb is_dict andb].
  specialize (Hx data (element_path p i)).
  rewrite sources_for_value_dict in Hx.
  destruct (_get_sources_for_trace d data (element_path p i))
    as [[d' data1]|]; cbn [is_some] in Hx; rewrite <- Hx; [|reflexivity].
  specialize (IH (S i) data1 p).
  destruct (elements_loop r (S i) data1 p) as [[r' data2]|];
    cbn [is_some andb] in *; exact IH.
Qed.

Lemma sources_for_value_succeeds (v : value) :
  forall data p, is_some (sources_for_value v data p) = homogeneous v.
Proof.
  induction v as [s|a|l IH|d IH] using value_nested_ind; intros data p.
  - reflexivity.
  - reflexivity.
  - rewrite sources_for_value_list. cbn [homogeneous].
    pose proof (elements_succeed l IH 0 data p) as E.
    destruct l as [|[s|a|l0|d0] r]; try reflexivity.
    cbn [list_of_mappings]. rewrite <- E.
    destruct (elements_loop _ 0 data p) as [[l' data1]|]; reflexivity.
  - rewrite sources_for_value_dict. cbn [homogeneous].
    rewrite <- (entries_succeed d IH data p).
    destruct (_get_sources_for_trace d data p) as [[d' data1]|]; reflexivity.
Qed.

(** X1: the extractor raises exactly on the traces in which some list it
    visits starts with a dictionary and also holds something that is not a
    dictionary; whatever the buffer and the parent path are. *)
Theorem extraction_raises_on_mixed_lists (json : dict) (data : buffer)
  (parent_path : string) :
  _get_sources_for_trace json data parent_path = None <->
  homogeneous (VDict json) = false.
Proof.
  pose proof (sources_for_value_succeeds (VDict json) data parent_path) as E.
  rewrite sources_for_value_dict in E.
  destruct (_get_sources_for_trace json data parent_path) as [[d' data1]|];
    cbn [is_some] in E; rewrite <- E; split; congruence.
Qed.

Lemma entries_extracted_again (d : dict) :
  Forall (fun kv => forall data p kept data',
            sources_for_value (snd kv) data p = Some (kept, data') ->
            forall v', kept = Some v' -> extracted_again v') d ->
  forall data p d' data',
    _get_sources_for_trace d data p = Some (d', data') ->
    forall data2 p2, _get_sources_for_trace d' data2 p2 = Some (d', data2).
Proof.
  induction 1 as [|[k x] r Hx _ IH]; intros data p d' data' H data2 p2.
  - inversion H. reflexivity.
  - cbn [_get_sources_for_trace snd] in *.
    destruct (sources_for_value x data (join_path p k))
      as [[kept data1]|] eqn:E1; [|discriminate].
    destruct (_get_sources_for_trace r data1 p) as [[r' data3]|] eqn:E2;
      [|discriminate].
    inversion H; subst. clear H.
    pose proof (IH _ _ _ _ E2) as IHr.
    destruct kept as [w|].
    + cbn [_get_sources_for_trace].
      rewrite (Hx _ _ _ _ E1 w eq_refl data2 (join_path p2 k)).
      rewrite IHr. reflexivity.
    + apply IHr.
Qed.

Lemma elements_extracted_again (l : list value) :
  Forall (fun e => forall data p kept data',
            sources_for_value e data p = Some (kept, data') ->
            forall v', kept = Some v' -> extracted_again v') l ->
  forall i data p l' data',
    elements_loop l i data p = Some (l', data') ->
    (forall i2 data2 p2, elements_loop l' i2 data2 p2 = Some (l', data2)) /\
    list_of_mappings l' = list_of_mappings l.
Proof.
  induction 1 as [|x r Hx _ IH]; intros i data p l' data' H.
  - inversion H. split; reflexivity.
  - destruct x as [s|a|l0|d]; try discriminate.
    cbn [elements_loop] in H.
    destruct (_get_sources_for_trace d data (element_path p i))
      as [[d' data1]|] eqn:E1; [|discriminate].
    destruct (elements_loop r (S i) data1 p) as [[r' data3]|] eqn:E2;
      [|discriminate].
    inversion H; subst. clear H.
    destruct (IH _ _ _ _ _ E2) as [IHr _].
    split; [|reflexivity].
    intros i2 data2 p2. cbn [elements_loop].
    assert (G : sources_for_value (VDict d) data (element_path p i)
                = Some (Some (VDict d'), data1)).
    { rewrite sources_for_value_dict, E1. reflexivity. }
    pose proof (Hx _ _ _ _ G (VDict d') eq_refl data2 (element_path p2 i2))
      as A.
    rewrite sources_for_value_dict in A.
    destruct (_get_sources_for_trace d' data2 (element_path p2 i2))
      as [[d2 data4]|]; [|discriminate].
    inversion A; subst. rewrite IHr. reflexivity.
Qed.

Lemma sources_for_value_again (v : value) :
  forall data p kept data',
    sources_for_value v data p = Some (kept, data') ->
    forall v', kept = Some v' -> extracted_again v'.
Proof.
  induction v as [s|a|l IH|d IH] using value_nested_ind;
    intros data p kept data' H v' Hk; subst kept.
  - inversion H; subst. intros data2 p2. reflexivity.
  - discriminate.
  - rewrite sources_for_value_list in H.
    destruct (list_of_mappings l) eqn:M.
    + destruct l as [|[s|a|l0|d0] r]; try discriminate.
      destruct (elements_loop _ 0 data p) as [[l' data1]|] eqn:E;
        [|discriminate].
      inversion H; subst. clear H.
      destruct (elements_extracted_again _ IH _ _ _ _ _ E) as [A M'].
      intros data2 p2. rewrite sources_for_value_list.
      destruct l' as [|[s|a|l0|d1] r']; try discriminate.
      rewrite (A 0 data2 p2). reflexivity.
    + assert (E : v' = VList l /\ data' = data).
      { destruct l as [|[s|a|l0|d0] r]; try discriminate;
          inversion H; auto. }
      destruct E as [-> ->]. intros data2 p2.
      rewrite sources_for_value_list.
      destruct l as [|[s|a|l0|d0] r]; try discriminate; reflexivity.
  - rewrite sources_for_value_dict in H.
    destruct (_get_sources_for_trace d data p) as [[d' data1]|] eqn:E;
      [|discriminate].
    inversion H; subst. clear H. intros data2 p2.
    rewrite sources_for_value_dict.
    rewrite (entries_extracted_again d IH _ _ _ _ E data2 p2). reflexivity.
Qed.

(** X2: the extraction is idempotent: run again on a trace it has
    stripped, under any parent path and into any buffer, it leaves the
    trace and the buffer as they are. *)
Theorem extraction_is_idempotent (json json' : dict) (data data' : buffer)
  (parent_path : string) :
  _get_sources_for_trace json data parent_path = Some (json', data') ->
  forall data2 p2, _get_sources_for_trace json' data2 p2 = Some (json', data2).
Proof.
  intros H data2 p2.
  assert (G : sources_for_value (VDict json) data parent_path
              = Some (Some (VDict json'), data')).
  { rewrite sources_for_value_dict, H. reflexivity. }
  pose proof (sources_for_value_again _ _ _ _ _ G (VDict json') eq_refl
                data2 p2) as A.
  rewrite sources_for_value_dict in A.
  destruct (_get_sources_for_trace json' data2 p2) as [[d2 data4]|];
    [|discriminate].
  inversion A; subst. reflexivity.
Qed.

Lemma extraction_is_idempotent_witness :
  _get_sources_for_trace
    [("type", VScalar (SStr "splom"));
     ("marker", VDict [("size", VScalar (SInt 4))]);
     ("dimensions", VList [VDict [("label", VScalar (SStr "a"))];
                           VDict []])]
    [("old", [VScalar SNone])] "frames.0" =
  Some ([("type", VScalar (SStr "splom"));
         ("marker", VDict [("size", VScalar (SInt 4))]);
         ("dimensions", VList [VDict [("label", VScalar (SStr "a"))];
                               VDict []])],
        [("old", [VScalar SNone])]).
Proof.
  apply (extraction_is_idempotent nested_trace _ []
           (columns_of (entry_arrays arrays_of nested_trace)) "").
  reflexivity.
Defined.

Lemma entries_no_array (d : dict) :
  Forall (fun kv => forall data p v' data',
            sources_for_value (snd kv) data p = Some (Some v', data') ->
            no_array_below v') d ->
  forall data p d' data',
    _get_sources_for_trace d data p = Some (d', data') ->
    forall k c, In (k, c) d' -> no_array_below c.
Proof.
  induction 1 as [|[k0 x] r Hx _ IH]; intros data p d' data' H k c Hin.
  - inversion H; subst. destruct Hin.
  - cbn [_get_sources_for_trace snd] in *.
    destruct (sources_for_value x data (join_path p k0))
      as [[kept data1]|] eqn:E1; [|discriminate].
    destruct (_get_sources_for_trace r data1 p) as [[r' data3]|] eqn:E2;
      [|discriminate].
    inversion H; subst. clear H.
    destruct kept as [w|].
    + destruct Hin as [E|Hin].
      * inversion E; subst. eapply Hx. exact E1.
      * eapply IH; eauto.
    + eapply IH; eauto.
Qed.

Lemma elements_no_array (l : list value) :
  Forall (fun e => forall data p v' data',
            sources_for_value e data p = Some (Some v', data') ->
            no_array_below v') l ->
  forall i data p l' data',
    elements_loop l i data p = Some (l', data') ->
    forall c, In c l' -> no_array_below c.
Proof.
  induction 1 as [|x r Hx _ IH]; intros i data p l' data' H c Hin.
  - inversion H; subst. destruct Hin.
  - destruct x as [s|a|l0|d]; try discriminate.
    cbn [elements_loop] in H.
    destruct (_get_sources_for_trace d data (element_path p i))
      as [[d' data1]|] eqn:E1; [|discriminate].
    destruct (elements_loop r (S i) data1 p) as [[r' data3]|] eqn:E2;
      [|discriminate].
    inversion H; subst. clear H.
    destruct Hin as [<-|Hin].
    + apply (Hx data (element_path p i) (VDict d') data1).
      rewrite sources_for_value_dict, E1. reflexivity.
    + eapply IH; eauto.
Qed.

Lemma sources_for_value_no_array (v : value) :
  forall data p v' data',
    sources_for_value v data p = Some (Some v', data') ->
    no_array_below v'.
Proof.
  induction v as [s|a|l IH|d IH] using value_nested_ind;
    intros data p v' data' H.
  - inversion H; subst. intros [|k rest] a; cbn; discriminate.
  - discriminate.
  - rewrite sources_for_value_list in H.
    destruct (list_of_mappings l) eqn:M.
    + destruct l as [|[s|a|l0|d0] r]; try discriminate.
      destruct (elements_loop _ 0 data p) as [[l' data1]|] eqn:E;
        [|discriminate].
      inversion H; subst. clear H.
      pose proof (elements_no_array _ IH _ _ _ _ _ E) as A.
      intros [|k rest] a; cbn [descend]; [discriminate|].
      destruct (list_of_mappings l'); [|discriminate].
      destruct (index_of k) as [i|]; [|discriminate].
      destruct (nth_error l' i) as [c|] eqn:Hi; [|discriminate].
      apply (A c). eapply nth_error_In. exact Hi.
    + assert (E : v' = VList l).
      { destruct l as [|[s|a|l0|d0] r]; try discriminate;
          inversion H; auto. }
      subst v'. intros [|k rest] a; cbn [descend]; [discriminate|].
      rewrite M. discriminate.
  - rewrite sources_for_value_dict in H.
    destruct (_get_sources_for_trace d data p) as [[d' data1]|] eqn:E;
      [|discriminate].
    inversion H; subst. clear H.
    pose proof (entries_no_array d IH _ _ _ _ E) as A.
    intros [|k rest] a; cbn [descend]; [discriminate|].
    destruct (dict_get k d') as [c|] eqn:Hk; [|discriminate].
    apply (A k c). apply dict_get_in. exact Hk.
Qed.

(** X3: after the extraction no path of keys and list indices, through
    nested mappings and lists of mappings, leads from the trace to an
    array: every array that the extractor can reach has been popped. *)
Theorem extraction_leaves_no_reachable_array (json json' : dict)
  (data data' : buffer) (parent_path : string) (path : list string)
  (a : ndarray) :
  _get_sources_for_trace json data parent_path = Some (json', data') ->
  descend path (VDict json') <> Some (VArray a).
Proof.
  intros H.
  apply (sources_for_value_no_array (VDict json) data parent_path
           (VDict json') data').
  rewrite sources_for_value_dict, H. reflexivity.
Qed.

Lemma extraction_leaves_no_reachable_array_witness :
  descend ["marker"; "color"]
    (VDict [("type", VScalar (SStr "splom"));
            ("marker", VDict [("size", VScalar (SInt 4))]);
            ("dimensions", VList [VDict [("label", VScalar (SStr "a"))];
                                  VDict []])])
  <> Some (VArray (int_array [7; 8; 9]%Z)).
Proof.
  apply (extraction_leaves_no_reachable_array nested_trace _ []
           (columns_of (entry_arrays arrays_of nested_trace)) "").
  reflexivity.
Defined.

(** X4: the extractor only adds to the buffer it is given: every key of
    the buffer is still a key afterwards, and every column afterwards is a
    column the buffer had under that key or wraps exactly one array. *)
Theorem extraction_only_adds_columns (json json' : dict)
  (data data' : buffer) (parent_path : string) :
  _get_sources_for_trace json data parent_path = Some (json', data') ->
  (forall k, In k (keys data) -> In k (keys data')) /\
  (forall k col, dict_get k data' = Some col ->
     dict_get k data = Some col \/ exists a, col = [VArray a]).
Proof.
  intros H.
  apply (get_sources_for_trace_invariant
           (fun b =>
              (forall k, In k (keys data) -> In k (keys b)) /\
              (forall k col, dict_get k b = Some col ->
                 dict_get k data = Some col \/ exists a, col = [VArray a])))
    in H; auto.
  intros k a b [Hkeys Hcols]. split.
  - intros k' Hk'. apply keys_dict_set. right. auto.
  - intros k' col Hget. destruct (String.eqb_spec k' k) as [->|Hne].
    + rewrite dict_get_set_eq in Hget. inversion Hget. right. eauto.
    + rewrite dict_get_set_ne in Hget by exact Hne. auto.
Qed.

Lemma extraction_only_adds_columns_witness :
  (forall k, In k (keys [("old", [VScalar SNone])]) ->
             In k (keys [("old", [VScalar SNone]);
                         ("x", [VArray (int_array [1; 2; 3]%Z)]);
                         ("y", [VArray (int_array [4; 5; 6]%Z)])])) /\
  (forall k col,
     dict_get k [("old", [VScalar SNone]);
                 ("x", [VArray (int_array [1; 2; 3]%Z)]);
                 ("y", [VArray (int_array [4; 5; 6]%Z)])] = Some col ->
     dict_get k [("old", [VScalar SNone])] = Some col \/
     exists a, col = [VArray a]).
Proof.
  apply (extraction_only_adds_columns xy_trace [] _ _ "").
  reflexivity.
Defined.

(** ** Where the columns of a buffer come from *)

Lemma arrays_of_descend (v : value) :
  well_formed v = true ->
  forall e, In e (arrays_of v) -> descend (fst e) v = Some (VArray (snd e)).
Proof.
  induction v as [s|a|l IH|d IH] using value_nested_ind; intros Hw e He.
  - destruct He.
  - destruct He as [<-|[]]. reflexivity.
  - cbn [arrays_of] in He. destruct (list_of_mappings l) eqn:M;
      [|destruct He].
    apply in_element_arrays_inv in He.
    destruct He as (i & c & e' & Hi & He' & ->).
    cbn [prefix fst snd descend Nat.add]. rewrite M, index_of_str_of_nat, Hi.
    destruct (well_formed_element l i c Hw M Hi) as [_ Hwc].
    rewrite Forall_forall in IH.
    apply (IH c (nth_error_In _ _ Hi) Hwc e' He').
  - cbn [arrays_of] in He. apply in_entry_arrays_inv in He.
    destruct He as (k & c & e' & Hin & He' & ->).
    destruct (well_formed_dict d Hw) as (Hnd & _ & _).
    cbn [prefix fst snd descend].
    rewrite (dict_get_nodup k c d (distinct_nodup _ Hnd) Hin).
    rewrite Forall_forall in IH.
    apply (IH (k, c) Hin (well_formed_child d k c Hw Hin) e' He').
Qed.

(** X5: every column of the buffer extracted from a well-formed trace
    comes from the trace: its key is the dotted form of a path of keys and
    list indices, and it wraps exactly the array found at that path. *)
Theorem buffer_columns_come_from_trace (trace trace' : dict)
  (columns : buffer) (key : string) (col : list value) :
  well_formed (VDict trace) = true ->
  _get_sources_for_trace trace [] "" = Some (trace', columns) ->
  dict_get key columns = Some col ->
  exists path a,
    key = dotted path /\ col = [VArray a] /\
    descend path (VDict trace) = Some (VArray a).
Proof.
  intros Hw H Hget. rewrite (extracted_columns trace Hw) in H.
  inversion H; subst. clear H.
  apply dict_get_in in Hget. unfold columns_of in Hget.
  apply in_map_iff in Hget. destruct Hget as ([path a] & E & Hin).
  inversion E; subst. exists path, a. repeat split.
  apply (arrays_of_descend (VDict trace) Hw (path, a) Hin).
Qed.

Lemma buffer_columns_come_from_trace_witness :
  exists path a,
    "marker.color" = dotted path /\
    [VArray (int_array [7; 8; 9]%Z)] = [VArray a] /\
    descend path (VDict nested_trace) = Some (VArray a).
Proof.
  apply (buffer_columns_come_from_trace nested_trace
           (kept_entries strip nested_trace)
           (columns_of (entry_arrays arrays_of nested_trace))
           "marker.color" [VArray (int_array [7; 8; 9]%Z)]); reflexivity.
Defined.

(** ** One source per trace *)

Lemma get_sources_loop_nth (traces : list dict) :
  forall traces' sources,
    get_sources_loop traces = Some (traces', sources) ->
    length traces' = length traces /\ length sources = length traces /\
    forall i trace,
      nth_error traces i = Some trace ->
      exists trace' cds,
        nth_error traces' i = Some trace' /\
        nth_error sources i = Some cds /\
        _get_sources_for_trace trace [] "" = Some (trace', cds_data cds).
Proof.
  induction traces as [|t r IH]; intros traces' sources H.
  - inversion H; subst. repeat split. intros [|i] trace E; discriminate.
  - cbn [get_sources_loop] in H.
    destruct (_get_sources_for_trace t [] "") as [[t' data]|] eqn:E1;
      [|discriminate].
    destruct (get_sources_loop r) as [[r' s']|] eqn:E2; [|discriminate].
    inversion H; subst. clear H.
    destruct (IH r' s' eq_refl) as (L1 & L2 & Hn).
    cbn [length]. repeat split; try lia.
    intros [|i] trace E.
    + inversion E; subst. exists t', (mk_cds data). repeat split. exact E1.
    + apply (Hn i trace E).
Qed.

Lemma get_sources_lengths (json json' : figure_json)
  (sources : list ColumnDataSource) :
  _get_sources json = Some (json', sources) ->
  length sources = length (json_data json) /\
  length (json_data json') = length (json_data json).
Proof.
  unfold _get_sources. intros H.
  destruct (get_sources_loop (json_data json)) as [[ts ss]|] eqn:E;
    [|discriminate].
  inversion H; subst. clear H. cbn [json_data].
  destruct (get_sources_loop_nth _ _ _ E) as (L1 & L2 & _).
  split; assumption.
Qed.

(** X6: [_get_sources] makes one source per trace, in order, and leaves
    the layout alone; the source of a trace holds what the extractor takes
    out of that trace alone, starting from an empty buffer. *)
Theorem get_sources_one_per_trace (json json' : figure_json)
  (sources : list ColumnDataSource) :
  _get_sources json = Some (json', sources) ->
  length sources = length (json_data json) /\
  length (json_data json') = length (json_data json) /\
  json_layout json' = json_layout json /\
  forall i trace,
    nth_error (json_data json) i = Some trace ->
    exists trace' cds,
      nth_error (json_data json') i = Some trace' /\
      nth_error sources i = Some cds /\
      _get_sources_for_trace trace [] "" = Some (trace', cds_data cds).
Proof.
  unfold _get_sources. intros H.
  destruct (get_sources_loop (json_data json)) as [[ts ss]|] eqn:E;
    [|discriminate].
  inversion H; subst. clear H. cbn [json_data json_layout].
  destruct (get_sources_loop_nth _ _ _ E) as (L1 & L2 & Hn).
  repeat split; auto.
Qed.

Lemma get_sources_one_per_trace_witness :
  length [mk_cds [("x", [VArray (int_array [1; 2; 3]%Z)]);
                  ("y", [VArray (int_array [4; 5; 6]%Z)])]] =
    length (json_data (mk_json [xy_trace] [])) /\
  length (json_data (mk_json [[]] [])) =
    length (json_data (mk_json [xy_trace] [])) /\
  json_layout (mk_json [[]] []) = json_layout (mk_json [xy_trace] []) /\
  forall i trace,
    nth_error (json_data (mk_json [xy_trace] [])) i = Some trace ->
    exists trace' cds,
      nth_error (json_data (mk_json [[]] [])) i = Some trace' /\
      nth_error [mk_cds [("x", [VArray (int_array [1; 2; 3]%Z)]);
                         ("y", [VArray (int_array [4; 5; 6]%Z)])]] i =
        Some cds /\
      _get_sources_for_trace trace [] "" = Some (trace', cds_data cds).
Proof.
  apply (get_sources_one_per_trace (mk_json [xy_trace] [])). reflexivity.
Defined.

(** X7: the initial render starts with as many buffers as traces, and
    with the pane's render count; with no object it starts empty. *)
Theorem initial_model_pairs_traces_and_buffers (self self' : Plotly)
  (ref : string) (model : PlotlyPlot) :
  _get_model self ref = Some (model, self') ->
  length (data model) = length (data_sources model) /\
  model_render_count model = _render_count self /\
  (object self = None ->
   data model = [] /\ data_sources model = [] /\ layout model = []).
Proof.
  unfold _get_model, _init_params. intros H.
  destruct (object self) as [obj|] eqn:Hobj.
  - destruct (_get_sources _) as [[json sources]|] eqn:E; [|discriminate].
    destruct (match dict_get "autosize" (json_layout json) with
              | Some autosize => truthy autosize
              | None => Some false
              end) as [a|]; [|discriminate].
    inversion H; subst. clear H.
    cbn [model_of_params data data_sources model_render_count p_data
         p_data_sources p_render_count].
    destruct (get_sources_lengths _ _ _ E) as (L1 & L2).
    repeat split; [lia|discriminate|discriminate|discriminate].
  - cbn in H. inversion H; subst. cbn. repeat split.
Qed.

Lemma initial_model_pairs_traces_and_buffers_witness :
  length (data xy_model_initial) = length (data_sources xy_model_initial) /\
  model_render_count xy_model_initial = _render_count xy_pane /\
  (object xy_pane = None ->
   data xy_model_initial = [] /\ data_sources xy_model_initial = [] /\
   layout xy_model_initial = []).
Proof.
  apply (initial_model_pairs_traces_and_buffers xy_pane
           (mk_pane (object xy_pane) None None 0 None None None None
              [("view1", xy_model_initial)]) "view1").
  reflexivity.
Defined.

(** ** The normalization pass *)

Lemma datetime_to_str_settled (v : value) :
  isdatetime v = true ->
  isdatetime (datetime_to_str v) = true -> datetime_to_str v = VList [].
Proof.
  destruct v as [s|a|l|d]; cbn [isdatetime datetime_to_str]; try discriminate.
  destruct l as [|x r]; [reflexivity|].
  cbn [forallb map]. destruct x as [[| | | |]| | |]; discriminate.
Qed.

Lemma normalize_value_again (v : value) :
  let v' := if isdatetime v then datetime_to_str v else v in
  (if isdatetime v' then datetime_to_str v' else v') = v'.
Proof.
  cbn zeta. destruct (isdatetime v) eqn:D.
  - destruct (isdatetime (datetime_to_str v)) eqn:D'; [|reflexivity].
    rewrite (datetime_to_str_settled v D D'). reflexivity.
  - rewrite D. reflexivity.
Qed.

Lemma normalize_trace_again (trace : dict) :
  normalize_trace (normalize_trace trace) = normalize_trace trace.
Proof.
  unfold normalize_trace. rewrite map_map. apply map_ext.
  intros [k v]. cbn [fst snd].
  pose proof (normalize_value_again v) as E. cbn zeta in E.
  destruct (isdatetime v) eqn:D; cbn [fst snd].
  - destruct (isdatetime (datetime_to_str v)); cbn [fst snd]; congruence.
  - rewrite D. reflexivity.
Qed.

(** X8: the normalization pass is idempotent: a figure whose traces and
    layout are those of a normalized figure is normalized to itself. *)
Theorem wrapper_is_idempotent (fig : Figure) :
  let json := _plotly_json_wrapper fig in
  _plotly_json_wrapper (mk_figure (json_data json) (json_layout json)) = json.
Proof.
  cbn zeta. unfold _plotly_json_wrapper, to_plotly_json.
  cbn [json_data json_layout fig_data fig_layout].
  rewrite map_map. f_equal. apply map_ext. intros trace.
  apply normalize_trace_again.
Qed.

(** X9: the normalization pass keeps the traces, their keys and the order
    of both, and leaves no date/time valued entry directly under a key of a
    trace, the empty list apart. *)
Theorem wrapper_keeps_keys_and_clears_datetimes (fig : Figure) :
  map keys (json_data (_plotly_json_wrapper fig)) = map keys (fig_data fig) /\
  Forall (Forall (fun kv => isdatetime (snd kv) = true -> snd kv = VList []))
    (json_data (_plotly_json_wrapper fig)).
Proof.
  unfold _plotly_json_wrapper, to_plotly_json.
  cbn [json_data json_layout]. split.
  - rewrite map_map. apply map_ext. intros trace.
    unfold keys, normalize_trace. rewrite map_map. apply map_ext.
    intros [k v]. cbn [fst snd]. destruct (isdatetime v); reflexivity.
  - apply Forall_map. apply Forall_forall. intros trace _.
    unfold normalize_trace. apply Forall_map. apply Forall_forall.
    intros [k v] _. cbn [fst snd]. destruct (isdatetime v) eqn:D; cbn [snd].
    + apply datetime_to_str_settled. exact D.
    + congruence.
Qed.

(** ** Updating one source *)

Lemma update_columns_unflagged (trace_arrays : buffer) :
  forall cds cds',
    update_columns trace_arrays cds = Some (cds', false) -> cds' = cds.
Proof.
  induction trace_arrays as [|[k col] r IH]; intros cds cds' H.
  - inversion H. reflexivity.
  - cbn [update_columns] in H. destruct col as [|new rest]; [discriminate|].
    destruct (update_columns r _) as [[cds2 u]|] eqn:E; [|discriminate].
    inversion H as [[E1 E2]]. apply orb_false_iff in E2.
    destruct E2 as [Hc Hu]. subst u. rewrite Hc in E.
    apply IH in E. congruence.
Qed.

(** X10: when [_update_data_sources] answers that nothing changed, the
    source is exactly as it was. *)
Theorem unflagged_source_is_untouched (cds cds' : ColumnDataSource)
  (trace trace' : dict) :
  _update_data_sources cds trace = Some (trace', cds', false) ->
  cds' = cds.
Proof.
  unfold _update_data_sources. intros H.
  destruct (_get_sources_for_trace trace [] "") as [[t arrays]|];
    [|discriminate].
  destruct (update_columns arrays (cds_data cds)) as [[b u]|] eqn:U;
    [|discriminate].
  inversion H; subst. apply update_columns_unflagged in U. subst b.
  destruct cds. reflexivity.
Qed.

Lemma unflagged_source_is_untouched_witness :
  mk_cds [("x", [VArray (int_array [1; 2; 3]%Z)]);
          ("y", [VArray (int_array [4; 5; 6]%Z)]);
          ("z", [VArray (int_array [0]%Z)])] =
  mk_cds [("x", [VArray (int_array [1; 2; 3]%Z)]);
          ("y", [VArray (int_array [4; 5; 6]%Z)]);
          ("z", [VArray (int_array [0]%Z)])].
Proof.
  apply (unflagged_source_is_untouched _ _ xy_trace []). reflexivity.
Defined.

Lemma update_columns_keys (trace_arrays : buffer) :
  forall cds cds' flag k,
    update_columns trace_arrays cds = Some (cds', flag) ->
    In k (keys cds) -> In k (keys cds').
Proof.
  induction trace_arrays as [|[k0 col] r IH]; intros cds cds' flag k H Hk.
  - inversion H; subst. exact Hk.
  - cbn [update_columns] in H. destruct col as [|new rest]; [discriminate|].
    destruct (update_columns r _) as [[cds2 u]|] eqn:E; [|discriminate].
    inversion H; subst. eapply IH; [exact E|].
    destruct (update_array (dict_get k0 cds) new); [|exact Hk].
    apply keys_dict_set. right. exact Hk.
Qed.

(** X11: [_update_data_sources] keeps every column of the source: no key
    is removed, and a column under a key that is not the dotted path of
    one of the trace's arrays, such as one left by an earlier figure, is
    not touched. *)
Theorem update_data_sources_keeps_columns (cds cds' : ColumnDataSource)
  (trace trace' : dict) (flag : bool) :
  _update_data_sources cds trace = Some (trace', cds', flag) ->
  (forall k, In k (keys (cds_data cds)) -> In k (keys (cds_data cds'))) /\
  (forall t arrays k,
     _get_sources_for_trace trace [] "" = Some (t, arrays) ->
     ~ In k (keys arrays) ->
     dict_get k (cds_data cds') = dict_get k (cds_data cds)).
Proof.
  unfold _update_data_sources. intros H.
  destruct (_get_sources_for_trace trace [] "") as [[t0 arrays0]|];
    [|discriminate].
  destruct (update_columns arrays0 (cds_data cds)) as [[b u]|] eqn:U;
    [|discriminate].
  inversion H; subst. cbn [cds_data]. split.
  - intros k Hk. eapply update_columns_keys; eauto.
  - intros t arrays k E Hk. inversion E; subst.
    eapply update_columns_other_key; eauto.
Qed.

Lemma update_data_sources_keeps_columns_witness :
  (forall k,
     In k (keys (cds_data (mk_cds [("stale", [VArray (int_array [9]%Z)])]))) ->
     In k (keys (cds_data
                   (mk_cds [("stale", [VArray (int_array [9]%Z)]);
                            ("x", [VArray (int_array [1; 2; 3]%Z)]);
                            ("y", [VArray (int_array [4; 5; 6]%Z)])])))) /\
  (forall t arrays k,
     _get_sources_for_trace xy_trace [] "" = Some (t, arrays) ->
     ~ In k (keys arrays) ->
     dict_get k (cds_data
                   (mk_cds [("stale", [VArray (int_array [9]%Z)]);
                            ("x", [VArray (int_array [1; 2; 3]%Z)]);
                            ("y", [VArray (int_array [4; 5; 6]%Z)])])) =
     dict_get k (cds_data (mk_cds [("stale", [VArray (int_array [9]%Z)])]))).
Proof.
  apply (update_data_sources_keeps_columns
           (mk_cds [("stale", [VArray (int_array [9]%Z)])]) _ xy_trace []
           true).
  reflexivity.
Defined.




(** ** The render count *)

Lemma update_data_sources_unflagged (cds cds' : ColumnDataSource)
  (trace trace' : dict) :
  _update_data_sources cds trace = Some (trace', cds', false) -> cds' = cds.
Proof.
  unfold _update_data_sources. intros H.
  destruct (_get_sources_for_trace trace [] "") as [[t arrays]|];
    [|discriminate].
  destruct (update_columns arrays (cds_data cds)) as [[b u]|] eqn:U;
    [|discriminate].
  inversion H; subst. apply update_columns_unflagged in U. subst b.
  destruct cds. reflexivity.
Qed.

Lemma trace_loop_unflagged (traces : list dict) :
  forall i sources traces' touched,
    trace_loop traces i sources = Some (traces', touched, false) ->
    i + length traces <= length sources ->
    touched = firstn (length traces) (skipn i sources).
Proof.
  induction traces as [|t r IH]; intros i sources traces' touched H Hlen.
  - inversion H. reflexivity.
  - cbn [trace_loop] in H. cbn [length] in Hlen.
    destruct (nth_error sources i) as [cds|] eqn:Hi.
    + destruct (_update_data_sources cds t) as [[[t' c'] u]|] eqn:E;
        [|discriminate].
      destruct (trace_loop r (S i) sources) as [[[ts cs] u']|] eqn:E';
        [|discriminate].
      inversion H as [[E1 E2 E3]]. apply orb_false_iff in E3.
      destruct E3 as [Hu Hu']. subst u u'.
      apply update_data_sources_unflagged in E. subst c'.
      rewrite (IH (S i) sources ts cs E') by lia.
      cbn [length].
      rewrite (skipn_cons_nth sources i cds Hi). reflexivity.
    + apply nth_error_None in Hi. lia.
Qed.

(** X13: an update never takes the render count back and adds at most one
    to it. *)
Theorem update_counts_at_most_one_render (self : Plotly)
  (model model' : PlotlyPlot) :
  _update self model = Some model' ->
  model_render_count model' = model_render_count model \/
  model_render_count model' = (model_render_count model + 1)%Z.
Proof.
  intros H. destruct (object self) as [obj|] eqn:Hobj.
  - destruct (update_with_object self obj model model' Hobj H)
      as (model1 & u & us & _ & -> & _).
    cbn [model_render_count].
    destruct (updates_nonempty u || us); auto.
  - unfold _update in H. rewrite Hobj in H. inversion H; subst.
    cbn. auto.
Qed.

Lemma update_counts_at_most_one_render_witness :
  model_render_count one_trace_model = model_render_count two_trace_model \/
  model_render_count one_trace_model =
    (model_render_count two_trace_model + 1)%Z.
Proof.
  apply (update_counts_at_most_one_render one_trace_pane). reflexivity.
Defined.

(** X14: an update that returns, and leaves the render count as it was,
    has changed nothing: the traces, the layout, the sizing mode and every
    buffer are what they were.  An update that raises is another matter:
    it counts no render, and it may have rewritten buffers by then
    ([raise_leaves_rewritten_buffer]). *)
Theorem uncounted_update_changes_nothing (self : Plotly)
  (model model' : PlotlyPlot) :
  _update self model = Some model' ->
  model_render_count model' = model_render_count model ->
  model' = model.
Proof.
  intros H Hcount. destruct (object self) as [obj|] eqn:Hobj.
  - destruct (update_with_object self obj model model' Hobj H)
      as (model1 & u & us & E & -> & _).
    cbn [model_render_count] in Hcount.
    destruct (updates_nonempty u || us) eqn:F; [lia|].
    apply orb_false_iff in F. destruct F as [Hu Hus]. subst us.
    assert (u_data u = None /\ u_layout u = None /\
            u_data_sources u = None /\ u_sizing_mode u = None)
      as (A & B & C & D).
    { unfold updates_nonempty in Hu.
      destruct (u_sizing_mode u), (u_data_sources u), (u_data u), (u_layout u);
        try discriminate; auto. }
    rewrite A, B, C, D.
    assert (G : data_sources model1 = data_sources model).
    { unfold update_changes in E.
      destruct (trace_loop _ 0 (data_sources model)) as [[[ts cs] us']|] eqn:T;
        [|discriminate].
      destruct (sizing_update self _ _); [|discriminate].
      inversion E; subst model1 u us'. clear E.
      cbn [u_data_sources data_sources] in *.
      destruct (trace_loop_lengths _ _ _ _ _ _ T) as [_ Lcs].
      assert (Hle : length cs <= length (data_sources model)).
      { destruct (skipn (length (data_sources model)) cs) eqn:S;
          [|discriminate].
        destruct (Nat.le_gt_cases (length cs) (length (data_sources model)))
          as [Hle|Hgt]; [exact Hle|].
        apply (f_equal (@length _)) in S. rewrite length_skipn in S.
        cbn in S. lia. }
      rewrite (trace_loop_unflagged _ _ _ _ _ T)
        by (rewrite <- Lcs; exact Hle).
      cbn [skipn]. rewrite <- Lcs.
      rewrite firstn_firstn, Nat.min_r by exact Hle.
      rewrite length_firstn, Nat.min_l by exact Hle.
      apply firstn_skipn. }
    rewrite G. destruct model; reflexivity.
  - unfold _update in H. rewrite Hobj in H. inversion H; subst.
    cbn in Hcount. lia.
Qed.

Lemma uncounted_update_changes_nothing_witness :
  xy_model_initial = xy_model_initial.
Proof.
  apply (uncounted_update_changes_nothing xy_pane); reflexivity.
Defined.

Lemma nth_error_skipn_ge {A : Type} (l : list A) :
  forall k i, k <= i -> nth_error (skipn k l) (i - k) = nth_error l i.
Proof.
  induction l as [|y r IH]; intros [|k] [|i] H; cbn; try reflexivity;
    try lia.
  - destruct (i - k); reflexivity.
  - apply IH. lia.
Qed.

(** X15: an update never touches the configuration, and it leaves alone
    every buffer at an index at or beyond the number of traces of the new
    figure: buffers of traces that are gone stay as they were. *)
Theorem update_keeps_config_and_stale_buffers (self : Plotly)
  (obj : plot_object) (model model' : PlotlyPlot) :
  object self = Some obj ->
  _update self model = Some model' ->
  config model' = config model /\
  forall i, length (fig_data (_to_figure obj)) <= i ->
            i < length (data_sources model) ->
            nth_error (data_sources model') i = nth_error (data_sources model) i.
Proof.
  intros Hobj H.
  destruct (update_with_object self obj model model' Hobj H)
    as (model1 & u & us & E & -> & _).
  cbn [config data_sources]. split; [reflexivity|].
  intros i Hi Hlt.
  unfold update_changes in E.
  destruct (trace_loop _ 0 (data_sources model)) as [[[ts cs] us']|] eqn:T;
    [|discriminate].
  destruct (sizing_update self _ _); [|discriminate].
  inversion E; subst model1 u us. clear E.
  cbn [u_data_sources data_sources].
  destruct (trace_loop_lengths _ _ _ _ _ _ T) as [_ Lcs].
  cbn [_plotly_json_wrapper to_plotly_json json_data] in Lcs.
  rewrite length_map in Lcs.
  assert (Hle : length cs <= length (data_sources model)) by lia.
  rewrite (skipn_all2 cs) by exact Hle.
  rewrite firstn_all2 by exact Hle.
  rewrite nth_error_app2 by lia.
  rewrite <- (nth_error_skipn_ge (data_sources model) (length cs) i) by lia.
  reflexivity.
Qed.

Lemma update_keeps_config_and_stale_buffers_witness :
  config one_trace_model = config two_trace_model /\
  forall i,
    length (fig_data (_to_figure
                        (OData (OneTrace [("type", VScalar (SStr "bar"))]))))
      <= i ->
    i < length (data_sources two_trace_model) ->
    nth_error (data_sources one_trace_model) i =
    nth_error (data_sources two_trace_model) i.
Proof.
  apply (update_keeps_config_and_stale_buffers one_trace_pane); reflexivity.
Defined.

(** ** An update that raises *)

Lemma list_set_other {A : Type} (l : list A) :
  forall i j x, i <> j -> nth_error (list_set i x l) j = nth_error l j.
Proof.
  induction l as [|z r IH]; intros [|i] [|j] x H; cbn; try reflexivity.
  - contradiction.
  - apply IH. congruence.
Qed.

Lemma trace_loop_raised_some (traces : list dict) :
  forall i sources sources',
    trace_loop traces i sources = None ->
    (forall j, i <= j -> nth_error sources' j = nth_error sources j) ->
    exists left_behind, trace_loop_raised traces i sources' = Some left_behind.
Proof.
  induction traces as [|t r IH]; intros i sources sources' H Hsame;
    [discriminate|].
  cbn [trace_loop trace_loop_raised] in *.
  rewrite (Hsame i (Nat.le_refl i)).
  destruct (_update_data_sources _ t) as [[[t' cds'] u]|]; [|eauto].
  destruct (trace_loop r (S i) sources) as [[[ts cs] us]|] eqn:E;
    [discriminate|].
  apply (IH (S i) sources _ E).
  intros j Hj. rewrite list_set_other by lia. apply Hsame. lia.
Qed.


(** [_update] raises exactly when [_update_raised] tells how it leaves the
    model. *)
Lemma update_returns_or_raises (self : Plotly) (model : PlotlyPlot) :
  _update self model = None <->
  exists model', _update_raised self model = Some model'.
Proof.
  unfold _update, _update_raised, update_changes.
  destruct (object self) as [obj|]; [|split; [discriminate|intros [m H]; discriminate]].
  cbn zeta.
  destruct (trace_loop _ 0 (data_sources model)) as [[[ts cs] us]|] eqn:T.
  - destruct (sizing_update self _ _) as [sizing|].
    + split; [discriminate|intros [m H]; discriminate].
    + split; [eauto|reflexivity].
  - destruct (trace_loop_raised_some _ _ _ (data_sources model) T)
      as (left_behind & R); [reflexivity|].
    rewrite R. split; [eauto|reflexivity].
Qed.




(** A buffer rewritten without a render being counted: the second trace
    makes the update raise after the first one has rewritten its buffer. *)
Lemma raise_leaves_rewritten_buffer :
  _update broken_pane stale_model = None /\
  exists model',
    _update_raised broken_pane stale_model = Some model' /\
    nth_error (data_sources stale_model) 0 =
      Some (mk_cds [("x", [VArray (int_array [1; 2; 3]%Z)])]) /\
    nth_error (data_sources model') 0 =
      Some (mk_cds [("x", [VArray (int_array [7; 8; 9]%Z)])]) /\
    model_render_count model' = model_render_count stale_model.
Proof.
  split; [reflexivity|]. eexists. repeat split.
Qed.

(** ** The uid of a trace *)

Lemma traces_differ_modulo_uid (traces' old : list dict) :
  Forall2 (fun t' o => without_uid o = without_uid t') traces' old ->
  traces_differ traces' old = traces_differ traces' traces'.
Proof.
  induction 1 as [|t' o r ro E _ IH]; [reflexivity|].
  cbn [traces_differ]. rewrite E, IH. reflexivity.
Qed.

(** X16: the uid of a trace is not compared: when the model's traces are
    the stripped traces of the new figure up to their uid entries, and
    these traces compare equal to themselves, the update carries no data
    entry. *)
Theorem uid_alone_triggers_no_data_update (self : Plotly)
  (obj : plot_object) (model model1 : PlotlyPlot) (u : updates)
  (update_sources : bool) :
  update_changes self obj model = Some (model1, u, update_sources) ->
  forallb self_equal_trace
    (json_data (_plotly_json_wrapper (_to_figure obj))) = true ->
  Forall2 (fun trace old =>
             exists trace' arrays,
               _get_sources_for_trace trace [] "" = Some (trace', arrays) /\
               without_uid old = without_uid trace')
    (json_data (_plotly_json_wrapper (_to_figure obj))) (data model) ->
  u_data u = None.
Proof.
  intros E Hself Hdata. unfold update_changes in E.
  remember (_plotly_json_wrapper (_to_figure obj)) as json eqn:J. clear J.
  destruct (trace_loop (json_data json) 0 (data_sources model))
    as [[[ts cs] us']|] eqn:T; [|discriminate].
  destruct (sizing_update self _ (json_layout json)); [|discriminate].
  inversion E; subst model1 u update_sources. clear E.
  cbn [u_data data].
  pose proof (trace_loop_strips _ _ _ _ _ _ T) as Hstrip.
  assert (Hrel : Forall2 (fun t' o => without_uid o = without_uid t')
                   ts (data model)).
  { clear T Hself. revert Hdata. generalize (data model).
    induction Hstrip as [|t t' r r' (arrays & Et) _ IH]; intros old Hdata;
      inversion Hdata as [|x0 o0 r0 ro0 (t2 & a2 & E2 & Eu) Hr]; subst;
      constructor.
    - rewrite Et in E2. inversion E2; subst. exact Eu.
    - apply IH. exact Hr. }
  rewrite (Forall2_length Hrel), Nat.eqb_refl.
  rewrite (traces_differ_modulo_uid _ _ Hrel).
  rewrite (traces_differ_self _ _ Hstrip Hself). reflexivity.
Qed.

Lemma uid_alone_triggers_no_data_update_witness :
  u_data (mk_updates None None None None) = None.
Proof.
  apply (uid_alone_triggers_no_data_update uid_pane
           (OData (OneTrace [("uid", VScalar (SStr "new"));
                             ("type", VScalar (SStr "bar"))]))
           uid_model uid_model (mk_updates None None None None) false).
  - reflexivity.
  - reflexivity.
  - constructor; [|constructor]. do 2 eexists. split; reflexivity.
Defined.

(** ** Messages and views *)

Section RouterFacts.
Variable normalize : Figure -> option (list nat) -> list nat.
Variable restyle : Figure -> list value -> Plotly * list push -> option (Plotly * list push).
Variable relayout : Figure -> dict -> Plotly * list push -> option (Plotly * list push).

(** X17: without a source view, a relayout message and a restyle message
    are pushed once to every view, in the order of the views; the first
    carries no restyle entry and the second no relayout entry, the trace
    indexes are those the figure normalizes, and an empty payload still
    pushes an empty message to every view. *)
Theorem send_messages_per_view (self : Plotly) (fig : Figure)
  (restyle_data relayout_data : dict) (trace_indexes : option (list nat))
  (source_view_id : option string) :
  _figure self = Some fig ->
  source_view_given source_view_id = false ->
  _send_relayout_msg normalize self relayout_data source_view_id =
    Some (map (fun rm =>
                 (fst rm,
                  mk_msg (if nonempty relayout_data
                          then Some relayout_data else None) None))
            (_models self)) /\
  _send_restyle_msg normalize self restyle_data trace_indexes source_view_id =
    Some (map (fun rm =>
                 (fst rm,
                  mk_msg None
                    (if nonempty restyle_data
                     then Some (restyle_data, normalize fig trace_indexes)
                     else None)))
            (_models self)) /\
  _send_relayout_msg normalize self [] source_view_id =
    Some (map (fun rm => (fst rm, mk_msg None None)) (_models self)).
Proof.
  intros Hfig Hsid.
  unfold _send_relayout_msg, _send_restyle_msg, _send_update_msg.
  rewrite Hsid, Hfig. cbn [nonempty]. repeat split.
Qed.

(** X18: a pane that owns no figure and whose object is not a
    [go.Figure] still owns none after [_update_figure], so a restyle or a
    relayout event that arrives is dropped: both handlers return with the
    pane and the pushed messages as they were. *)
Theorem events_dropped_unless_figure (self : Plotly) (log : list push) :
  _figure self = None ->
  (forall fig, object self <> Some (OFigure fig)) ->
  _update_figure self = self /\
  _update_figure_style restyle (_update_figure self, log) =
    Some (_update_figure self, log) /\
  _update_figure_layout relayout (_update_figure self, log) =
    Some (_update_figure self, log).
Proof.
  intros Hfig Hobj.
  assert (E : _update_figure self = self).
  { unfold _update_figure. destruct (object self) as [[fig|d l|d l|d]|];
      try reflexivity. exfalso. eapply Hobj. reflexivity. }
  rewrite E. split; [reflexivity|].
  unfold _update_figure_style, _update_figure_layout. cbn [fst].
  rewrite Hfig. split; reflexivity.
Qed.


(** X20: [_get_model] registers the new model under the id of its root and
    keeps the models of the other views; a pane that owns a figure then
    pushes its next update message without a source view to that view
    too. *)
Theorem get_model_registers_view (self self' : Plotly) (ref : string)
  (model : PlotlyPlot) :
  _get_model self ref = Some (model, self') ->
  dict_get ref (_models self') = Some model /\
  (forall ref', ref' <> ref ->
     dict_get ref' (_models self') = dict_get ref' (_models self)) /\
  _figure self' = _figure self /\
  (forall fig restyle_data relayout_data trace_indexes,
     _figure self = Some fig ->
     exists pushes msg,
       _send_update_msg normalize self' restyle_data relayout_data
         trace_indexes None = Some pushes /\
       In (ref, msg) pushes).
Proof.
  unfold _get_model. intros H.
  destruct (_init_params self) as [p|]; [|discriminate].
  inversion H; subst. clear H. cbn [_models _figure].
  split; [apply dict_get_set_eq|].
  split; [intros ref' Hne; apply dict_get_set_ne; exact Hne|].
  split; [reflexivity|].
  intros fig sd rd ti Hfig.
  unfold _send_update_msg. cbn [source_view_given _figure _models].
  rewrite Hfig. do 2 eexists. split; [reflexivity|].
  apply in_map_iff.
  exists (ref, model_of_params p). split; [reflexivity|].
  apply dict_get_in. apply dict_get_set_eq.
Qed.

End RouterFacts.

Lemma send_messages_per_view_witness :
  _send_relayout_msg all_traces two_view_pane
    [("title", VScalar (SStr "t"))] None =
    Some (map (fun rm =>
                 (fst rm,
                  mk_msg (if nonempty [("title", VScalar (SStr "t"))]
                          then Some [("title", VScalar (SStr "t"))]
                          else None) None))
            (_models two_view_pane)) /\
  _send_restyle_msg all_traces two_view_pane [] None None =
    Some (map (fun rm =>
                 (fst rm,
                  mk_msg None
                    (if nonempty []
                     then Some ([], all_traces empty_figure None)
                     else None)))
            (_models two_view_pane)) /\
  _send_relayout_msg all_traces two_view_pane [] None =
    Some (map (fun rm => (fst rm, mk_msg None None)) (_models two_view_pane)).
Proof.
  apply (send_messages_per_view all_traces two_view_pane empty_figure);
    reflexivity.
Defined.

Lemma events_dropped_unless_figure_witness :
  _update_figure dict_pane = dict_pane /\
  _update_figure_style (fun _ _ _ => None) (_update_figure dict_pane, []) =
    Some (_update_figure dict_pane, []) /\
  _update_figure_layout (fun _ _ _ => None) (_update_figure dict_pane, []) =
    Some (_update_figure dict_pane, []).
Proof.
  apply (events_dropped_unless_figure (fun _ _ _ => None) (fun _ _ _ => None)
           dict_pane []).
  - reflexivity.
  - intros fig. discriminate.
Defined.


Lemma get_model_registers_view_witness :
  dict_get "view1"
    (_models (mk_pane (object xy_pane) None None 0 None None None None
                [("view1", xy_model_initial)])) = Some xy_model_initial /\
  (forall ref', ref' <> "view1" ->
     dict_get ref'
       (_models (mk_pane (object xy_pane) None None 0 None None None None
                   [("view1", xy_model_initial)])) =
     dict_get ref' (_models xy_pane)) /\
  _figure (mk_pane (object xy_pane) None None 0 None None None None
             [("view1", xy_model_initial)]) = _figure xy_pane /\
  (forall fig restyle_data relayout_data trace_indexes,
     _figure xy_pane = Some fig ->
     exists pushes msg,
       _send_update_msg all_traces
         (mk_pane (object xy_pane) None None 0 None None None None
            [("view1", xy_model_initial)])
         restyle_data relayout_data trace_indexes None = Some pushes /\
       In ("view1", msg) pushes).
Proof.
  apply (get_model_registers_view all_traces xy_pane). reflexivity.
Defined.

(** ** The first update after the initial render *)

Lemma trace_loop_on_initial_sources (traces : list dict) :
  forall traces' sources pre,
    get_sources_loop traces = Some (traces', sources) ->
    forallb self_equal_trace traces = true ->
    trace_loop traces (length pre) (pre ++ sources) =
    Some (traces', sources, false).
Proof.
  induction traces as [|t r IH]; intros traces' sources pre H Hself.
  - inversion H. reflexivity.
  - cbn [get_sources_loop] in H.
    destruct (_get_sources_for_trace t [] "") as [[t' data]|] eqn:E1;
      [|discriminate].
    destruct (get_sources_loop r) as [[r' s']|] eqn:E2; [|discriminate].
    inversion H; subst. clear H.
    cbn [forallb] in Hself. apply andb_true_iff in Hself.
    destruct Hself as [Ht Hr].
    cbn [trace_loop].
    rewrite nth_error_app2 by lia. rewrite Nat.sub_diag. cbn [nth_error].
    unfold _update_data_sources. rewrite E1. cbn [cds_data].
    rewrite (update_columns_settled data data
               (extracted_columns_settled _ _ _ E1 Ht)).
    pose proof (IH r' s' (pre ++ [mk_cds data]) eq_refl Hr) as G.
    rewrite length_app in G. cbn [length] in G.
    rewrite Nat.add_1_r in G. rewrite <- app_assoc in G. cbn [app] in G.
    rewrite G. reflexivity.
Qed.

Lemma sizing_update_after_init (self2 self : Plotly) (model : PlotlyPlot)
  (layout0 : dict) (auto : bool) :
  sizing_mode self2 = sizing_mode self ->
  match dict_get "autosize" layout0 with
  | Some autosize => truthy autosize
  | None => Some false
  end = Some auto ->
  (sizing_mode_is_default self = true ->
   forall autosize,
     dict_get "autosize" layout0 = Some autosize ->
     truthy autosize <> Some false) ->
  model_sizing_mode model =
    (if auto && sizing_mode_is_default self
     then Some "stretch_both" else sizing_mode self) ->
  sizing_update self2 model layout0 = Some None.
Proof.
  intros Hs A Hsize Hm. unfold sizing_update.
  assert (E : sizing_mode_is_default self2 = sizing_mode_is_default self).
  { unfold sizing_mode_is_default. rewrite Hs. reflexivity. }
  rewrite E. destruct (sizing_mode_is_default self) eqn:Def; [|reflexivity].
  unfold dict_mem. destruct (dict_get "autosize" layout0) as [a|] eqn:G;
    [|reflexivity].
  cbn [andb]. rewrite A.
  destruct auto; [|exfalso; exact (Hsize eq_refl a eq_refl A)].
  cbn [andb] in Hm. unfold sizing_mode_ne. rewrite Hm. reflexivity.
Qed.

(** X21: the first update after the initial render is silent.  When the
    figure is one that the diff engine finds equal to itself, and the pane
    is not at its default sizing mode with an autosize flag that is false,
    an update of the model that [_get_model] has just made, for the same
    object, leaves the model as it is, render count included. *)
Theorem first_update_after_initial_render (self self' : Plotly)
  (obj : plot_object) (ref : string) (model : PlotlyPlot) :
  object self = Some obj ->
  self_equal_figure (_plotly_json_wrapper (_to_figure obj)) = true ->
  (sizing_mode_is_default self = true ->
   forall autosize,
     dict_get "autosize" (fig_layout (_to_figure obj)) = Some autosize ->
     truthy autosize <> Some false) ->
  _get_model self ref = Some (model, self') ->
  _update self' model = Some model.
Proof.
  intros Hobj Hself Hsize H.
  unfold _get_model, _init_params in H. rewrite Hobj in H.
  unfold _get_sources in H.
  unfold _update, update_changes.
  assert (Hlayout : json_layout (_plotly_json_wrapper (_to_figure obj))
                    = fig_layout (_to_figure obj)) by reflexivity.
  rewrite <- Hlayout in Hsize. clear Hlayout.
  remember (_plotly_json_wrapper (_to_figure obj)) as json eqn:J.
  destruct (get_sources_loop (json_data json)) as [[ts sources]|] eqn:G;
    [|discriminate].
  cbn [json_layout json_data] in H.
  unfold self_equal_figure in Hself. apply andb_true_iff in Hself.
  destruct Hself as [Hlay Htr]. apply negb_true_iff in Hlay.
  destruct (match dict_get "autosize" (json_layout json) with
            | Some autosize => truthy autosize
            | None => Some false
            end) as [auto|] eqn:A; [|discriminate].
  inversion H; subst model self'. clear H.
  cbn [object sizing_mode model_of_params data layout data_sources config
       model_sizing_mode model_render_count p_data p_layout p_data_sources
       p_config p_sizing_mode p_render_count].
  rewrite ?Hobj, <- ?J.
  pose proof (trace_loop_on_initial_sources _ _ _ [] G Htr) as T.
  cbn [length app] in T. rewrite T.
  rewrite firstn_all, skipn_all, app_nil_r. rewrite Hlay, Nat.eqb_refl.
  rewrite (traces_differ_self _ _ (get_sources_loop_strips _ _ _ G) Htr).
  erewrite sizing_update_after_init;
    [reflexivity|reflexivity|exact A|exact Hsize|reflexivity].
Qed.

Lemma first_update_after_initial_render_witness :
  _update
    (mk_pane (object xy_pane) None None 0 None None None None
       [("view1", xy_model_initial)])
    xy_model_initial = Some xy_model_initial.
Proof.
  apply (first_update_after_initial_render xy_pane _
           (OTuple (OneTrace xy_trace) [("title", VScalar (SStr "xy"))])
           "view1").
  - reflexivity.
  - reflexivity.
  - intros _ autosize E. discriminate.
  - reflexivity.
Defined.

(** ** The tab-visibility hook *)

Lemma patch_models_cons (tabs_models rest : list widget) (model : widget)
  (st : hook_state) :
  patch_models tabs_models (model :: rest) st =
  match patch_step tabs_models model st with
  | Returned => Some st
  | Raised => None
  | Continued st' => patch_models tabs_models rest st'
  end.
Proof.
  cbn [patch_models]. unfold patch_step. cbn zeta.
  destruct (find_parent_tab _ _)
    as [[[tid active tabs|id margin|id children]|]|]; try reflexivity.
  destruct (tab_index tabs (widget_id model) 0) as [i|]; [|reflexivity].
  destruct (snd (update_callbacks _ (widget_id model) i)); reflexivity.
Qed.

Lemma update_callbacks_spec (cbs : list CustomJS) (model_id : string)
  (i : nat) :
  update_callbacks cbs model_id i =
  (map (fun cb => if cb_matches model_id cb then cb_set_index i cb else cb)
     cbs,
   existsb (cb_matches model_id) cbs).
Proof.
  induction cbs as [|cb r IH]; [reflexivity|].
  cbn [update_callbacks map existsb]. rewrite IH. cbn [fst snd].
  change (String.eqb (cb_code cb) code && String.eqb (cb_model cb) model_id)
    with (cb_matches model_id cb).
  destruct (cb_matches model_id cb); reflexivity.
Qed.

Lemma find_parent_tab_single (tabs : widget) :
  find_parent_tab [tabs] [tabs] = Some (Some tabs).
Proof.
  cbn [find_parent_tab]. unfold contains_no_other. cbn [filter].
  rewrite String.eqb_refl. reflexivity.
Qed.

(** A container is picked only when every container of [parent_tabs] is
    that one. *)
Lemma find_parent_tab_some (parent_tabs candidates : list widget)
  (tabs : widget) :
  find_parent_tab parent_tabs candidates = Some (Some tabs) ->
  In tabs candidates /\
  forall pt, In pt parent_tabs -> widget_id pt = widget_id tabs.
Proof.
  induction candidates as [|t r IH]; intros H; [discriminate|].
  cbn [find_parent_tab] in H. unfold contains_no_other in H.
  destruct (filter _ parent_tabs) as [|x l] eqn:F; [|discriminate].
  inversion H. subst t. split; [left; reflexivity|].
  intros pt Hpt.
  destruct (String.eqb_spec (widget_id pt) (widget_id tabs)) as [E|N];
    [exact E|].
  exfalso.
  assert (Hin : In pt (filter (fun pt => negb (String.eqb (widget_id pt)
                                                 (widget_id tabs)))
                         parent_tabs)).
  { apply filter_In. split; [exact Hpt|].
    apply negb_true_iff. apply String.eqb_neq. exact N. }
  rewrite F in Hin. destruct Hin.
Qed.

(** Filtering the models commutes with the order of iteration. *)
Lemma filter_perm (keep : widget -> bool) (ws ws' : list widget) :
  Permutation ws ws' -> Permutation (filter keep ws) (filter keep ws').
Proof.
  induction 1 as [|w ws ws' _ IH|w v ws|ws ws' ws'' _ IH1 _ IH2].
  - constructor.
  - cbn [filter]. destruct (keep w); [constructor|]; exact IH.
  - cbn [filter]. destruct (keep w), (keep v);
      try apply Permutation_refl. constructor.
  - eapply Permutation_trans; eassumption.
Qed.

Lemma enclosing_single_perm (tabs1 tabs2 : list widget) (model tabs : widget) :
  Permutation tabs2 tabs1 ->
  enclosing tabs1 model = [tabs] ->
  enclosing tabs2 model = [tabs].
Proof.
  intros Hp E. apply Permutation_length_1_inv. rewrite <- E.
  unfold enclosing. apply filter_perm. apply Permutation_sym. exact Hp.
Qed.

(** X22: with no tabbed container in the document, or no plot widget,
    the hook changes nothing, in whatever order it visits the document. *)
Theorem hook_needs_tabs_and_plots (order : list widget -> list widget)
  (root : widget) (st : hook_state) :
  select_type order is_tabs root = [] \/ select_type order is_plot root = [] ->
  _patch_tabs_plotly order root st = Some st.
Proof.
  unfold _patch_tabs_plotly. intros [E|E]; rewrite E.
  - destruct (select_type order is_plot root) as [|m r]; reflexivity.
  - reflexivity.
Qed.

Lemma hook_needs_tabs_and_plots_witness :
  _patch_tabs_plotly (@rev widget)
    (WBox "root" [WPlot "p1" 0; WBox "b" []]) no_hooks
  = Some no_hooks.
Proof.
  apply (hook_needs_tabs_and_plots (@rev widget)
           (WBox "root" [WPlot "p1" 0; WBox "b" []])).
  left. reflexivity.
Defined.

Lemma cb_rule_idempotent (model_id : string) (i : nat) (cb : CustomJS) :
  (fun cb => if cb_matches model_id cb then cb_set_index i cb else cb)
    ((fun cb => if cb_matches model_id cb then cb_set_index i cb else cb) cb)
  = (fun cb => if cb_matches model_id cb then cb_set_index i cb else cb) cb.
Proof.
  cbn beta. destruct (cb_matches model_id cb) eqn:E.
  - unfold cb_matches, cb_set_index in *. cbn. rewrite E. reflexivity.
  - rewrite E. reflexivity.
Qed.

Lemma cb_matches_rule (a b : string) (j : nat) (cb : CustomJS) :
  cb_matches a (if cb_matches b cb then cb_set_index j cb else cb)
  = cb_matches a cb.
Proof.
  destruct (cb_matches b cb); reflexivity.
Qed.

Lemma cb_rules_commute (a b : string) (i j : nat) (cb : CustomJS) :
  a <> b ->
  (if cb_matches a (if cb_matches b cb then cb_set_index j cb else cb)
   then cb_set_index i (if cb_matches b cb then cb_set_index j cb else cb)
   else (if cb_matches b cb then cb_set_index j cb else cb))
  = (if cb_matches b (if cb_matches a cb then cb_set_index i cb else cb)
     then cb_set_index j (if cb_matches a cb then cb_set_index i cb else cb)
     else (if cb_matches a cb then cb_set_index i cb else cb)).
Proof.
  intros Hab. rewrite !cb_matches_rule.
  destruct (cb_matches a cb) eqn:Ea, (cb_matches b cb) eqn:Eb; try reflexivity.
  unfold cb_matches in Ea, Eb.
  apply andb_true_iff in Ea as [_ Ea]. apply andb_true_iff in Eb as [_ Eb].
  apply String.eqb_eq in Ea, Eb. congruence.
Qed.

Lemma map_unmatched (model_id : string) (i : nat) (cbs : list CustomJS) :
  existsb (cb_matches model_id) cbs = false ->
  map (fun cb => if cb_matches model_id cb then cb_set_index i cb else cb) cbs
  = cbs.
Proof.
  induction cbs as [|cb r IH]; [reflexivity|].
  cbn [existsb map]. intros E. apply orb_false_iff in E as [E1 E2].
  rewrite E1, (IH E2). reflexivity.
Qed.

Lemma existsb_matches_map (a b : string) (j : nat) (cbs : list CustomJS) :
  existsb (cb_matches a)
    (map (fun cb => if cb_matches b cb then cb_set_index j cb else cb) cbs)
  = existsb (cb_matches a) cbs.
Proof.
  induction cbs as [|cb r IH]; [reflexivity|].
  cbn [existsb map]. rewrite cb_matches_rule, IH. reflexivity.
Qed.

Lemma hook_state_eta (st : hook_state) :
  mk_hook_state (js_property_callbacks st) (visible st) = st.
Proof. destruct st; reflexivity. Qed.

(** A plot whose rule is installed is passed over without a change. *)
Lemma patch_step_bound (tabs_models : list widget) (model : widget)
  (st : hook_state) :
  plot_bound tabs_models st model ->
  patch_step tabs_models model st = Continued st.
Proof.
  intros (tid & active & tabs & i & He & Hi & cbs & Hg & Hm & Hx).
  unfold patch_step. cbn zeta.
  rewrite He, find_parent_tab_single, Hi, Hg.
  rewrite update_callbacks_spec. cbn [fst snd]. rewrite Hx, Hm.
  rewrite (dict_set_same _ _ _ Hg). rewrite hook_state_eta. reflexivity.
Qed.

(** After its iteration the rule of the plot is installed. *)
Lemma patch_step_binds (tabs_models : list widget) (model parent_tab : widget)
  (st st' : hook_state) :
  enclosing tabs_models model = [parent_tab] ->
  patch_step tabs_models model st = Continued st' ->
  plot_bound tabs_models st' model.
Proof.
  unfold patch_step, plot_bound. cbn zeta. intros He.
  rewrite He, find_parent_tab_single.
  destruct parent_tab as [tid active tabs|id margin|id children];
    try discriminate.
  destruct (tab_index tabs (widget_id model) 0) as [i|] eqn:Hi; [|discriminate].
  rewrite update_callbacks_spec. cbn [fst snd].
  set (cbs := match dict_get tid (js_property_callbacks st) with
              | Some cbs => cbs
              | None => []
              end).
  intros H. exists tid, active, tabs, i.
  split; [reflexivity|]. split; [exact Hi|].
  destruct (existsb (cb_matches (widget_id model)) cbs) eqn:Hx;
    inversion H; subst st'; clear H; unfold bound_in; cbn [js_property_callbacks].
  - eexists. split; [apply dict_get_set_eq|]. split.
    + rewrite map_map. apply map_ext. intros cb. apply cb_rule_idempotent.
    + rewrite existsb_matches_map. exact Hx.
  - eexists. split; [apply dict_get_set_eq|]. split.
    + rewrite map_app, (map_unmatched _ _ _ Hx). cbn [map].
      unfold cb_matches at 1. cbn [cb_code cb_model].
      rewrite !String.eqb_refl. reflexivity.
    + rewrite existsb_app. cbn [existsb]. unfold cb_matches at 2.
      cbn [cb_code cb_model]. rewrite !String.eqb_refl.
      cbn. apply orb_true_r.
Qed.

(** The iteration of another plot leaves an installed rule in place. *)
Lemma patch_step_keeps_bound (tabs_models : list widget) (other : widget)
  (st st' : hook_state) (tid model_id : string) (i : nat) :
  patch_step tabs_models other st = Continued st' ->
  widget_id other <> model_id ->
  bound_in tid model_id i st ->
  bound_in tid model_id i st'.
Proof.
  unfold patch_step. cbn zeta.
  destruct (find_parent_tab _ _)
    as [[[tid' active tabs|id margin|id children]|]|]; try discriminate.
  destruct (tab_index tabs (widget_id other) 0) as [j|]; [|discriminate].
  rewrite update_callbacks_spec. cbn [fst snd].
  intros H Hne (cbs & Hg & Hm & Hx).
  destruct (String.eqb tid' tid) eqn:Et.
  - apply String.eqb_eq in Et. subst tid'. rewrite Hg in H.
    destruct (existsb (cb_matches (widget_id other)) cbs) eqn:Hy;
      inversion H; subst st'; clear H; unfold bound_in;
      cbn [js_property_callbacks].
    + eexists. split; [apply dict_get_set_eq|]. split.
      * rewrite map_map.
        erewrite map_ext;
          [|intros cb; apply cb_rules_commute; congruence].
        rewrite <- map_map with
          (f := fun cb => if cb_matches model_id cb
                          then cb_set_index i cb else cb)
          (g := fun cb => if cb_matches (widget_id other) cb
                          then cb_set_index j cb else cb).
        rewrite Hm. reflexivity.
      * rewrite existsb_matches_map. exact Hx.
    + eexists. split; [apply dict_get_set_eq|]. split.
      * rewrite map_app, Hm. cbn [map].
        unfold cb_matches at 1. cbn [cb_code cb_model].
        destruct (String.eqb (widget_id other) model_id) eqn:En.
        -- apply String.eqb_eq in En. contradiction.
        -- rewrite andb_false_r. reflexivity.
      * rewrite existsb_app, Hx. reflexivity.
  - apply String.eqb_neq in Et.
    exists cbs. split; [|split; assumption].
    destruct (existsb _ _) in H; inversion H; subst st'; clear H;
      cbn [js_property_callbacks]; rewrite dict_get_set_ne by congruence;
      exact Hg.
Qed.

Lemma patch_models_keeps_bound (tabs_models : list widget)
  (tid model_id : string) (i : nat) (rest : list widget) :
  forall st st',
    patch_models tabs_models rest st = Some st' ->
    ~ In model_id (map widget_id rest) ->
    bound_in tid model_id i st ->
    bound_in tid model_id i st'.
Proof.
  induction rest as [|other rest IH]; intros st st' H Hn Hb.
  - cbn in H. inversion H. subst. exact Hb.
  - rewrite patch_models_cons in H.
    destruct (patch_step tabs_models other st) as [| |st1] eqn:Es.
    + inversion H. subst. exact Hb.
    + discriminate.
    + apply (IH st1 st' H).
      * intros Hin. apply Hn. right. exact Hin.
      * apply (patch_step_keeps_bound _ _ _ _ _ _ _ Es); [|exact Hb].
        intros E. apply Hn. left. exact E.
Qed.

(** A run that meets only plots with one enclosing container binds them
    all. *)
Lemma patch_models_binds_all (tabs_models plotly_models : list widget) :
  forall st st',
    NoDup (map widget_id plotly_models) ->
    (forall model, In model plotly_models ->
       exists parent_tab, enclosing tabs_models model = [parent_tab]) ->
    patch_models tabs_models plotly_models st = Some st' ->
    Forall (plot_bound tabs_models st') plotly_models.
Proof.
  induction plotly_models as [|model rest IH]; intros st st' Hnd Hone H.
  - constructor.
  - cbn [map] in Hnd. inversion Hnd as [|? ? Hn Hnd']. subst.
    destruct (Hone model (or_introl eq_refl)) as (parent_tab & He).
    rewrite patch_models_cons in H.
    destruct (patch_step tabs_models model st) as [| |st1] eqn:Es.
    + exfalso. unfold patch_step in Es. cbn zeta in Es.
      rewrite He, find_parent_tab_single in Es.
      destruct parent_tab as [tid active tabs|id margin|id children];
        try discriminate.
      destruct (tab_index tabs (widget_id model) 0); [|discriminate].
      destruct (snd _); discriminate.
    + discriminate.
    + constructor.
      * destruct (patch_step_binds _ _ _ _ _ He Es)
          as (tid & active & tabs & i & He' & Hi & Hb).
        exists tid, active, tabs, i. split; [exact He'|]. split; [exact Hi|].
        exact (patch_models_keeps_bound _ _ _ _ _ _ _ H Hn Hb).
      * apply (IH st1 st' Hnd'); [|exact H].
        intros m Hm. apply Hone. right. exact Hm.
Qed.

Lemma patch_models_passes_over (tabs_models plotly_models : list widget)
  (st : hook_state) :
  Forall (plot_bound tabs_models st) plotly_models ->
  patch_models tabs_models plotly_models st = Some st.
Proof.
  induction 1 as [|model rest Hb _ IH]; [reflexivity|].
  rewrite patch_models_cons, (patch_step_bound _ _ _ Hb). exact IH.
Qed.

Lemma plot_bound_perm (tabs1 tabs2 : list widget) (st : hook_state)
  (model : widget) :
  Permutation tabs2 tabs1 ->
  plot_bound tabs1 st model -> plot_bound tabs2 st model.
Proof.
  intros Hp (tid & active & tabs & i & He & Hi & Hb).
  exists tid, active, tabs, i. split; [|split; assumption].
  exact (enclosing_single_perm _ _ _ _ Hp He).
Qed.

(** X23: the hook is idempotent, in whatever order each run visits the
    document.  When the plot widgets have distinct ids and each of them
    sits below exactly one tabbed container, running the hook again on the
    state it left installs no further callback, changes no index and no
    visibility flag. *)
Theorem hook_is_idempotent (order1 order2 : list widget -> list widget)
  (root : widget) (st st' : hook_state) :
  rearranges order1 -> rearranges order2 ->
  NoDup (map widget_id (filter is_plot (references root))) ->
  (forall model, In model (filter is_plot (references root)) ->
     exists parent_tab,
       enclosing (filter is_tabs (references root)) model = [parent_tab]) ->
  _patch_tabs_plotly order1 root st = Some st' ->
  _patch_tabs_plotly order2 root st' = Some st'.
Proof.
  intros H1 H2 Hnd Hone H. unfold _patch_tabs_plotly, select_type in *.
  cbn zeta in *.
  pose proof (filter_perm is_tabs _ _ (H1 (references root))) as Pt1.
  pose proof (filter_perm is_plot _ _ (H1 (references root))) as Pp1.
  pose proof (filter_perm is_tabs _ _ (H2 (references root))) as Pt2.
  pose proof (filter_perm is_plot _ _ (H2 (references root))) as Pp2.
  assert (Hall : Forall (plot_bound (filter is_tabs (order1 (references root)))
                           st')
                   (filter is_plot (order1 (references root)))).
  { apply (patch_models_binds_all _ _ st st'); [| |exact H].
    - apply (Permutation_NoDup (l := map widget_id
                                        (filter is_plot (references root))));
        [|exact Hnd].
      apply Permutation_map. apply Permutation_sym. exact Pp1.
    - intros m Hm.
      destruct (Hone m (Permutation_in _ Pp1 Hm)) as (parent_tab & He).
      exists parent_tab. exact (enclosing_single_perm _ _ _ _ Pt1 He). }
  apply patch_models_passes_over. rewrite Forall_forall in *.
  intros m Hm.
  apply (plot_bound_perm (filter is_tabs (order1 (references root)))).
  - eapply Permutation_trans; [exact Pt2|]. apply Permutation_sym. exact Pt1.
  - apply Hall. apply (Permutation_in _ (Permutation_sym Pp1)).
    exact (Permutation_in _ Pp2 Hm).
Qed.

Lemma hook_is_idempotent_witness :
  _patch_tabs_plotly (@rev widget) two_tabbed_plots
    (mk_hook_state
       [("t", [mk_callback code "p1" 0 0; mk_callback code "p2" 1 3])]
       [("p1", false); ("p2", true)])
  = Some
      (mk_hook_state
         [("t", [mk_callback code "p1" 0 0; mk_callback code "p2" 1 3])]
         [("p1", false); ("p2", true)]).
Proof.
  apply (hook_is_idempotent (fun l => l) (@rev widget) two_tabbed_plots
           no_hooks).
  - intros l. apply Permutation_refl.
  - intros l. apply Permutation_sym. apply Permutation_rev.
  - cbn. repeat constructor; cbn; intuition discriminate.
  - intros model [<-|[<-|[]]]; eexists; reflexivity.
  - reflexivity.
Defined.

Lemma select_one_below (tid : string) (active : nat) (tabs : list widget)
  (id : string) :
  select_one_id (WTabs tid active tabs) id = true ->
  tid <> id ->
  exists tab, In tab tabs /\ select_one_id tab id = true.
Proof.
  unfold select_one_id. cbn [references existsb widget_id].
  intros H Hne. apply orb_true_iff in H as [H|H].
  - apply String.eqb_eq in H. contradiction.
  - apply existsb_exists in H as (r & Hin & Hr).
    apply in_flat_map in Hin as (tab & Htab & Hin).
    exists tab. split; [exact Htab|].
    apply existsb_exists. exists r. split; assumption.
Qed.

Lemma tab_index_first (id : string) (tabs : list widget) :
  forall i0,
    (exists tab, In tab tabs /\ select_one_id tab id = true) ->
    exists j tab,
      tab_index tabs id i0 = Some (i0 + j) /\
      nth_error tabs j = Some tab /\
      select_one_id tab id = true /\
      forall k t, k < j -> nth_error tabs k = Some t ->
                  select_one_id t id = false.
Proof.
  induction tabs as [|tab rest IH]; intros i0 (t & Hin & Ht).
  - destruct Hin.
  - cbn [tab_index]. destruct (select_one_id tab id) eqn:E.
    + exists 0, tab. rewrite Nat.add_0_r.
      repeat split; try assumption. intros k t' Hk. lia.
    + destruct Hin as [->|Hin]; [congruence|].
      destruct (IH (S i0) (ex_intro _ t (conj Hin Ht)))
        as (j & tab' & Hj & Hn & Hs & Hfirst).
      exists (S j), tab'. split; [|split; [exact Hn|split; [exact Hs|]]].
      * destruct rest as [|r rest']; [destruct Hin|].
        rewrite Hj. f_equal. lia.
      * intros [|k] t' Hk Hk'.
        -- cbn in Hk'. inversion Hk'. subst. exact E.
        -- cbn in Hk'. apply (Hfirst k t'); [lia|exact Hk'].
Qed.

Lemma enclosing_single_selects (tabs_models : list widget)
  (model parent_tab : widget) :
  enclosing tabs_models model = [parent_tab] ->
  select_one_id parent_tab (widget_id model) = true.
Proof.
  intros He.
  assert (Hin : In parent_tab (enclosing tabs_models model))
    by (rewrite He; left; reflexivity).
  unfold enclosing in Hin. apply filter_In in Hin as [_ Hs]. exact Hs.
Qed.

(** X24: the first time the hook meets a plot, when exactly one tabbed
    container encloses it, the hook installs exactly one callback on that
    container, after those already there; the callback carries the index
    of the first tab that holds the plot and the plot's margin, and the
    plot is made visible exactly when that tab is the active one. *)
Theorem hook_binds_plot_to_first_tab (tabs_models : list widget)
  (model : widget) (st : hook_state) (tid : string) (active : nat)
  (tabs : list widget) (cbs : list CustomJS) :
  enclosing tabs_models model = [WTabs tid active tabs] ->
  tid <> widget_id model ->
  match dict_get tid (js_property_callbacks st) with
  | Some cbs => cbs
  | None => []
  end = cbs ->
  existsb (cb_matches (widget_id model)) cbs = false ->
  exists i tab,
    nth_error tabs i = Some tab /\
    select_one_id tab (widget_id model) = true /\
    (forall k t, k < i -> nth_error tabs k = Some t ->
                 select_one_id t (widget_id model) = false) /\
    patch_models tabs_models [model] st =
    Some (mk_hook_state
            (dict_set tid
               (cbs ++ [mk_callback code (widget_id model) i
                          (match model with
                           | WPlot _ margin => margin
                           | _ => 0
                           end)])
               (js_property_callbacks st))
            (dict_set (widget_id model) (Nat.eqb active i) (visible st))).
Proof.
  intros He Hne Hc Hx.
  pose proof (enclosing_single_selects _ _ _ He) as Hsel.
  destruct (tab_index_first (widget_id model) tabs 0
              (select_one_below _ _ _ _ Hsel Hne))
    as (i & tab & Hi & Hn & Hs & Hfirst).
  cbn [Nat.add] in Hi.
  exists i, tab. split; [exact Hn|]. split; [exact Hs|]. split; [exact Hfirst|].
  rewrite patch_models_cons. unfold patch_step. cbn zeta.
  rewrite He, find_parent_tab_single, Hi, Hc.
  rewrite update_callbacks_spec. cbn [fst snd].
  rewrite Hx. reflexivity.
Qed.

Lemma hook_binds_plot_to_first_tab_witness :
  exists i tab,
    nth_error [WBox "b" []; WPlot "p" 5] i = Some tab /\
    select_one_id tab "p" = true /\
    (forall k t, k < i -> nth_error [WBox "b" []; WPlot "p" 5] k = Some t ->
                 select_one_id t "p" = false) /\
    patch_models [WTabs "t" 0 [WPlot "p2" 0]; second_tab_plot] [WPlot "p" 5]
      no_hooks =
    Some (mk_hook_state
            (dict_set "inner" ([] ++ [mk_callback code "p" i 5]) [])
            (dict_set "p" (Nat.eqb 1 i) [])).
Proof.
  apply (hook_binds_plot_to_first_tab
           [WTabs "t" 0 [WPlot "p2" 0]; second_tab_plot]
           (WPlot "p" 5) no_hooks "inner" 1 [WBox "b" []; WPlot "p" 5] []).
  - reflexivity.
  - discriminate.
  - reflexivity.
  - reflexivity.
Defined.

(** X25: when a callback of the hook for the plot is already installed on
    the one container that encloses it, the hook only rewrites the index
    of those callbacks: it appends nothing, keeps every other callback and
    leaves the visibility flags as they are. *)
Theorem hook_rebinding_rewrites_index (tabs_models : list widget)
  (model : widget) (st : hook_state) (tid : string) (active : nat)
  (tabs : list widget) (cbs : list CustomJS) :
  enclosing tabs_models model = [WTabs tid active tabs] ->
  tid <> widget_id model ->
  dict_get tid (js_property_callbacks st) = Some cbs ->
  existsb (cb_matches (widget_id model)) cbs = true ->
  exists st' i cbs',
    patch_models tabs_models [model] st = Some st' /\
    tab_index tabs (widget_id model) 0 = Some i /\
    visible st' = visible st /\
    dict_get tid (js_property_callbacks st') = Some cbs' /\
    length cbs' = length cbs /\
    forall k cb, nth_error cbs k = Some cb ->
      nth_error cbs' k =
      Some (if cb_matches (widget_id model) cb then cb_set_index i cb else cb).
Proof.
  intros He Hne Hg Hx.
  pose proof (enclosing_single_selects _ _ _ He) as Hsel.
  destruct (tab_index_first (widget_id model) tabs 0
              (select_one_below _ _ _ _ Hsel Hne))
    as (i & tab & Hi & _).
  cbn [Nat.add] in Hi.
  eexists _, i, _. split; [|split; [exact Hi|]].
  - rewrite patch_models_cons. unfold patch_step. cbn zeta.
    rewrite He, find_parent_tab_single, Hi, Hg.
    rewrite update_callbacks_spec.
    cbn [fst snd]. rewrite Hx. reflexivity.
  - cbn [visible js_property_callbacks]. split; [reflexivity|].
    split; [apply dict_get_set_eq|]. split; [apply length_map|].
    intros k cb Hk. rewrite nth_error_map, Hk. reflexivity.
Qed.

Lemma hook_rebinding_rewrites_index_witness :
  exists st' i cbs',
    patch_models [second_tab_plot] [WPlot "p" 5]
      (mk_hook_state [("inner", [mk_callback code "p" 0 5])] []) = Some st' /\
    tab_index [WBox "b" []; WPlot "p" 5] "p" 0 = Some i /\
    visible st' = [] /\
    dict_get "inner" (js_property_callbacks st') = Some cbs' /\
    length cbs' = 1 /\
    forall k cb, nth_error [mk_callback code "p" 0 5] k = Some cb ->
      nth_error cbs' k =
      Some (if cb_matches "p" cb then cb_set_index i cb else cb).
Proof.
  apply (hook_rebinding_rewrites_index [second_tab_plot]
           (WPlot "p" 5)
           (mk_hook_state [("inner", [mk_callback code "p" 0 5])] [])
           "inner" 1 [WBox "b" []; WPlot "p" 5] [mk_callback code "p" 0 5]).
  - reflexivity.
  - discriminate.
  - reflexivity.
  - reflexivity.
Defined.

(** X26: whatever the hook changes for a plot, it changes on one tabbed
    container only, and that container is the only one of the document
    that encloses the plot.  The callbacks of every other container are
    left as they were. *)
Theorem hook_touches_single_container_only (tabs_models : list widget)
  (model : widget) (st st' : hook_state) :
  patch_models tabs_models [model] st = Some st' ->
  st' <> st ->
  exists tid active tabs,
    In (WTabs tid active tabs) tabs_models /\
    select_one_id (WTabs tid active tabs) (widget_id model) = true /\
    (forall pt, In pt tabs_models ->
       select_one_id pt (widget_id model) = true ->
       widget_id pt = tid) /\
    forall other, other <> tid ->
      dict_get other (js_property_callbacks st') =
      dict_get other (js_property_callbacks st).
Proof.
  intros H Hne. rewrite patch_models_cons in H.
  destruct (patch_step tabs_models model st) as [| |st1] eqn:Es.
  - inversion H. subst. contradiction.
  - discriminate.
  - cbn [patch_models] in H. inversion H. subst st1. clear H.
    unfold patch_step in Es. cbn zeta in Es.
    destruct (find_parent_tab _ _)
      as [[[tid active tabs|id margin|id children]|]|] eqn:Hf;
      try discriminate.
    exists tid, active, tabs.
    destruct (find_parent_tab_some _ _ _ Hf) as (Hin & Hids).
    unfold enclosing in Hin. apply filter_In in Hin as [Hin Hsel].
    split; [exact Hin|]. split; [exact Hsel|]. split.
    + intros pt Hpt Hs. apply (Hids pt). apply filter_In. split; assumption.
    + intros other Ho.
      destruct (tab_index tabs (widget_id model) 0) as [i|]; [|discriminate].
      destruct (snd _) in Es; inversion Es; subst st'; clear Es;
        cbn [js_property_callbacks]; apply dict_get_set_ne; congruence.
Qed.

Lemma hook_touches_single_container_only_witness :
  exists tid active tabs,
    In (WTabs tid active tabs) [WTabs "t" 0 [WPlot "p2" 0]; second_tab_plot] /\
    select_one_id (WTabs tid active tabs) "p" = true /\
    (forall pt, In pt [WTabs "t" 0 [WPlot "p2" 0]; second_tab_plot] ->
       select_one_id pt "p" = true ->
       widget_id pt = tid) /\
    forall other, other <> tid ->
      dict_get other [("inner", [mk_callback code "p" 1 5])] =
      dict_get other [].
Proof.
  apply (hook_touches_single_container_only
           [WTabs "t" 0 [WPlot "p2" 0]; second_tab_plot] (WPlot "p" 5)
           no_hooks
           (mk_hook_state [("inner", [mk_callback code "p" 1 5])]
              [("p", true)])).
  - reflexivity.
  - discriminate.
Defined.
